(** * Verification of the stacks-builder backend request-orchestration layer

    A shallow embedding in Rocq of the Go backend of stacks-builder:
    credential store ([internal/auth]), conversation history
    ([internal/conversation]), retrieval bridge ([internal/rag]), provider
    selection ([internal/codegen]), the chat handler
    ([internal/api/handlers/chat.go]), the API-key middleware and the
    telemetry pipeline ([internal/querylog], query-log middleware).

    Go strings are byte strings; they are modelled by Rocq's [string]
    (a list of 8-bit [ascii]), and byte-level algorithms of the Go standard
    library ([unicode/utf8], [strings], [encoding/json]) work on the bytes as
    a [list Z], each in [0, 256). *)

From Stdlib Require Import String Ascii ZArith List Bool Lia Sorted Permutation.
Import ListNotations.

Local Open Scope Z_scope.

(** Go's [(T, error)] results. *)
Inductive result (A : Type) : Type :=
| Ok (a : A)
| Err (msg : string).
Arguments Ok {A} a.
Arguments Err {A} msg.

(** ** Bytes of a Go string *)
Module Bytes.

Definition of_string (s : string) : list Z :=
  map (fun a => Z.of_N (N_of_ascii a)) (list_ascii_of_string s).

Definition to_string (bs : list Z) : string :=
  string_of_list_ascii (map (fun b => ascii_of_N (Z.to_N b)) bs).

Definition is_byte (b : Z) : bool := (0 <=? b) && (b <? 256).

End Bytes.

(** ** [unicode/utf8] and [unicode.IsSpace] *)
Module Utf8.

Definition RuneError : Z := 65533.
Definition RuneSelf : Z := 128.
Definition MaxRune : Z := 1114111.
Definition surrogateMin : Z := 55296.
Definition surrogateMax : Z := 57343.
Definition rune1Max : Z := 127.
Definition rune2Max : Z := 2047.
Definition rune3Max : Z := 65535.
Definition t2 : Z := 192.
Definition t3 : Z := 224.
Definition t4 : Z := 240.
Definition tx : Z := 128.
Definition maskx : Z := 63.
Definition mask2 : Z := 31.
Definition mask3 : Z := 15.
Definition mask4 : Z := 7.
Definition locb : Z := 128.
Definition hicb : Z := 191.

(** The [first] table: what a leading byte announces. [LSeq size lo hi]
    is a multi-byte sequence of [size] bytes whose second byte must lie in
    [lo, hi] (the [acceptRanges] entry). *)
Inductive lead := LAscii | LInvalid | LSeq (size : nat) (lo hi : Z).

Definition first (b : Z) : lead :=
  if b <? 128 then LAscii
  else if b <? 194 then LInvalid
  else if b <? 224 then LSeq 2 128 191
  else if b =? 224 then LSeq 3 160 191
  else if b <? 237 then LSeq 3 128 191
  else if b =? 237 then LSeq 3 128 159
  else if b <? 240 then LSeq 3 128 191
  else if b =? 240 then LSeq 4 144 191
  else if b <? 244 then LSeq 4 128 191
  else if b =? 244 then LSeq 4 128 143
  else LInvalid.

Definition out_of (lo hi b : Z) : bool := (b <? lo) || (hi <? b).

(** [utf8.DecodeRune]: the first rune of [p] and its width in bytes. *)
Definition DecodeRune (p : list Z) : Z * nat :=
  match p with
  | [] => (RuneError, 0%nat)
  | p0 :: _ =>
      match first p0 with
      | LAscii => (p0, 1%nat)
      | LInvalid => (RuneError, 1%nat)
      | LSeq sz lo hi =>
          if (length p <? sz)%nat then (RuneError, 1%nat) else
          let b1 := nth 1 p 0 in
          if out_of lo hi b1 then (RuneError, 1%nat) else
          if (sz <=? 2)%nat then
            (Z.lor (Z.shiftl (Z.land p0 mask2) 6) (Z.land b1 maskx), 2%nat) else
          let b2 := nth 2 p 0 in
          if out_of locb hicb b2 then (RuneError, 1%nat) else
          if (sz <=? 3)%nat then
            (Z.lor (Z.lor (Z.shiftl (Z.land p0 mask3) 12)
                          (Z.shiftl (Z.land b1 maskx) 6))
                   (Z.land b2 maskx), 3%nat) else
          let b3 := nth 3 p 0 in
          if out_of locb hicb b3 then (RuneError, 1%nat) else
          (Z.lor (Z.lor (Z.lor (Z.shiftl (Z.land p0 mask4) 18)
                               (Z.shiftl (Z.land b1 maskx) 12))
                        (Z.shiftl (Z.land b2 maskx) 6))
                 (Z.land b3 maskx), 4%nat)
      end
  end.

(** Go's conversion [byte(x)]. *)
Definition byte_of (x : Z) : Z := Z.land x 255.

(** [utf8.AppendRune] (the bytes [utf8.EncodeRune] writes). *)
Definition AppendRune (r : Z) : list Z :=
  let i := r mod 2 ^ 32 in
  if i <=? rune1Max then [byte_of r]
  else if i <=? rune2Max then
    [Z.lor t2 (byte_of (Z.shiftr r 6)); Z.lor tx (Z.land (byte_of r) maskx)]
  else if (i <? surrogateMin) || ((surrogateMax <? i) && (i <=? rune3Max)) then
    [Z.lor t3 (byte_of (Z.shiftr r 12));
     Z.lor tx (Z.land (byte_of (Z.shiftr r 6)) maskx);
     Z.lor tx (Z.land (byte_of r) maskx)]
  else if (rune3Max <? i) && (i <=? MaxRune) then
    [Z.lor t4 (byte_of (Z.shiftr r 18));
     Z.lor tx (Z.land (byte_of (Z.shiftr r 12)) maskx);
     Z.lor tx (Z.land (byte_of (Z.shiftr r 6)) maskx);
     Z.lor tx (Z.land (byte_of r) maskx)]
  else [239; 191; 189].

(** [utf8.ValidString]: every rune decodes without error. The loop runs on
    fuel; each step consumes at least one byte, so [length p] suffices. *)
Fixpoint valid_loop (fuel : nat) (p : list Z) : bool :=
  match fuel, p with
  | _, [] => true
  | O, _ :: _ => false
  | S f, _ :: _ =>
      let '(r, size) := DecodeRune p in
      if (r =? RuneError) && (size =? 1)%nat then false
      else valid_loop f (skipn size p)
  end.

Definition ValidString (p : list Z) : bool :=
  forallb Bytes.is_byte p && valid_loop (length p) p.

(** [unicode.IsSpace]. *)
Definition IsSpace (r : Z) : bool :=
  if r mod 2 ^ 32 <=? 255 then
    (r =? 9) || (r =? 10) || (r =? 11) || (r =? 12) || (r =? 13)
    || (r =? 32) || (r =? 133) || (r =? 160)
  else
    (r =? 5760) || ((8192 <=? r) && (r <=? 8202)) || (r =? 8232)
    || (r =? 8233) || (r =? 8239) || (r =? 8287) || (r =? 12288).

(** [utf8.RuneStart]. *)
Definition RuneStart (b : Z) : bool := negb (Z.land b 192 =? 128).

(** [utf8.DecodeLastRune]: the last rune of [p] and its width. Indices
    are Go [int]s; the backward scan visits at most [UTFMax] bytes. *)
Definition DecodeLastRune (p : list Z) : Z * nat :=
  let end_ := Z.of_nat (length p) in
  if end_ =? 0 then (RuneError, 0%nat) else
  let c := nth (Z.to_nat (end_ - 1)) p 0 in
  if c <? RuneSelf then (c, 1%nat) else
  let lim := Z.max 0 (end_ - 4) in
  (* for start--; start >= lim; start-- { if RuneStart(p[start]) break } *)
  let fix back (k : nat) (start : Z) : Z :=
    match k with
    | O => start
    | S k' =>
        if lim <=? start then
          if RuneStart (nth (Z.to_nat start) p 0) then start
          else back k' (start - 1)
        else start
    end in
  let start0 := back 5%nat (end_ - 2) in
  let start := if start0 <? 0 then 0 else start0 in
  let '(r, size) := DecodeRune (skipn (Z.to_nat start) p) in
  if negb (start + Z.of_nat size =? end_) then (RuneError, 1%nat) else (r, size).

End Utf8.

(** ** Package [strings] *)
Module GoStrings.
Import Utf8.

(** [indexFunc(s, f, false)] as used by [TrimLeftFunc]: the byte offset of
    the first rune (a [for range] over [s]) on which [f] is false. *)
Fixpoint index_not (f : Z -> bool) (fuel : nat) (p : list Z) (i : nat)
  : option nat :=
  match fuel, p with
  | _, [] => None
  | O, _ :: _ => None
  | S fuel', _ :: _ =>
      let '(r, size) := DecodeRune p in
      if negb (f r) then Some i else index_not f fuel' (skipn size p) (i + size)
  end.

Definition TrimLeftFunc (p : list Z) (f : Z -> bool) : list Z :=
  match index_not f (length p) p 0 with
  | None => []
  | Some i => skipn i p
  end.

(** [lastIndexFunc(s, f, false)]: for i := len(s); i > 0; ... *)
Fixpoint last_index_not (f : Z -> bool) (fuel : nat) (p : list Z) (i : nat)
  : option nat :=
  match fuel, i with
  | _, O => None
  | O, S _ => None
  | S fuel', S _ =>
      let '(r, size) := DecodeLastRune (firstn i p) in
      let i' := (i - size)%nat in
      if negb (f r) then Some i' else last_index_not f fuel' p i'
  end.

Definition TrimRightFunc (p : list Z) (f : Z -> bool) : list Z :=
  match last_index_not f (length p) p (length p) with
  | None => []
  | Some i =>
      if RuneSelf <=? nth i p 0 then firstn (i + snd (DecodeRune (skipn i p))) p
      else firstn (i + 1) p
  end.

(** [strings.TrimSpace]: the ASCII fast path of the Go code drops the same
    leading and trailing bytes as [TrimFunc(s, unicode.IsSpace)], which is
    what is modelled here. *)
Definition trim_space_bytes (p : list Z) : list Z :=
  TrimRightFunc (TrimLeftFunc p IsSpace) IsSpace.

Definition TrimSpace (s : string) : string :=
  Bytes.to_string (trim_space_bytes (Bytes.of_string s)).

(** [strings.Map]: each rune (an invalid byte reads as [RuneError]) is
    replaced by the encoding of its image; negative images are dropped. *)
Fixpoint map_loop (mapping : Z -> Z) (fuel : nat) (p : list Z) : list Z :=
  match fuel, p with
  | _, [] => []
  | O, _ :: _ => []
  | S fuel', _ :: _ =>
      let '(c, size) := DecodeRune p in
      let r := mapping c in
      (if 0 <=? r then AppendRune r else []) ++ map_loop mapping fuel' (skipn size p)
  end.

Definition Map (mapping : Z -> Z) (p : list Z) : list Z :=
  map_loop mapping (length p) p.

(** [unicode.ToLower]: ASCII is handled inline, every other rune goes
    through the Unicode case tables, given here as [lower_table]. *)
Definition unicode_ToLower (lower_table : Z -> Z) (r : Z) : Z :=
  if r <=? 127 then (if (65 <=? r) && (r <=? 90) then r + 32 else r)
  else lower_table r.

(** [strings.ToLower]. *)
Definition ToLower (lower_table : Z -> Z) (s : string) : string :=
  let p := Bytes.of_string s in
  if forallb (fun c => c <? RuneSelf) p then
    Bytes.to_string (map (fun c => if (65 <=? c) && (c <=? 90) then c + 32 else c) p)
  else Bytes.to_string (Map (unicode_ToLower lower_table) p).

End GoStrings.

(** ** Provider selection, [internal/codegen/openai_service.go] *)
Module Codegen.

Definition ProviderGemini : string := "gemini".
Definition ProviderOpenAI : string := "openai".
Definition ProviderClaude : string := "claude".

Section Selection.
(** The Unicode lower-case table used by [unicode.ToLower] off ASCII. *)
Variable lower_table : Z -> Z.

(** [ProviderFromEnv], reading [os.Getenv("CODEGEN_PROVIDER")] =
    [env_value]. *)
Definition ProviderFromEnv (env_value : string) : string :=
  let provider := GoStrings.TrimSpace (GoStrings.ToLower lower_table env_value) in
  if String.eqb provider ProviderOpenAI || String.eqb provider ProviderClaude
     || String.eqb provider ProviderGemini
  then provider
  else ProviderGemini.

End Selection.

End Codegen.

(** ** Telemetry pipeline, [internal/querylog] *)
Module QueryLog.

(** [querylog.QueryLog]; times are Unix milliseconds. *)
Record QueryLog := mkQueryLog {
  ID : Z;
  UserID : Z;
  APIKeyID : option Z;
  Endpoint : string;
  Query : string;
  Response : string;
  ModelProvider : string;
  RAGContextsCount : Z;
  InputTokens : Z;
  OutputTokens : Z;
  LatencyMs : Z;
  Status : string;
  ErrorMessage : string;
  ConversationID : option Z;
  CreatedAt : Z
}.

(** A buffered Go channel: its capacity and the values buffered in it. *)
Record chan (A : Type) := mkChan { cap : nat; buf : list A }.
Arguments mkChan {A} cap buf.
Arguments cap {A} c.
Arguments buf {A} c.

(** [select { case ch <- v: ... default: }]: the send happens when the
    buffer has room, otherwise the [default] branch runs at once. *)
Definition try_send {A} (ch : chan A) (v : A) : chan A * bool :=
  if (length (buf ch) <? cap ch)%nat then (mkChan (cap ch) (buf ch ++ [v]), true)
  else (ch, false).

(** A receive of the background worker [processLogs]. *)
Definition recv {A} (ch : chan A) : option (A * chan A) :=
  match buf ch with
  | [] => None
  | v :: rest => Some (v, mkChan (cap ch) rest)
  end.

(** [querylog.Service]; the repository it writes to stays abstract. *)
Record Service (Repo : Type) := mkService { repo : Repo; logChan : chan QueryLog }.
Arguments mkService {Repo} repo logChan.
Arguments repo {Repo} s.
Arguments logChan {Repo} s.

Section Pipeline.
Variable Repo : Type.

(** [NewService]: a channel of capacity 1000; [go s.processLogs()] starts
    the worker, whose receives are the [recv] steps below. *)
Definition NewService (r : Repo) : Service Repo :=
  mkService r (mkChan 1000 []).

(** [LogAsync]. *)
Definition LogAsync (s : Service Repo) (log : QueryLog) : Service Repo :=
  let '(ch, _) := try_send (logChan s) log in
  mkService (repo s) ch.

(** One iteration of [processLogs]: take the oldest entry off the queue
    (its persistence is best effort and does not touch the queue). *)
Definition worker_step (s : Service Repo) : option (QueryLog * Service Repo) :=
  match recv (logChan s) with
  | None => None
  | Some (e, ch) => Some (e, mkService (repo s) ch)
  end.

(** The states a service reaches from [NewService] through producers'
    [LogAsync] calls and the worker's receives. *)
Inductive reachable : Service Repo -> Prop :=
| reach_new r : reachable (NewService r)
| reach_log s e : reachable s -> reachable (LogAsync s e)
| reach_worker s e s' : reachable s -> worker_step s = Some (e, s') -> reachable s'.

End Pipeline.

End QueryLog.

(** ** The gin request context *)
Module Gin.

(** Dynamically typed values stored with [c.Set]. *)
Inductive any :=
| AInt (v : Z)
| AInt64 (v : Z)
| AInt32 (v : Z)
| AFloat64 (v : Z)
| AString (v : string)
| AOther.

(** The context's keys, most recent [c.Set] first. *)
Definition keys := list (string * any).

Definition Set_ (k : string) (v : any) (c : keys) : keys := (k, v) :: c.

Fixpoint Get (c : keys) (k : string) : option any :=
  match c with
  | [] => None
  | (k', v) :: rest => if String.eqb k k' then Some v else Get rest k
  end.

End Gin.

(** ** Query-log middleware ([internal/api/middleware], query log) *)
Module QueryLogMiddleware.
Import QueryLog Gin.
Local Open Scope string_scope.
Local Open Scope Z_scope.

Definition QueryLogModelProvider : string := "querylog_model_provider".
Definition QueryLogInputTokens : string := "querylog_input_tokens".
Definition QueryLogOutputTokens : string := "querylog_output_tokens".
Definition QueryLogRAGContextsCount : string := "querylog_rag_contexts_count".
Definition QueryLogConversationID : string := "querylog_conversation_id".
Definition QueryLogErrorMessage : string := "querylog_error_message".

Definition isTrackedEndpoint (path : string) (tracked : list string) : bool :=
  existsb (String.eqb path) tracked.

Definition extractQuery (body : string) : string := GoStrings.TrimSpace body.

(** [truncateResponse]: [len] and slicing count bytes. *)
Definition truncateResponse (val : string) (maxLen : Z) : string :=
  if maxLen <=? 0 then ""
  else if Z.of_nat (String.length val) <=? maxLen then val
  else substring 0 (Z.to_nat maxLen) val.

Definition getStatus (code : Z) : string :=
  if (200 <=? code) && (code <? 400) then "success" else "error".

Definition toInt64 (v : any) : option Z :=
  match v with
  | AInt64 x | AInt x | AInt32 x => Some x
  | _ => None
  end.

Definition toInt (v : any) : option Z :=
  match v with
  | AInt x | AInt32 x | AInt64 x => Some x
  | _ => None
  end.

(** The request as the middleware sees it. *)
Record Request := mkRequest {
  FullPath : string;
  URLPath : string;
  Body : string
}.

(** What the rest of the chain ([c.Next()]) leaves behind: the context
    keys set by the auth middleware and the handler, the bytes written to
    the response, the status, and the clock readings. *)
Record Outcome := mkOutcome {
  ctx_keys : keys;
  written : string;
  status : Z;
  latency_ms : Z;
  now : Z
}.

(** The middleware's observable effects, in order. *)
Inductive effect :=
| LogPrintf (msg : string)
| CallLogAsync (entry : QueryLog).

(** [if v, ok := c.Get(k); ok { if x, ok := conv(v); ok { set x } }] *)
Definition get_conv {T U} (c : keys) (k : string) (conv : any -> option T)
  (default : U) (set : T -> U) : U :=
  match Get c k with
  | Some v => match conv v with Some x => set x | None => default end
  | None => default
  end.

Definition QueryLogMiddleware (tracked : list string) (req : Request)
  (out : Outcome) : list effect :=
  let path := if String.eqb (FullPath req) "" then URLPath req else FullPath req in
  if negb (isTrackedEndpoint path tracked) then [] else
  let c := ctx_keys out in
  let e0 := {| ID := 0; UserID := 0; APIKeyID := None; Endpoint := path;
               Query := extractQuery (Body req);
               Response := truncateResponse (written out) 10000;
               ModelProvider := ""; RAGContextsCount := 0; InputTokens := 0;
               OutputTokens := 0; LatencyMs := latency_ms out;
               Status := getStatus (status out); ErrorMessage := "";
               ConversationID := None; CreatedAt := now out |} in
  let uid := get_conv c "user_id" toInt64 0 (fun x => x) in
  let keyid := get_conv c "api_key_id" toInt64 None Some in
  let provider := get_conv c QueryLogModelProvider
                    (fun v => match v with AString s => Some s | _ => None end)
                    "" (fun x => x) in
  let intok := get_conv c QueryLogInputTokens toInt 0 (fun x => x) in
  let outtok := get_conv c QueryLogOutputTokens toInt 0 (fun x => x) in
  let rag := get_conv c QueryLogRAGContextsCount toInt 0 (fun x => x) in
  let conv := get_conv c QueryLogConversationID toInt64 None Some in
  let errmsg := get_conv c QueryLogErrorMessage
                  (fun v => match v with AString s => Some s | _ => None end)
                  "" (fun x => x) in
  let e := {| ID := ID e0; UserID := uid; APIKeyID := keyid; Endpoint := Endpoint e0;
              Query := Query e0; Response := Response e0; ModelProvider := provider;
              RAGContextsCount := rag; InputTokens := intok; OutputTokens := outtok;
              LatencyMs := LatencyMs e0; Status := Status e0; ErrorMessage := errmsg;
              ConversationID := conv; CreatedAt := CreatedAt e0 |} in
  if UserID e =? 0 then
    [LogPrintf ("querylog: skipping entry for " ++ path ++ ", no user_id in context")]
  else [CallLogAsync e].

End QueryLogMiddleware.

(** ** Retrieval bridge, [internal/rag] *)
Module Rag.
Local Open Scope string_scope.
Local Open Scope Z_scope.

(** [RAGRequest], the JSON object written to the script's stdin. *)
Record RAGRequest := mkRAGRequest {
  Query : string;
  NResults : Z;
  DocsResults : Z
}.

(** [RAGResponse], the JSON object read from its stdout; distances are
    kept abstract. *)
Record RAGResponse := mkRAGResponse {
  CodeContexts : list string;
  DocsContexts : list string;
  FormattedContext : string;
  Warning : string;
  Error : string
}.

Section Bridge.
(** The subprocess round trip of [PythonClient.Retrieve]: marshal the
    request, run the script under the client's timeout, and parse its
    output. A timeout, a non-zero exit or unparsable output is an [Err]. *)
Variable run_script : RAGRequest -> result RAGResponse.

(** [PythonClient.Retrieve] up to the subprocess: input checks, clamping and
    the request it writes. *)
Definition retrieve_request (query : string) (nResults : Z) : result RAGRequest :=
  if String.eqb query "" then Err "query cannot be empty" else
  let nResults := if (nResults <? 1) || (10 <? nResults) then 10 else nResults in
  Ok {| Query := query; NResults := nResults; DocsResults := nResults |}.

(** The end of [PythonClient.Retrieve]: an [error] field in a well-formed
    response is a failure. *)
Definition finish (out : result RAGResponse) : result RAGResponse :=
  match out with
  | Err e => Err e
  | Ok response =>
      if negb (String.eqb (Error response) "")
      then Err ("python script returned error: " ++ Error response)
      else Ok response
  end.

(** [PythonClient.Retrieve]. *)
Definition Retrieve (query : string) (nResults : Z) : result RAGResponse :=
  match retrieve_request query nResults with
  | Err e => Err e
  | Ok request => finish (run_script request)
  end.

(** The range check at the top of [Service.RetrieveContext]. *)
Definition check_n_results (nResults : Z) : result Z :=
  let nResults := if nResults =? 0 then 5 else nResults in
  if (nResults <? 1) || (20 <? nResults)
  then Err "n_results must be between 1 and 20"
  else Ok nResults.

(** [Service.RetrieveContext], the service entrypoint. *)
Definition RetrieveContext (query : string) (nResults : Z) : result RAGResponse :=
  match check_n_results nResults with
  | Err e => Err e
  | Ok n => Retrieve query n
  end.

End Bridge.

(** The request the retriever subprocess receives when the service
    entrypoint is called with [nResults]: [None] when nothing reaches it. *)
Definition subprocess_request (query : string) (nResults : Z) : option RAGRequest :=
  match check_n_results nResults with
  | Err _ => None
  | Ok n =>
      match retrieve_request query n with
      | Ok r => Some r
      | Err _ => None
      end
  end.

End Rag.

(** ** Credential store, [internal/auth/service.go], and the API-key
    middleware, [internal/api/middleware/auth.go] *)
Module Auth.
Local Open Scope string_scope.
Local Open Scope Z_scope.

Definition RoleAdmin : string := "admin".
Definition RoleUser : string := "user".

Module User.
(** A row of [users] / [auth.User]. *)
Record t := mk {
  ID : Z;
  Username : string;
  PasswordHash : string;
  Email : option string;
  CreatedAt : Z;
  IsActive : bool;
  Role : string
}.
End User.

Module APIKey.
(** A row of [api_keys] / [auth.APIKey]. *)
Record t := mk {
  ID : Z;
  UserID : Z;
  APIKeyHash : string;
  APIKeyPrefix : string;
  Name : string;
  CreatedAt : Z;
  LastUsedAt : option Z;
  ExpiresAt : option Z;
  IsActive : bool
}.
End APIKey.

(** [auth.APIKeyListItem]. *)
Record APIKeyListItem := mkItem {
  item_ID : Z;
  item_Name : string;
  item_Prefix : string;
  item_CreatedAt : Z;
  item_LastUsedAt : option Z;
  item_IsActive : bool
}.

(** The SQLite database: the two tables in rowid order, and [fault], a
    failure of the connection that every statement then returns. *)
Record DB := mkDB {
  users : list User.t;
  api_keys : list APIKey.t;
  fault : option string
}.

Definition with_api_keys (db : DB) (ks : list APIKey.t) : DB :=
  mkDB (users db) ks (fault db).

Definition set_last_used (now : Z) (k : APIKey.t) : APIKey.t :=
  APIKey.mk (APIKey.ID k) (APIKey.UserID k) (APIKey.APIKeyHash k)
    (APIKey.APIKeyPrefix k) (APIKey.Name k) (APIKey.CreatedAt k) (Some now)
    (APIKey.ExpiresAt k) (APIKey.IsActive k).

Definition set_inactive (k : APIKey.t) : APIKey.t :=
  APIKey.mk (APIKey.ID k) (APIKey.UserID k) (APIKey.APIKeyHash k)
    (APIKey.APIKeyPrefix k) (APIKey.Name k) (APIKey.CreatedAt k)
    (APIKey.LastUsedAt k) (APIKey.ExpiresAt k) false.

(** [UPDATE api_keys SET ... WHERE p]: the new table and the number of rows
    the statement matched. SQLite's [changes()], which [RowsAffected]
    returns, counts every row the [UPDATE] matched, also those whose value
    was already the new one. *)
Definition update_where (p : APIKey.t -> bool) (f : APIKey.t -> APIKey.t)
  (ks : list APIKey.t) : list APIKey.t * nat :=
  (map (fun k => if p k then f k else k) ks, length (filter p ks)).

Section Credentials.
(** [bcrypt.CompareHashAndPassword(hash, password) == nil]. *)
Variable CompareHashAndPassword : string -> string -> bool.
(** [HashAPIKey]: hex-encoded SHA-256 of the key, computed the same way
    inline in [APIKeyAuth]. *)
Variable HashAPIKey : string -> string.

(** [AuthenticateUser]. *)
Definition AuthenticateUser (db : DB) (username password : string) : result User.t :=
  match fault db with
  | Some e => Err e
  | None =>
      (* WHERE username = ? AND is_active = 1 *)
      match find (fun u => String.eqb (User.Username u) username && User.IsActive u)
                 (users db) with
      | None => Err "invalid username or password"
      | Some u =>
          if negb (CompareHashAndPassword (User.PasswordHash u) password)
          then Err "invalid username or password"
          else Ok (User.mk (User.ID u) (User.Username u) "" (User.Email u)
                           (User.CreatedAt u) (User.IsActive u) (User.Role u))
      end
  end.

(** [ValidateAPIKey] at time [now]: the result and the database after the
    [last_used_at] update. *)
Definition ValidateAPIKey (db : DB) (now : Z) (apiKey : string) : result Z * DB :=
  let keyHash := HashAPIKey apiKey in
  match fault db with
  | Some e => (Err e, db)
  | None =>
      match find (fun k => String.eqb (APIKey.APIKeyHash k) keyHash) (api_keys db) with
      | None => (Err "invalid API key", db)
      | Some k =>
          if negb (APIKey.IsActive k) then (Err "API key has been revoked", db)
          else if match APIKey.ExpiresAt k with Some t => t <? now | None => false end
          then (Err "API key has expired", db)
          else
            let '(ks, _) := update_where
                              (fun k' => String.eqb (APIKey.APIKeyHash k') keyHash)
                              (set_last_used now) (api_keys db) in
            (Ok (APIKey.UserID k), with_api_keys db ks)
      end
  end.

(** [RevokeAPIKey]. *)
Definition RevokeAPIKey (db : DB) (userID keyID : Z) : result unit * DB :=
  match fault db with
  | Some e => (Err e, db)
  | None =>
      let '(ks, rowsAffected) :=
        update_where (fun k => (APIKey.ID k =? keyID) && (APIKey.UserID k =? userID))
                     set_inactive (api_keys db) in
      let db' := with_api_keys db ks in
      if (rowsAffected =? 0)%nat
      then (Err "API key not found or not owned by user", db')
      else (Ok tt, db')
  end.

(** [ORDER BY created_at DESC]: an insertion sort (SQLite leaves the order
    of equal [created_at] unspecified; this one keeps rowid order). *)
Fixpoint insert_desc (k : APIKey.t) (ks : list APIKey.t) : list APIKey.t :=
  match ks with
  | [] => [k]
  | k' :: rest =>
      if APIKey.CreatedAt k' <=? APIKey.CreatedAt k then k :: ks
      else k' :: insert_desc k rest
  end.

Definition order_by_created_desc (ks : list APIKey.t) : list APIKey.t :=
  fold_right insert_desc [] ks.

Definition to_item (k : APIKey.t) : APIKeyListItem :=
  mkItem (APIKey.ID k) (APIKey.Name k) (APIKey.APIKeyPrefix k)
    (APIKey.CreatedAt k) (APIKey.LastUsedAt k) (APIKey.IsActive k).

(** [GetUserAPIKeys]. *)
Definition GetUserAPIKeys (db : DB) (userID : Z) : result (list APIKeyListItem) :=
  match fault db with
  | Some e => Err e
  | None =>
      let rows := filter (fun k => (APIKey.UserID k =? userID) && APIKey.IsActive k)
                         (api_keys db) in
      Ok (map to_item (order_by_created_desc rows))
  end.

(** [GetAPIKeyPrefix]. *)
Definition GetAPIKeyPrefix (apiKey : string) : string :=
  if (String.length apiKey <? 8)%nat then apiKey else substring 0 8 apiKey.

(** [CreateAPIKey] at time [now]; [generated] are the keys successive calls
    of [GenerateAPIKey] return (running out of them is its error), and
    [format_now] is [time.Now().Format("2006-01-02 15:04")]. The new row's
    id is the next AUTOINCREMENT value; no row of [api_keys] is ever deleted,
    so it exceeds every id in the table. *)
Definition CreateAPIKey (db : DB) (now : Z) (format_now : string)
  (generated : list string) (userID : Z) (name : string)
  : result (Z * string) * DB :=
  match fault db with
  | Some e => (Err e, db)
  | None =>
      let exists_hash h :=
        existsb (fun k => String.eqb (APIKey.APIKeyHash k) h) (api_keys db) in
      (* for attempt := 0; attempt < 10; attempt++ *)
      let fix attempt (n : nat) (gen : list string) : result string :=
        match n, gen with
        | O, _ => Err "failed to generate unique API key"
        | S _, [] => Err "failed to generate API key"
        | S n', apiKey :: gen' =>
            if negb (exists_hash (HashAPIKey apiKey)) then Ok apiKey
            else attempt n' gen'
        end in
      match attempt 10%nat generated with
      | Err e => (Err e, db)
      | Ok apiKey =>
          let name := if String.eqb name "" then "API Key " ++ format_now else name in
          let keyID := 1 + fold_right Z.max 0 (map APIKey.ID (api_keys db)) in
          let row := APIKey.mk keyID userID (HashAPIKey apiKey)
                       (GetAPIKeyPrefix apiKey) name now None None true in
          (Ok (keyID, apiKey), with_api_keys db (api_keys db ++ [row]))
      end
  end.

(** The outcome of a gin middleware: [c.Abort()] with a status and an
    error message, or [c.Next()] with the keys it set on the context. *)
Inductive mw_outcome :=
| Abort (status : Z) (error : string)
| Next (set : Gin.keys).

(** [APIKeyAuth] at time [now], given the [x-api-key] header. *)
Definition APIKeyAuth (db : DB) (now : Z) (apiKey : string) : mw_outcome * DB :=
  if String.eqb apiKey "" then (Abort 401 "API key required", db) else
  let keyHash := HashAPIKey apiKey in
  match fault db with
  | Some _ => (Abort 500 "Database error", db)
  | None =>
      (* SELECT id, user_id, expires_at FROM api_keys WHERE api_key_hash = ? *)
      match find (fun k => String.eqb (APIKey.APIKeyHash k) keyHash) (api_keys db) with
      | None => (Abort 401 "Invalid API key", db)
      | Some k =>
          if match APIKey.ExpiresAt k with Some t => t <? now | None => false end
          then (Abort 401 "API key expired", db)
          else
            let '(ks, _) := update_where (fun k' => APIKey.ID k' =? APIKey.ID k)
                              (set_last_used now) (api_keys db) in
            (Next (Gin.Set_ "api_key_id" (Gin.AInt (APIKey.ID k))
                     (Gin.Set_ "user_id" (Gin.AInt (APIKey.UserID k)) [])),
             with_api_keys db ks)
      end
  end.

End Credentials.

End Auth.

(** ** Package [encoding/json], as far as [[]Turn] needs it *)
Module GoJSON.
Import Utf8.

Definition hex (d : Z) : Z := nth (Z.to_nat d) (Bytes.of_string "0123456789abcdef") 0.

(** [htmlSafeSet] on ASCII bytes. *)
Definition htmlSafe (b : Z) : bool :=
  (32 <=? b) && negb ((b =? 34) || (b =? 92) || (b =? 60) || (b =? 62) || (b =? 38)).

(** The escape [appendString] writes for an ASCII byte (escapeHTML on, as
    [json.Marshal] has it). *)
Definition escape_ascii (b : Z) : list Z :=
  if htmlSafe b then [b]
  else if (b =? 92) || (b =? 34) then [92; b]
  else if b =? 8 then [92; 98]
  else if b =? 12 then [92; 102]
  else if b =? 10 then [92; 110]
  else if b =? 13 then [92; 114]
  else if b =? 9 then [92; 116]
  else [92; 117; 48; 48; hex (Z.shiftr b 4); hex (Z.land b 15)].

(** The body of [appendString]: invalid UTF-8 becomes [�], U+2028 and
    U+2029 are escaped, other runes are copied. *)
Fixpoint append_string_loop (fuel : nat) (src : list Z) : list Z :=
  match fuel, src with
  | _, [] => []
  | O, _ :: _ => []
  | S f, b :: rest =>
      if b <? RuneSelf then escape_ascii b ++ append_string_loop f rest
      else
        let '(c, size) := DecodeRune src in
        if (c =? RuneError) && (size =? 1)%nat then
          [92; 117; 102; 102; 102; 100] ++ append_string_loop f (skipn size src)
        else if (c =? 8232) || (c =? 8233) then
          [92; 117; 50; 48; 50; hex (Z.land c 15)] ++ append_string_loop f (skipn size src)
        else firstn size src ++ append_string_loop f (skipn size src)
  end.

(** [appendString(dst, src, true)] for a whole string. *)
Definition encode_string (src : list Z) : list Z :=
  [34] ++ append_string_loop (length src) src ++ [34].

Local Set Warnings "-register-all".

(** JSON values as the decoder reads them; strings are already unquoted. *)
Inductive jvalue :=
| JNull
| JBool (b : bool)
| JNumber (lit : list Z)
| JString (s : list Z)
| JArray (vs : list jvalue)
| JObject (kvs : list (list Z * jvalue)).

Definition isSpace (b : Z) : bool := (b =? 32) || (b =? 9) || (b =? 10) || (b =? 13).

Fixpoint skip_ws (s : list Z) : list Z :=
  match s with
  | [] => []
  | b :: rest => if isSpace b then skip_ws rest else s
  end.

Definition is_hex (b : Z) : bool :=
  ((48 <=? b) && (b <=? 57)) || ((97 <=? b) && (b <=? 102)) || ((65 <=? b) && (b <=? 70)).

Definition is_digit (b : Z) : bool := (48 <=? b) && (b <=? 57).

(** The scanner on a string literal, after its opening quote: the raw
    bytes up to the closing quote and what follows it. *)
Fixpoint scan_string (s : list Z) : option (list Z * list Z) :=
  match s with
  | [] => None
  | b :: rest =>
      if b =? 34 then Some ([], rest)
      else if b =? 92 then
        match rest with
        | [] => None
        | c :: rest2 =>
            if (c =? 34) || (c =? 92) || (c =? 47) || (c =? 98) || (c =? 102)
               || (c =? 110) || (c =? 114) || (c =? 116) then
              match scan_string rest2 with
              | Some (raw, r) => Some (b :: c :: raw, r)
              | None => None
              end
            else if c =? 117 then
              match rest2 with
              | h1 :: h2 :: h3 :: h4 :: rest3 =>
                  if is_hex h1 && is_hex h2 && is_hex h3 && is_hex h4 then
                    match scan_string rest3 with
                    | Some (raw, r) => Some (b :: c :: h1 :: h2 :: h3 :: h4 :: raw, r)
                    | None => None
                    end
                  else None
              | _ => None
              end
            else None
        end
      else if b <? 32 then None
      else
        match scan_string rest with
        | Some (raw, r) => Some (b :: raw, r)
        | None => None
        end
  end.

Definition hex_val (c : Z) : Z :=
  if (48 <=? c) && (c <=? 57) then c - 48
  else if (97 <=? c) && (c <=? 102) then c - 97 + 10
  else if (65 <=? c) && (c <=? 70) then c - 65 + 10
  else -1.

(** [getu4]: the value of a leading [\uXXXX], or -1. *)
Definition getu4 (s : list Z) : Z :=
  match s with
  | b :: u :: h1 :: h2 :: h3 :: h4 :: _ =>
      if negb ((b =? 92) && (u =? 117)) then -1
      else if is_hex h1 && is_hex h2 && is_hex h3 && is_hex h4 then
        ((hex_val h1 * 16 + hex_val h2) * 16 + hex_val h3) * 16 + hex_val h4
      else -1
  | _ => -1
  end.

(** [utf16.IsSurrogate] and [utf16.DecodeRune]. *)
Definition IsSurrogate (r : Z) : bool := (55296 <=? r) && (r <? 57344).

Definition utf16_DecodeRune (r1 r2 : Z) : Z :=
  if (55296 <=? r1) && (r1 <? 56320) && (56320 <=? r2) && (r2 <? 57344)
  then Z.lor (Z.shiftl (r1 - 55296) 10) (r2 - 56320) + 65536
  else 65533.

(** [unquoteBytes] on the raw bytes of a scanned literal. *)
Fixpoint unquote_loop (fuel : nat) (s : list Z) : list Z :=
  match fuel, s with
  | _, [] => []
  | O, _ :: _ => []
  | S f, c :: rest =>
      if c =? 92 then
        match rest with
        | [] => []
        | e :: rest2 =>
            if (e =? 34) || (e =? 92) || (e =? 47) then e :: unquote_loop f rest2
            else if e =? 98 then 8 :: unquote_loop f rest2
            else if e =? 102 then 12 :: unquote_loop f rest2
            else if e =? 110 then 10 :: unquote_loop f rest2
            else if e =? 114 then 13 :: unquote_loop f rest2
            else if e =? 116 then 9 :: unquote_loop f rest2
            else if e =? 117 then
              let rr := getu4 s in
              if rr <? 0 then [] else
              let s6 := skipn 6 s in
              if IsSurrogate rr then
                let dec := utf16_DecodeRune rr (getu4 s6) in
                if negb (dec =? 65533) then AppendRune dec ++ unquote_loop f (skipn 6 s6)
                else AppendRune 65533 ++ unquote_loop f s6
              else AppendRune rr ++ unquote_loop f s6
            else []
        end
      else if c <? RuneSelf then c :: unquote_loop f rest
      else
        let '(rr, size) := DecodeRune s in
        AppendRune rr ++ unquote_loop f (skipn size s)
  end.

Definition unquote (raw : list Z) : list Z := unquote_loop (length raw) raw.

(** Digits of a number literal. *)
Fixpoint scan_digits (s : list Z) : list Z * list Z :=
  match s with
  | b :: rest =>
      if is_digit b then let '(ds, r) := scan_digits rest in (b :: ds, r) else ([], s)
  | [] => ([], [])
  end.

(** [-? (0 | [1-9][0-9]* ) (. [0-9]+)? ([eE] [+-]? [0-9]+)?] *)
Definition scan_number (s : list Z) : option (list Z * list Z) :=
  let '(sign, s1) := match s with
                     | b :: r => if b =? 45 then ([b], r) else ([], s)
                     | [] => ([], [])
                     end in
  let int_part :=
    match s1 with
    | b :: r =>
        if b =? 48 then Some ([b], r)
        else if (49 <=? b) && (b <=? 57) then
          let '(ds, r') := scan_digits r in Some (b :: ds, r')
        else None
    | [] => None
    end in
  match int_part with
  | None => None
  | Some (ip, s2) =>
      let frac :=
        match s2 with
        | b :: r =>
            if b =? 46 then
              let '(ds, r') := scan_digits r in
              match ds with [] => None | _ => Some (b :: ds, r') end
            else Some ([], s2)
        | [] => Some ([], [])
        end in
      match frac with
      | None => None
      | Some (fp, s3) =>
          let exp :=
            match s3 with
            | b :: r =>
                if (b =? 101) || (b =? 69) then
                  let '(sg, r1) := match r with
                                   | c :: r' => if (c =? 43) || (c =? 45) then ([c], r') else ([], r)
                                   | [] => ([], [])
                                   end in
                  let '(ds, r2) := scan_digits r1 in
                  match ds with [] => None | _ => Some (b :: sg ++ ds, r2) end
                else Some ([], s3)
            | [] => Some ([], [])
            end in
          match exp with
          | None => None
          | Some (ep, s4) => Some (sign ++ ip ++ fp ++ ep, s4)
          end
      end
  end.

Fixpoint is_prefix (p s : list Z) : bool :=
  match p, s with
  | [], _ => true
  | a :: p', b :: s' => (a =? b) && is_prefix p' s'
  | _ :: _, [] => false
  end.

(** The scanner and decoder on one value: the value and the rest of the
    input. Two nested calls consume at least one byte. *)
Fixpoint parse_value (fuel : nat) (s : list Z) : option (jvalue * list Z) :=
  match fuel with
  | O => None
  | S f =>
      match skip_ws s with
      | [] => None
      | b :: rest =>
          if b =? 123 then
            match skip_ws rest with
            | c :: rest' => if c =? 125 then Some (JObject [], rest')
                            else parse_members f (skip_ws rest) []
            | [] => None
            end
          else if b =? 91 then
            match skip_ws rest with
            | c :: rest' => if c =? 93 then Some (JArray [], rest')
                            else parse_elems f (skip_ws rest) []
            | [] => None
            end
          else if b =? 34 then
            match scan_string rest with
            | Some (raw, rest') => Some (JString (unquote raw), rest')
            | None => None
            end
          else if b =? 116 then
            if is_prefix [114; 117; 101] rest then Some (JBool true, skipn 3 rest) else None
          else if b =? 102 then
            if is_prefix [97; 108; 115; 101] rest then Some (JBool false, skipn 4 rest) else None
          else if b =? 110 then
            if is_prefix [117; 108; 108] rest then Some (JNull, skipn 3 rest) else None
          else
            match scan_number (b :: rest) with
            | Some (lit, rest') => Some (JNumber lit, rest')
            | None => None
            end
      end
  end
with parse_elems (fuel : nat) (s : list Z) (acc : list jvalue) : option (jvalue * list Z) :=
  match fuel with
  | O => None
  | S f =>
      match parse_value f s with
      | None => None
      | Some (v, rest) =>
          match skip_ws rest with
          | c :: rest' =>
              if c =? 44 then parse_elems f rest' (acc ++ [v])
              else if c =? 93 then Some (JArray (acc ++ [v]), rest')
              else None
          | [] => None
          end
      end
  end
with parse_members (fuel : nat) (s : list Z) (acc : list (list Z * jvalue))
  : option (jvalue * list Z) :=
  match fuel with
  | O => None
  | S f =>
      match skip_ws s with
      | q :: rest =>
          if negb (q =? 34) then None else
          match scan_string rest with
          | None => None
          | Some (rawkey, rest1) =>
              match skip_ws rest1 with
              | col :: rest2 =>
                  if negb (col =? 58) then None else
                  match parse_value f rest2 with
                  | None => None
                  | Some (v, rest3) =>
                      let acc' := acc ++ [(unquote rawkey, v)] in
                      match skip_ws rest3 with
                      | c :: rest4 =>
                          if c =? 44 then parse_members f rest4 acc'
                          else if c =? 125 then Some (JObject acc', rest4)
                          else None
                      | [] => None
                      end
                  end
              | [] => None
              end
          end
      | [] => None
      end
  end.

(** [checkValid] and the value it accepts: one value, then only
    whitespace. *)
Definition parse_document (data : list Z) : option jvalue :=
  match parse_value (2 * length data + 2) data with
  | Some (v, rest) => match skip_ws rest with [] => Some v | _ => None end
  | None => None
  end.

End GoJSON.

(** ** Conversation state, [internal/conversation/conversation.go] *)
Module Conversation.
Import GoJSON.
Local Open Scope string_scope.
Local Open Scope Z_scope.
Local Open Scope list_scope.

(** [Turn]. *)
Record Turn := mkTurn { Role : string; Content : string }.

(** A Go slice: [None] is the nil slice, [Some l] a non-nil one. *)
Definition slice (A : Type) := option (list A).

Definition elems {A} (s : slice A) : list A :=
  match s with None => [] | Some l => l end.

(** [append(s, x)]. *)
Definition append {A} (s : slice A) (x : A) : slice A := Some (elems s ++ [x]).

(** [Conversation]. *)
Record Conversation := mkConversation {
  ID : Z;
  UserID : Z;
  History : slice Turn;
  NewMessage : string;
  CreatedAt : Z;
  UpdatedAt : Z
}.

(** [New]. *)
Definition New (userID : Z) : Conversation :=
  mkConversation 0 userID (Some []) "" 0 0.

(** [AddTurn]. *)
Definition AddTurn (c : Conversation) (role content : string) : Conversation :=
  mkConversation (ID c) (UserID c) (append (History c) (mkTurn role content))
    (NewMessage c) (CreatedAt c) (UpdatedAt c).

(** [json.Marshal] of a [Turn]: the fields in declaration order under
    their tags. *)
Definition field_name (tag : string) : list Z := [34] ++ Bytes.of_string tag ++ [34; 58].

Definition encode_turn (t : Turn) : list Z :=
  [123] ++ field_name "role" ++ encode_string (Bytes.of_string (Role t))
  ++ [44] ++ field_name "content" ++ encode_string (Bytes.of_string (Content t))
  ++ [125].

Fixpoint join_elems (es : list (list Z)) : list Z :=
  match es with
  | [] => []
  | [e] => e
  | e :: rest => e ++ [44] ++ join_elems rest
  end.

(** [json.Marshal] of a [[]Turn]: a nil slice is [null]. *)
Definition marshal_turns (h : slice Turn) : list Z :=
  match h with
  | None => Bytes.of_string "null"
  | Some ts => [91] ++ join_elems (map encode_turn ts) ++ [93]
  end.

(** [SerializeHistory]; [json.Marshal] cannot fail on a [[]Turn]. *)
Definition SerializeHistory (c : Conversation) : result string :=
  Ok (Bytes.to_string (marshal_turns (History c))).

(** Field lookup of the decoder: the exact name, else the case-folded one.
    The runes that fold onto ASCII letters (K, S and I) occur in neither
    [role] nor [content], so for these two fields the fold is ASCII case
    folding. *)
Definition fold_upper (b : Z) : Z := if (97 <=? b) && (b <=? 122) then b - 32 else b.

Definition key_matches (key : list Z) (tag : string) : bool :=
  let t := Bytes.of_string tag in
  (length key =? length t)%nat
  && forallb (fun '(a, b) => fold_upper a =? fold_upper b) (combine key t).

(** Decoding one member into a [Turn]: a string sets the field, [null]
    leaves it, another value is an [UnmarshalTypeError]; unknown members are
    skipped. *)
Definition decode_field (t : Turn) (key : list Z) (v : jvalue) : result Turn :=
  if key_matches key "role" then
    match v with
    | JString s => Ok (mkTurn (Bytes.to_string s) (Content t))
    | JNull => Ok t
    | _ => Err "json: cannot unmarshal into Go struct field Turn.role of type string"
    end
  else if key_matches key "content" then
    match v with
    | JString s => Ok (mkTurn (Role t) (Bytes.to_string s))
    | JNull => Ok t
    | _ => Err "json: cannot unmarshal into Go struct field Turn.content of type string"
    end
  else Ok t.

Fixpoint decode_members (t : Turn) (kvs : list (list Z * jvalue)) : result Turn :=
  match kvs with
  | [] => Ok t
  | (k, v) :: rest =>
      match decode_field t k v with
      | Ok t' => decode_members t' rest
      | Err e => Err e
      end
  end.

(** An array element is decoded into a zero [Turn]; [null] leaves it. *)
Definition decode_turn (v : jvalue) : result Turn :=
  match v with
  | JNull => Ok (mkTurn "" "")
  | JObject kvs => decode_members (mkTurn "" "") kvs
  | _ => Err "json: cannot unmarshal into Go value of type conversation.Turn"
  end.

Fixpoint decode_turn_list (vs : list jvalue) : result (list Turn) :=
  match vs with
  | [] => Ok []
  | v :: rest =>
      match decode_turn v, decode_turn_list rest with
      | Ok t, Ok ts => Ok (t :: ts)
      | Err e, _ => Err e
      | _, Err e => Err e
      end
  end.

(** [json.Unmarshal(data, &turns)] with [turns] a nil [[]Turn]. *)
Definition unmarshal_turns (data : list Z) : result (slice Turn) :=
  match parse_document data with
  | None => Err "json: syntax error"
  | Some JNull => Ok None
  | Some (JArray vs) =>
      match decode_turn_list vs with
      | Ok ts => Ok (Some ts)
      | Err e => Err e
      end
  | Some _ => Err "json: cannot unmarshal into Go value of type []conversation.Turn"
  end.

(** [DeserializeHistory]. *)
Definition DeserializeHistory (history : string) : result (slice Turn) :=
  match GoStrings.trim_space_bytes (Bytes.of_string history) with
  | [] => Ok (Some [])
  | _ =>
      match unmarshal_turns (Bytes.of_string history) with
      | Ok turns => Ok turns
      | Err e => Err ("unmarshal history: " ++ e)%string
      end
  end.

End Conversation.

(** ** Chat completions, [internal/api/handlers/chat.go] *)
Module Chat.
Import Conversation.
Local Open Scope string_scope.
Local Open Scope Z_scope.

(** [ChatMessage]. *)
Record ChatMessage := mkChatMessage { msg_Role : string; msg_Content : string }.

(** [ChatCompletionRequest], after [ShouldBindJSON]; floating-point
    temperatures are kept abstract. *)
Record ChatCompletionRequest (Float : Type) := mkChatCompletionRequest {
  Model : string;
  Messages : list ChatMessage;
  Temperature : Float;
  MaxTokens : Z;
  req_ConversationID : option Z
}.
Arguments Model {Float}.
Arguments Messages {Float}.
Arguments Temperature {Float}.
Arguments MaxTokens {Float}.
Arguments req_ConversationID {Float}.

(** [codegen.CodeGenerationResponse] with the token counts providers add. *)
Record CodeGenerationResponse := mkCodeGenerationResponse {
  Code : string;
  Explanation : string;
  InputTokens : Z;
  OutputTokens : Z
}.

Record ChatCompletionChoice := mkChoice {
  Index : Z;
  Message : ChatMessage;
  FinishReason : string
}.

Record ChatCompletionUsage := mkUsage {
  PromptTokens : Z;
  CompletionTokens : Z;
  TotalTokens : Z
}.

(** [ChatCompletionResponse]. *)
Record ChatCompletionResponse := mkResponse {
  resp_ID : string;
  Object : string;
  Created : Z;
  resp_Model : string;
  Choices : list ChatCompletionChoice;
  Usage : ChatCompletionUsage;
  resp_ConversationID : Z
}.

(** The HTTP reply: an error status with its [error] string, or 200 with
    the completion. *)
Inductive reply :=
| ReplyError (status : Z) (error : string)
| ReplyOK (resp : ChatCompletionResponse).

(** [estimateTokens]. *)
Definition estimateTokens (text : string) : Z := Z.of_nat (String.length text) / 4.

(** [extractUserID]. *)
Definition extractUserID (c : Gin.keys) : option Z :=
  match Gin.Get c "user_id" with
  | Some (Gin.AInt v) | Some (Gin.AInt64 v) | Some (Gin.AFloat64 v) => Some v
  | _ => None
  end.

(** The runes of a string ([[]rune(s)]), invalid bytes read as
    [RuneError]. *)
Fixpoint runes_loop (fuel : nat) (p : list Z) : list Z :=
  match fuel, p with
  | _, [] => []
  | O, _ :: _ => []
  | S f, _ :: _ =>
      let '(r, size) := Utf8.DecodeRune p in r :: runes_loop f (skipn size p)
  end.

(** [unicode.ToUpper]: ASCII inline, other runes through the case tables. *)
Definition unicode_ToUpper (upper_table : Z -> Z) (r : Z) : Z :=
  if r <=? 127 then (if (97 <=? r) && (r <=? 122) then r - 32 else r)
  else upper_table r.

(** [capitaliseRole]. *)
Definition capitaliseRole (upper_table : Z -> Z) (role : string) : string :=
  if String.eqb role "" then role else
  let p := Bytes.of_string role in
  match runes_loop (length p) p with
  | [] => role
  | r0 :: rs =>
      Bytes.to_string (flat_map Utf8.AppendRune (unicode_ToUpper upper_table r0 :: rs))
  end.

(** [Conversation.BuildHistoryPrompt]. *)
Definition BuildHistoryPrompt (upper_table : Z -> Z) (c : Conversation) : string :=
  match elems (History c) with
  | [] => ""
  | turns =>
      "Previous conversation:" ++ String "010"%char ""
      ++ String.concat "" (map (fun t => capitaliseRole upper_table (Role t) ++ ": "
                                  ++ Content t ++ String "010"%char "") turns)
      ++ String "010"%char ""
  end.

(** [buildConversationAwareQuery]. *)
Definition buildConversationAwareQuery (upper_table : Z -> Z) (convo : Conversation)
  (query : string) : string :=
  let history := GoStrings.TrimSpace (BuildHistoryPrompt upper_table convo) in
  if String.eqb history "" then query
  else history ++ "Current user request:" ++ String "010"%char "" ++ query.

(** [resolveModel]. *)
Definition resolveModel (requested provider : string) : string :=
  if negb (String.eqb (GoStrings.TrimSpace requested) "") then requested
  else if String.eqb provider Codegen.ProviderOpenAI then "openai"
  else if String.eqb provider Codegen.ProviderClaude then "claude"
  else "gemini".

(** The last user message of the request, or [""]. *)
Definition last_user_query (msgs : list ChatMessage) : string :=
  fold_left (fun q m => if String.eqb (msg_Role m) "user" then msg_Content m else q) msgs "".

(** The assistant-visible text of step 3. *)
Definition assistant_message (r : CodeGenerationResponse) : string :=
  if negb (String.eqb (Code r) "") then
    Explanation r ++ String "010"%char (String "010"%char "") ++ "```clarity"
    ++ String "010"%char "" ++ Code r ++ String "010"%char "" ++ "```"
  else Explanation r.

Section Handler.
Variable Float : Type.
(** The collaborators of the handler. *)
Variable upper_table : Z -> Z.
Variable Get : Z -> Z -> result Conversation.          (* repo.Get *)
Variable Save : Conversation -> result Conversation.   (* repo.Save, which sets the id *)
Variable getRAGService : result unit.
Variable RetrieveContext : string -> Z -> result Rag.RAGResponse.
Variable provider : string.                            (* codegen.ProviderFromEnv() *)
Variable getCodegenService : string -> result unit.
Variable GenerateCode : string -> string -> list string -> list string -> Float -> Z
                        -> result CodeGenerationResponse.
Variable uuid : string.
Variable now_unix : Z.

(** [loadConversation]. *)
Definition loadConversation (idPtr : option Z) (userID : Z) : result Conversation :=
  match idPtr with
  | None => Ok (New userID)
  | Some id => if id =? 0 then Ok (New userID) else Get id userID
  end.

(** [ChatCompletions] on a bound request, with the keys the auth middleware
    set: the reply and the conversation handed to [repo.Save], if any. *)
Definition ChatCompletions (c : Gin.keys) (req : ChatCompletionRequest Float)
  : reply * option Conversation :=
  match Messages req with
  | [] => (ReplyError 400 "At least one message is required", None)
  | _ =>
  let query := last_user_query (Messages req) in
  if String.eqb query "" then (ReplyError 400 "No user message found in messages array", None) else
  match extractUserID c with
  | None => (ReplyError 401 "Unable to resolve authenticated user", None)
  | Some userID =>
  match loadConversation (req_ConversationID req) userID with
  | Err e =>
      if String.eqb e "conversation not found" then (ReplyError 404 "Conversation not found", None)
      else (ReplyError 500 "Failed to load conversation", None)
  | Ok convo0 =>
  let convo := mkConversation (ID convo0) (UserID convo0) (History convo0) query
                 (CreatedAt convo0) (UpdatedAt convo0) in
  let conversationAwareQuery := buildConversationAwareQuery upper_table convo query in
  match getRAGService with
  | Err e => (ReplyError 500 ("Failed to initialize RAG service: " ++ e), None)
  | Ok _ =>
  match RetrieveContext query 5 with
  | Err e => (ReplyError 500 ("Failed to retrieve context: " ++ e), None)
  | Ok ragResponse =>
  match getCodegenService provider with
  | Err e => (ReplyError 500 ("Failed to initialize code generation service: " ++ e), None)
  | Ok _ =>
  match GenerateCode provider conversationAwareQuery (Rag.CodeContexts ragResponse)
          (Rag.DocsContexts ragResponse) (Temperature req) (MaxTokens req) with
  | Err e => (ReplyError 500 ("Failed to generate response: " ++ e), None)
  | Ok codeGenResponse =>
  let assistantMessage := assistant_message codeGenResponse in
  let convo := AddTurn (AddTurn convo "user" query) "assistant" assistantMessage in
  let response := mkResponse ("chatcmpl-" ++ uuid) "chat.completion" now_unix
        (resolveModel (Model req) provider)
        [mkChoice 0 (mkChatMessage "assistant" assistantMessage) "stop"]
        (mkUsage (estimateTokens conversationAwareQuery) (estimateTokens assistantMessage)
                 (estimateTokens conversationAwareQuery + estimateTokens assistantMessage))
        0 in
  match Save convo with
  | Err _ => (ReplyError 500 "Failed to persist conversation", Some convo)
  | Ok saved =>
      (ReplyOK (mkResponse (resp_ID response) (Object response) (Created response)
                 (resp_Model response) (Choices response) (Usage response) (ID saved)),
       Some convo)
  end end end end end end end end.

End Handler.

End Chat.

(** ** Sequences of key-store operations *)
Module KeyLifecycle.
Import Auth.

(** The calls that write to [api_keys]. *)
Inductive op :=
| OpCreate (now : Z) (format_now : string) (generated : list string) (userID : Z) (name : string)
| OpRevoke (userID keyID : Z)
| OpValidate (now : Z) (apiKey : string)
| OpAuth (now : Z) (apiKey : string).

Section Run.
Variable HashAPIKey : string -> string.

(** The database after one call. *)
Definition step (db : DB) (o : op) : DB :=
  match o with
  | OpCreate now fmt gen userID name => snd (CreateAPIKey HashAPIKey db now fmt gen userID name)
  | OpRevoke userID keyID => snd (RevokeAPIKey db userID keyID)
  | OpValidate now apiKey => snd (ValidateAPIKey HashAPIKey db now apiKey)
  | OpAuth now apiKey => snd (APIKeyAuth HashAPIKey db now apiKey)
  end.

Definition run_ops (db : DB) (ops : list op) : DB := fold_left step ops db.

End Run.

End KeyLifecycle.

(** ** Scenarios and auxiliary notions used by the properties *)
Module Scenarios.
Local Open Scope string_scope.
Local Open Scope Z_scope.

(** The provider identifiers [ProviderFromEnv] knows. *)
Definition known : list string :=
  [Codegen.ProviderOpenAI; Codegen.ProviderClaude; Codegen.ProviderGemini].

(** A telemetry entry. *)
Definition sample_entry : QueryLog.QueryLog :=
  QueryLog.mkQueryLog 0 1 None "/v1/chat/completions" "q" "r" "" 0 0 0 0 "success" ""
    None 0.

(** A queue filled to capacity by 1000 calls from a fresh service. *)
Definition filled (e : QueryLog.QueryLog) : QueryLog.Service unit :=
  fold_left (fun s _ => QueryLog.LogAsync unit s e) (repeat tt 1000)
    (QueryLog.NewService unit tt).

(** A store holding one key, with hash [h], that has been revoked. *)
Definition revoked_db (h : string) : Auth.DB :=
  Auth.mkDB [] [Auth.APIKey.mk 1 7 h "mk_abcde" "laptop" 0 None None false] None.

(** A store with an active and an inactive account. *)
Definition accounts_db : Auth.DB :=
  Auth.mkDB [Auth.User.mk 1 "alice" "hash-a" None 0 true Auth.RoleUser;
             Auth.User.mk 2 "bob" "hash-b" None 0 false Auth.RoleUser] [] None.

(** After a revocation of key [keyID] of [userID]: some row has an id of at
    least [keyID], and every row with that id and owner is inactive. *)
Definition revoked_inv (userID keyID : Z) (db : Auth.DB) : Prop :=
  (exists r, In r (Auth.api_keys db) /\ keyID <= Auth.APIKey.ID r)
  /\ (forall r, In r (Auth.api_keys db) -> Auth.APIKey.ID r = keyID ->
        Auth.APIKey.UserID r = userID -> Auth.APIKey.IsActive r = false).

(** A password check accepting "secret" for the hash "hash-a" only. *)
Definition sample_compare (hash password : string) : bool :=
  String.eqb hash "hash-a" && String.eqb password "secret".

(** A chat request with one user message, on a fresh conversation, with
    collaborators that all succeed. *)
Definition chat_keys : Gin.keys := [("user_id", Gin.AInt 7)].

Definition chat_req : Chat.ChatCompletionRequest unit :=
  Chat.mkChatCompletionRequest unit "" [Chat.mkChatMessage "user" "write a counter"] tt 256
    None.

Definition chat_generation : Chat.CodeGenerationResponse :=
  Chat.mkCodeGenerationResponse "(define-data-var counter uint u0)" "Here is a counter."
    10 20.

Definition chat_get (id userID : Z) : result Conversation.Conversation :=
  Err "conversation not found".

Definition chat_retrieve (query : string) (n : Z) : result Rag.RAGResponse :=
  Ok (Rag.mkRAGResponse ["(define-map m uint uint)"] [] "" "" "").

Definition chat_generate (provider query : string) (ctx docs : list string) (t : unit)
  (maxTokens : Z) : result Chat.CodeGenerationResponse :=
  Ok chat_generation.

Definition chat_save (c : Conversation.Conversation) : result Conversation.Conversation :=
  Ok (Conversation.mkConversation 42 (Conversation.UserID c) (Conversation.History c)
        (Conversation.NewMessage c) 1 1).

Definition chat_run : Chat.reply * option Conversation.Conversation :=
  Chat.ChatCompletions unit (fun r => r) chat_get chat_save (Ok tt) chat_retrieve
    Codegen.ProviderGemini (fun _ => Ok tt) chat_generate "0000" 1700000000 chat_keys chat_req.

(** Both fields of a turn are valid UTF-8. *)
Definition turn_valid (t : Conversation.Turn) : bool :=
  Utf8.ValidString (Bytes.of_string (Conversation.Role t))
  && Utf8.ValidString (Bytes.of_string (Conversation.Content t)).

(** The value the decoder reads back for a marshalled turn. *)
Definition turn_json (t : Conversation.Turn) : GoJSON.jvalue :=
  GoJSON.JObject
    [(Bytes.of_string "role", GoJSON.JString (Bytes.of_string (Conversation.Role t)));
     (Bytes.of_string "content", GoJSON.JString (Bytes.of_string (Conversation.Content t)))].

(** A conversation whose one turn holds the byte 0xFF, not valid UTF-8. *)
Definition bad_conv : Conversation.Conversation :=
  Conversation.mkConversation 0 7
    (Some [Conversation.mkTurn "user" (String (ascii_of_nat 255) EmptyString)]) "" 0 0.

(** U+FFFD in UTF-8. *)
Definition replacement_char : string :=
  String (ascii_of_nat 239) (String (ascii_of_nat 191) (String (ascii_of_nat 189) EmptyString)).

(** A two-turn conversation. *)
Definition sample_conv : Conversation.Conversation :=
  Conversation.mkConversation 1 7
    (Some [Conversation.mkTurn "user" "write a counter";
           Conversation.mkTurn "assistant" "(define-data-var n uint u0)"]) "" 0 0.

End Scenarios.

(** ** Code blocks in a provider's answer, [internal/codegen/response_utils.go] *)
Module ResponseUtils.
Local Open Scope string_scope.
Local Open Scope Z_scope.

(** [strings.Index] on the bytes of a string: the offset of the first
    occurrence of [sep] ([0] for an empty [sep]), [None] for [-1]. *)
Fixpoint index_from (s sep : list Z) : option nat :=
  if GoJSON.is_prefix sep s then Some O
  else match s with
       | [] => None
       | _ :: t => option_map S (index_from t sep)
       end.

Definition Index (s sep : list Z) : Z :=
  match index_from s sep with Some n => Z.of_nat n | None => -1 end.

Definition fence : list Z := Bytes.of_string "```".

(** [extractCodeBlock] on bytes. *)
Definition extract_code_block (text language : list Z) : list Z :=
  let startMarker := match language with [] => fence | _ => (fence ++ language)%list end in
  let endMarker := fence in
  let startIdx := Index text startMarker in
  if startIdx =? -1 then [] else
  let startIdx := startIdx + Z.of_nat (length startMarker) in
  let startIdx :=
    if (startIdx <? Z.of_nat (length text)) && (nth (Z.to_nat startIdx) text 0 =? 10)
    then startIdx + 1 else startIdx in
  let rest := skipn (Z.to_nat startIdx) text in
  let endIdx := Index rest endMarker in
  if endIdx =? -1 then []
  else GoStrings.trim_space_bytes (firstn (Z.to_nat endIdx) rest).

Definition extractCodeBlock (text language : string) : string :=
  Bytes.to_string (extract_code_block (Bytes.of_string text) (Bytes.of_string language)).

(** The loop of [removeCodeBlocks]; an iteration removes at least six
    bytes, so [length result] iterations are enough. *)
Fixpoint remove_loop (fuel : nat) (result : list Z) : list Z :=
  match fuel with
  | O => result
  | S f =>
      let startIdx := Index result fence in
      if startIdx =? -1 then result else
      let endIdx := Index (skipn (Z.to_nat (startIdx + 3)) result) fence in
      if endIdx =? -1 then result else
      remove_loop f (firstn (Z.to_nat startIdx) result
                     ++ skipn (Z.to_nat (startIdx + 3 + endIdx + 3)) result)%list
  end.

(** [removeCodeBlocks]. *)
Definition removeCodeBlocks (text : string) : string :=
  let p := Bytes.of_string text in
  Bytes.to_string (GoStrings.trim_space_bytes (remove_loop (length p) p)).

(** The code the providers keep: a [clarity] block, else the first block. *)
Definition select_code (assistantText : string) : string :=
  let code := extractCodeBlock assistantText "clarity" in
  if String.eqb code "" then extractCodeBlock assistantText "" else code.

(** [GeminiService.parseGeminiResponse]; the OpenAI and Claude services
    build the same code and explanation without the second [TrimSpace]. *)
Definition parseGeminiResponse (response : string) : Chat.CodeGenerationResponse :=
  Chat.mkCodeGenerationResponse (select_code response)
    (GoStrings.TrimSpace (removeCodeBlocks response)) 0 0.

(** A string none of whose bytes is a backtick. *)
Definition no_backtick (s : string) : bool :=
  forallb (fun b => negb (b =? 96)) (Bytes.of_string s).

(** A language tag of lower-case ASCII letters. *)
Definition lower_word (s : string) : bool :=
  forallb (fun b => (97 <=? b) && (b <=? 122)) (Bytes.of_string s).

End ResponseUtils.

(** ** Maintenance mode, [internal/api/middleware/maintenance.go] *)
Module Maintenance.
Local Open Scope string_scope.

(** The two package globals [maintenanceEnabled] and [maintenanceMessage]. *)
Record state := mkState { maintenanceEnabled : bool; maintenanceMessage : string }.

Definition defaultMaintenanceMessage : string :=
  "Service is temporarily unavailable while initialization is in progress. Please try again shortly.".

(** The globals after [init()]: the zero [atomic.Bool] and the default message. *)
Definition init_state : state := mkState false defaultMaintenanceMessage.

(** [SetMaintenanceMode(enabled, message...)]. *)
Definition SetMaintenanceMode (enabled : bool) (message : list string) (s : state) : state :=
  let msg :=
    match message with
    | m :: _ => if negb (String.eqb m "") then m
                else if negb enabled then "" else maintenanceMessage s
    | [] => if negb enabled then "" else maintenanceMessage s
    end in
  mkState enabled msg.

(** [SetMaintenanceMessage]. *)
Definition SetMaintenanceMessage (message : string) (s : state) : state :=
  if String.eqb message "" then mkState (maintenanceEnabled s) defaultMaintenanceMessage
  else mkState (maintenanceEnabled s) message.

Definition IsMaintenanceMode (s : state) : bool := maintenanceEnabled s.

(** What the middleware does with a request. *)
Inductive outcome :=
| Abort (status : Z) (error message : string)   (* c.AbortWithStatusJSON *)
| Next.                                         (* c.Next() *)

(** [MaintenanceModeMiddleware()]. *)
Definition MaintenanceModeMiddleware (s : state) : outcome :=
  if maintenanceEnabled s then
    let msg := maintenanceMessage s in
    let msg := if String.eqb msg "" then defaultMaintenanceMessage else msg in
    Abort 503 "maintenance_mode" msg
  else Next.

(** The calls that write the globals. *)
Inductive op :=
| OpSetMode (enabled : bool) (message : list string)
| OpSetMessage (message : string).

Definition step (s : state) (o : op) : state :=
  match o with
  | OpSetMode enabled message => SetMaintenanceMode enabled message s
  | OpSetMessage message => SetMaintenanceMessage message s
  end.

Definition run_ops (s : state) (ops : list op) : state := fold_left step ops s.

(** The [enabled] argument of the last [SetMaintenanceMode] call, if any. *)
Fixpoint last_mode (ops : list op) : option bool :=
  match ops with
  | [] => None
  | o :: rest =>
      match last_mode rest with
      | Some b => Some b
      | None => match o with OpSetMode b _ => Some b | OpSetMessage _ => None end
      end
  end.

(** The startup of [cmd/server/main.go]: maintenance mode while the data
    directories are empty, then the result of the background
    initialisation. *)
Definition initMessage : string := "Backend is initializing data. Please try again shortly.".

Definition startup (needsInitialization : bool) (s : state) : state :=
  if needsInitialization then SetMaintenanceMode true [initMessage] s
  else SetMaintenanceMode false [] s.

Definition initialization_done (failed : bool) (s : state) : state :=
  if failed then SetMaintenanceMode true ["Initialization failed. Please check server logs."] s
  else SetMaintenanceMode false [] s.

End Maintenance.


(** ** Conversation persistence, [internal/conversation/repository.go] *)
Module ConversationRepo.
Import Conversation.
Local Open Scope string_scope.

(** A row of the [conversations] table; [new_message] is nullable. *)
Record row := mkRow {
  row_id : Z;
  row_user_id : Z;
  row_history : string;
  row_new_message : option string;
  row_created_at : Z;
  row_updated_at : Z
}.

(** The table, the last [AUTOINCREMENT] value handed out, and a driver
    failure, if the database is failing. *)
Record table := mkTable { rows : list row; seq : Z; fault : option string }.

Definition ErrConversationNotFound : string := "conversation not found".

(** [SELECT ... WHERE id = ? AND user_id = ?]. *)
Definition select_row (t : table) (id userID : Z) : option row :=
  find (fun r => Z.eqb (row_id r) id && Z.eqb (row_user_id r) userID) (rows t).

(** [Repository.Get]. *)
Definition Get (t : table) (id userID : Z) : result Conversation :=
  match fault t with
  | Some e => Err ("query conversation: " ++ e)
  | None =>
  match select_row t id userID with
  | None => Err ErrConversationNotFound
  | Some r =>
      match DeserializeHistory (row_history r) with
      | Err e => Err ("parse history: " ++ e)
      | Ok turns =>
          Ok (mkConversation (row_id r) (row_user_id r) turns
                (match row_new_message r with Some m => m | None => "" end)
                (row_created_at r) (row_updated_at r))
      end
  end
  end.

(** [UPDATE conversations SET history = ?, new_message = ?, updated_at = ?
    WHERE id = ? AND user_id = ?]. *)
Definition update_row (id userID : Z) (history message : string) (now : Z) (r : row) : row :=
  if Z.eqb (row_id r) id && Z.eqb (row_user_id r) userID
  then mkRow (row_id r) (row_user_id r) history (Some message) (row_created_at r) now
  else r.

(** [Repository.Save] at time [now]: the error, the table after the call,
    and the conversation as the call leaves it (it sets [ID], [CreatedAt]
    and [UpdatedAt] through the pointer). *)
Definition Save (now : Z) (t : table) (convo : Conversation) : result unit * table * Conversation :=
  match SerializeHistory convo with
  | Err e => (Err e, t, convo)
  | Ok historyJSON =>
  if Z.eqb (ID convo) 0 then
    match fault t with
    | Some e => (Err ("insert conversation: " ++ e), t, convo)
    | None =>
        let convoID := seq t + 1 in
        (Ok tt,
         mkTable (rows t ++ [mkRow convoID (UserID convo) historyJSON (Some (NewMessage convo)) now now])
                 convoID None,
         mkConversation convoID (UserID convo) (History convo) (NewMessage convo) now now)
    end
  else
    match fault t with
    | Some e => (Err ("update conversation: " ++ e), t, convo)
    | None =>
        (Ok tt,
         mkTable (map (update_row (ID convo) (UserID convo) historyJSON (NewMessage convo) now) (rows t))
                 (seq t) None,
         mkConversation (ID convo) (UserID convo) (History convo) (NewMessage convo)
           (CreatedAt convo) now)
    end
  end.

(** The table invariant of [id INTEGER PRIMARY KEY AUTOINCREMENT]: ids are
    distinct, positive and at most the last value handed out. *)
Definition table_ok (t : table) : Prop :=
  NoDup (map row_id (rows t)) /\ Forall (fun r => 0 < row_id r <= seq t) (rows t) /\ 0 <= seq t.

End ConversationRepo.


(** ** Accounts: [CreateUser], [internal/auth/service.go], and the
    [Register] and [Login] handlers, [internal/api/handlers/auth.go] *)
Module Accounts.
Import Auth.
Local Open Scope string_scope.
Local Open Scope Z_scope.

Section Users.
Variable CompareHashAndPassword : string -> string -> bool.
(** [HashPassword] (bcrypt at the default cost), which may fail. *)
Variable HashPassword : string -> result string.

(** [CreateUser] at time [now] (the [created_at] default); the new id is
    the next AUTOINCREMENT value, and no row of [users] is ever deleted. *)
Definition CreateUser (db : DB) (now : Z) (username password : string) (email : option string)
  (role : string) : result Z * DB :=
  if (String.length username <? 3)%nat then (Err "username must be at least 3 characters", db) else
  if (String.length password <? 6)%nat then (Err "password must be at least 6 characters", db) else
  let role := if String.eqb role "" then RoleUser else role in
  if negb (String.eqb role RoleUser) && negb (String.eqb role RoleAdmin)
  then (Err "invalid role", db) else
  match fault db with
  | Some e => (Err e, db)
  | None =>
      (* SELECT EXISTS(SELECT 1 FROM users WHERE username = ?) *)
      if existsb (fun u => String.eqb (User.Username u) username) (users db)
      then (Err "username already exists", db) else
      match HashPassword password with
      | Err e => (Err e, db)
      | Ok passwordHash =>
          let userID := 1 + fold_right Z.max 0 (map User.ID (users db)) in
          (Ok userID,
           mkDB (users db ++ [User.mk userID username passwordHash email now true role])
                (api_keys db) (fault db))
      end
  end.

(** The replies of the two handlers. *)
Inductive register_reply :=
| RegisterCreated (user_id : Z) (role : string)          (* 201 *)
| RegisterError (status : Z) (error : string).

Inductive login_reply :=
| LoginOK (user_id : Z) (username : string)              (* 200 *)
| LoginError (status : Z) (error : string).

(** [Register] on a bound request. *)
Definition Register (db : DB) (now : Z) (username password email : string) : register_reply * DB :=
  let email := if String.eqb email "" then None else Some email in
  match CreateUser db now username password email RoleUser with
  | (Err e, db') => (RegisterError 400 e, db')
  | (Ok userID, db') => (RegisterCreated userID RoleUser, db')
  end.

(** [Login] on a bound request. *)
Definition Login (db : DB) (username password : string) : login_reply :=
  match AuthenticateUser CompareHashAndPassword db username password with
  | Err e => LoginError 401 e
  | Ok user => LoginOK (User.ID user) (User.Username user)
  end.

End Users.

(** The [users] table keeps its constraints: distinct ids, [username
    UNIQUE], and a role the service accepts. *)
Definition users_ok (db : DB) : Prop :=
  NoDup (map User.ID (users db)) /\ NoDup (map User.Username (users db))
  /\ Forall (fun u => User.Role u = RoleUser \/ User.Role u = RoleAdmin) (users db).

End Accounts.


(** ** API keys: generation and the unused [CompareAPIKey],
    [internal/auth/service.go] *)
Module APIKeys.
Import Auth.
Local Open Scope string_scope.
Local Open Scope Z_scope.

Definition apiKeyCharset : string :=
  "abcdefghijklmnopqrstuvwxyzABCDEFGHIJKLMNOPQRSTUVWXYZ0123456789".
Definition apiKeyLength : nat := 32.
Definition apiKeyPrefix : string := "mk_".

(** [apiKeyCharset[num]]; out of range Go panics, which [rand.Int] with the
    bound [len(apiKeyCharset)] rules out. *)
Definition charset_at (num : Z) : ascii :=
  match String.get (Z.to_nat num) apiKeyCharset with Some c => c | None => "000"%char end.

Section Generate.
(** The result of the [i]-th call of [rand.Int(rand.Reader, 62)]. *)
Variable randInt : nat -> result Z.

(** The loop filling [buf], from index [i], for [n] more bytes. *)
Fixpoint fill (i n : nat) : result (list ascii) :=
  match n with
  | O => Ok []
  | S n' =>
      match randInt i with
      | Err e => Err e
      | Ok num =>
          match fill (S i) n' with
          | Err e => Err e
          | Ok rest => Ok (charset_at num :: rest)
          end
      end
  end.

(** [GenerateAPIKey]. *)
Definition GenerateAPIKey : result string :=
  match fill 0 apiKeyLength with
  | Err e => Err e
  | Ok buf => Ok (apiKeyPrefix ++ string_of_list_ascii buf)
  end.

End Generate.

Section Compare.
Variable HashAPIKey : string -> string.

(** [CompareAPIKey]. *)
Definition CompareAPIKey (db : DB) (userID : Z) (apiKey : string) : result bool :=
  if String.eqb apiKey "" then Err "API key cannot be empty" else
  let keyHash := HashAPIKey apiKey in
  match fault db with
  | Some e => Err e
  | None =>
      Ok (existsb (fun k => (APIKey.UserID k =? userID)
                            && String.eqb (APIKey.APIKeyHash k) keyHash && APIKey.IsActive k)
                  (api_keys db))
  end.

End Compare.

End APIKeys.

(** ** Password authentication and roles, [internal/api/middleware/auth.go] *)
Module BasicAuthMW.
Import Auth.
Local Open Scope string_scope.
Local Open Scope Z_scope.

(** [strings.SplitN(s, ":", 2)]. *)
Definition SplitN_colon (s : string) : list string :=
  match String.index 0 ":" s with
  | None => [s]
  | Some m => [substring 0 m s; substring (S m) (String.length s - S m) s]
  end.

Section Middleware.
Variable CompareHashAndPassword : string -> string -> bool.
(** [base64.StdEncoding.DecodeString], as bytes read back as a string. *)
Variable DecodeString : string -> result string.

(** [BasicAuth], given the [Authorization] header: the outcome and the
    response headers it sets. *)
Definition BasicAuth (db : DB) (authHeader : string) : mw_outcome * list (string * string) :=
  if String.eqb authHeader "" then (Abort 401 "Authorization header required", []) else
  let prefix := "Basic " in
  if negb (String.prefix prefix authHeader) then (Abort 401 "Invalid authorization header", []) else
  match DecodeString (substring (String.length prefix) (String.length authHeader - String.length prefix)
                        authHeader) with
  | Err _ => (Abort 401 "Invalid authorization header", [])
  | Ok decoded =>
      match SplitN_colon decoded with
      | [username; password] =>
          match AuthenticateUser CompareHashAndPassword db username password with
          | Err _ => (Abort 401 "Invalid credentials", [("WWW-Authenticate", "Basic realm=Restricted")])
          | Ok user =>
              (Next (Gin.Set_ "user_role" (Gin.AString (User.Role user))
                       (Gin.Set_ "user_id" (Gin.AInt (User.ID user))
                          (Gin.Set_ "username" (Gin.AString (User.Username user)) []))), [])
          end
      | _ => (Abort 401 "Invalid credentials format", [])
      end
  end.

End Middleware.

(** [RequireRole(role)] on the keys the earlier middleware set. *)
Definition RequireRole (role : string) (c : Gin.keys) : mw_outcome :=
  match Gin.Get c "user_role" with
  | None => Abort 403 "insufficient permissions"
  | Some (Gin.AString roleStr) =>
      if String.eqb roleStr role then Next [] else Abort 403 "insufficient permissions"
  | Some _ => Abort 403 "insufficient permissions"
  end.

(** No colon in a string. *)
Definition no_colon (s : string) : bool :=
  forallb (fun c => negb (Ascii.eqb c ":"%char)) (list_ascii_of_string s).

End BasicAuthMW.

(** ** Concrete stores and calls for the properties of the extra modules *)
Module ExtraScenarios.
Local Open Scope string_scope.
Local Open Scope Z_scope.


(** A table holding conversation 1 of user 7, and a second user's row. *)
Definition one_conversation : ConversationRepo.table :=
  ConversationRepo.mkTable
    [ConversationRepo.mkRow 1 7 "[]" None 100 100;
     ConversationRepo.mkRow 2 8 "[]" (Some "hello") 100 100] 2 None.


Definition stored_conversation : Conversation.Conversation :=
  Conversation.mkConversation 1 7 (Some [Conversation.mkTurn "user" "write a counter"])
    "write a counter" 100 100.

(** A password hash with its matching check. *)
Definition sample_hash (password : string) : result string := Ok ("bcrypt:" ++ password).

Definition sample_check (hash password : string) : bool := String.eqb hash ("bcrypt:" ++ password).

Definition empty_db : Auth.DB := Auth.mkDB [] [] None.

(** A store with one active key of user 7 that expired at time 50. *)
Definition expired_key : Auth.APIKey.t :=
  Auth.APIKey.mk 1 7 "h:mk_old" "mk_old" "laptop" 0 None (Some 50) true.

Definition expired_db : Auth.DB := Auth.mkDB [] [expired_key] None.

Definition sample_key_hash (apiKey : string) : string := "h:" ++ apiKey.

(** [base64.StdEncoding.DecodeString] on the two payloads used below. *)
Definition sample_decode (s : string) : result string :=
  if String.eqb s "YWxpY2U6c2U6Y3JldDE=" then Ok "alice:se:cret1"
  else if String.eqb s "cm9vdDp0b29yMTIz" then Ok "root:toor123"
  else Err "illegal base64 data at input byte 0".

(** A store with an administrator and a live key of user 7. *)
Definition admin_db : Auth.DB :=
  Auth.mkDB [Auth.User.mk 1 "root" "bcrypt:toor123" None 0 true Auth.RoleAdmin;
             Auth.User.mk 2 "alice" "bcrypt:se:cret1" None 0 true Auth.RoleUser]
    [Auth.APIKey.mk 1 7 "h:mk_live" "mk_live" "laptop" 0 None None true] None.

End ExtraScenarios.

From Stdlib Require QArith_base.

(** ** The query-log repository, [internal/querylog/repository.go] *)
Module QueryLogRepo.
Local Open Scope string_scope.

(** A row of [query_logs]. [api_key_id], [response], [model_provider],
    [error_message] and [conversation_id] may be NULL. Times are Unix
    milliseconds: [created_at] holds the UTC times [Create] writes, which
    the driver stores as text that sorts as the times do. *)
Record row := mkRow {
  row_id : Z;
  row_user_id : Z;
  row_api_key_id : option Z;
  row_endpoint : string;
  row_query : string;
  row_response : option string;
  row_model_provider : option string;
  row_rag_contexts_count : Z;
  row_input_tokens : Z;
  row_output_tokens : Z;
  row_latency_ms : Z;
  row_status : string;
  row_error_message : option string;
  row_conversation_id : option Z;
  row_created_at : Z
}.

(** The table, the last [AUTOINCREMENT] value handed out, and a driver
    failure, if the database is failing. *)
Record table := mkTable { rows : list row; seq : Z; fault : option string }.

Definition ErrNotFound : string := "query log not found".

(** [if v != "" { x = v }]: an [any] left nil binds SQL NULL. *)
Definition null_if_empty (v : string) : option string :=
  if String.eqb v "" then None else Some v.

(** [if n.Valid { log.F = n.String }]: NULL leaves the zero value. *)
Definition string_of_null (n : option string) : string :=
  match n with Some v => v | None => "" end.

(** The columns [Create] inserts for [log] under the new [id]. *)
Definition row_of (id : Z) (l : QueryLog.QueryLog) : row :=
  mkRow id (QueryLog.UserID l) (QueryLog.APIKeyID l) (QueryLog.Endpoint l)
    (QueryLog.Query l) (null_if_empty (QueryLog.Response l))
    (null_if_empty (QueryLog.ModelProvider l)) (QueryLog.RAGContextsCount l)
    (QueryLog.InputTokens l) (QueryLog.OutputTokens l) (QueryLog.LatencyMs l)
    (QueryLog.Status l) (null_if_empty (QueryLog.ErrorMessage l))
    (QueryLog.ConversationID l) (QueryLog.CreatedAt l).

(** The scan of a row in [GetByID] and in the loop of [List]. *)
Definition scan (r : row) : QueryLog.QueryLog :=
  {| QueryLog.ID := row_id r; QueryLog.UserID := row_user_id r;
     QueryLog.APIKeyID := row_api_key_id r; QueryLog.Endpoint := row_endpoint r;
     QueryLog.Query := row_query r;
     QueryLog.Response := string_of_null (row_response r);
     QueryLog.ModelProvider := string_of_null (row_model_provider r);
     QueryLog.RAGContextsCount := row_rag_contexts_count r;
     QueryLog.InputTokens := row_input_tokens r;
     QueryLog.OutputTokens := row_output_tokens r;
     QueryLog.LatencyMs := row_latency_ms r; QueryLog.Status := row_status r;
     QueryLog.ErrorMessage := string_of_null (row_error_message r);
     QueryLog.ConversationID := row_conversation_id r;
     QueryLog.CreatedAt := row_created_at r |}.

(** [log.CreatedAt = now]. *)
Definition set_created_at (now : Z) (l : QueryLog.QueryLog) : QueryLog.QueryLog :=
  {| QueryLog.ID := QueryLog.ID l; QueryLog.UserID := QueryLog.UserID l;
     QueryLog.APIKeyID := QueryLog.APIKeyID l; QueryLog.Endpoint := QueryLog.Endpoint l;
     QueryLog.Query := QueryLog.Query l; QueryLog.Response := QueryLog.Response l;
     QueryLog.ModelProvider := QueryLog.ModelProvider l;
     QueryLog.RAGContextsCount := QueryLog.RAGContextsCount l;
     QueryLog.InputTokens := QueryLog.InputTokens l;
     QueryLog.OutputTokens := QueryLog.OutputTokens l;
     QueryLog.LatencyMs := QueryLog.LatencyMs l; QueryLog.Status := QueryLog.Status l;
     QueryLog.ErrorMessage := QueryLog.ErrorMessage l;
     QueryLog.ConversationID := QueryLog.ConversationID l;
     QueryLog.CreatedAt := now |}.

(** [log.ID = id]. *)
Definition set_id (id : Z) (l : QueryLog.QueryLog) : QueryLog.QueryLog :=
  {| QueryLog.ID := id; QueryLog.UserID := QueryLog.UserID l;
     QueryLog.APIKeyID := QueryLog.APIKeyID l; QueryLog.Endpoint := QueryLog.Endpoint l;
     QueryLog.Query := QueryLog.Query l; QueryLog.Response := QueryLog.Response l;
     QueryLog.ModelProvider := QueryLog.ModelProvider l;
     QueryLog.RAGContextsCount := QueryLog.RAGContextsCount l;
     QueryLog.InputTokens := QueryLog.InputTokens l;
     QueryLog.OutputTokens := QueryLog.OutputTokens l;
     QueryLog.LatencyMs := QueryLog.LatencyMs l; QueryLog.Status := QueryLog.Status l;
     QueryLog.ErrorMessage := QueryLog.ErrorMessage l;
     QueryLog.ConversationID := QueryLog.ConversationID l;
     QueryLog.CreatedAt := QueryLog.CreatedAt l |}.

(** [Repository.Create] at time [now]; [None] is a nil [*QueryLog]. The
    result is the error, the table after the call, and the log as the call
    leaves it through the pointer ([CreatedAt] is set before the insert).
    The SQLite driver's [LastInsertId] does not fail. *)
Definition Create (now : Z) (t : table) (log : option QueryLog.QueryLog)
  : result unit * table * option QueryLog.QueryLog :=
  match log with
  | None => (Err "log is nil", t, None)
  | Some l =>
      let l := set_created_at now l in
      match fault t with
      | Some e => (Err ("insert query log: " ++ e), t, Some l)
      | None =>
          let id := seq t + 1 in
          (Ok tt, mkTable (rows t ++ [row_of id l]) id None, Some (set_id id l))
      end
  end.

(** [SELECT ... FROM query_logs WHERE id = ?]. *)
Definition select_row (t : table) (id : Z) : option row :=
  find (fun r => Z.eqb (row_id r) id) (rows t).

(** [Repository.GetByID]. *)
Definition GetByID (t : table) (id : Z) : result QueryLog.QueryLog :=
  match fault t with
  | Some e => Err ("query query log: " ++ e)
  | None =>
      match select_row t id with
      | None => Err ErrNotFound
      | Some r => Ok (scan r)
      end
  end.

(** [querylog.ListParams]; a nil pointer is [None]. *)
Record ListParams := mkListParams {
  Page : Z;
  Limit : Z;
  UserID : option Z;
  APIKeyID : option Z;
  Status : string;
  Endpoint : string;
  ModelProvider : string;
  StartDate : option Z;
  EndDate : option Z
}.

Definition int64_min : Z := - 2 ^ 63.
Definition int64_max : Z := 2 ^ 63 - 1.

(** Two's-complement wrap-around of Go's 64-bit [int]. *)
Definition wrap64 (z : Z) : Z := (z + 2 ^ 63) mod 2 ^ 64 - 2 ^ 63.

(** The [limit] and [page] [List] works with. *)
Definition effective_limit (limit : Z) : Z :=
  let limit := if Z.leb limit 0 then 20 else limit in
  if Z.ltb 500 limit then 500 else limit.

Definition effective_page (page : Z) : Z := if Z.leb page 0 then 1 else page.

(** [offset := (page - 1) * limit], in [int]. *)
Definition offset (p : ListParams) : Z :=
  wrap64 ((effective_page (Page p) - 1) * effective_limit (Limit p)).

(** [col = ?] on a nullable column: NULL never compares equal. *)
Definition eq_null_Z (col : option Z) (v : Z) : bool :=
  match col with Some c => Z.eqb c v | None => false end.

Definition eq_null_string (col : option string) (v : string) : bool :=
  match col with Some c => String.eqb c v | None => false end.

(** The [WHERE] clause [List] builds from its filters, joined by [AND]. *)
Definition matches (p : ListParams) (r : row) : bool :=
  match UserID p with Some u => Z.eqb (row_user_id r) u | None => true end &&
  match APIKeyID p with Some k => eq_null_Z (row_api_key_id r) k | None => true end &&
  (String.eqb (Status p) "" || String.eqb (row_status r) (Status p)) &&
  (String.eqb (Endpoint p) "" || String.eqb (row_endpoint r) (Endpoint p)) &&
  (String.eqb (ModelProvider p) "" || eq_null_string (row_model_provider r) (ModelProvider p)) &&
  match StartDate p with Some s => Z.leb s (row_created_at r) | None => true end &&
  match EndDate p with Some e => Z.leb (row_created_at r) e | None => true end.

(** [ORDER BY created_at DESC]; SQL leaves the order of rows with equal
    times open, here they keep the table's order. *)
Fixpoint insert_desc (r : row) (rs : list row) : list row :=
  match rs with
  | [] => [r]
  | h :: tl => if Z.leb (row_created_at h) (row_created_at r) then r :: rs
               else h :: insert_desc r tl
  end.

Definition order_by_created_desc (rs : list row) : list row :=
  fold_right insert_desc [] rs.

(** [Repository.List]: the page of logs and the total count. A negative
    [OFFSET] counts as zero in SQLite, as [Z.to_nat] does here. *)
Definition List (t : table) (p : ListParams) : result (list QueryLog.QueryLog * Z) :=
  match fault t with
  | Some e => Err ("count query logs: " ++ e)
  | None =>
      let matching := filter (matches p) (rows t) in
      let total := Z.of_nat (length matching) in
      let page := firstn (Z.to_nat (effective_limit (Limit p)))
                    (skipn (Z.to_nat (offset p)) (order_by_created_desc matching)) in
      Ok (map scan page, total)
  end.

(** [querylog.QueryLogStats]; a Go map as an association list. The average
    is the exact mean, of which SQLite's [AVG] is the floating-point value. *)
Record QueryLogStats := mkStats {
  TotalQueries : Z;
  SuccessCount : Z;
  ErrorCount : Z;
  AvgLatencyMs : QArith_base.Q;
  TotalInputTokens : Z;
  TotalOutputTokens : Z;
  QueriesByEndpoint : list (string * Z);
  QueriesByProvider : list (string * Z)
}.

(** The zero [time.Time] (0001-01-01 UTC) in Unix milliseconds. *)
Definition zero_time : Z := -62135596800000.

Definition IsZero (d : Z) : bool := Z.eqb d zero_time.

(** The [WHERE] clause of [GetStats]: a zero bound is no bound. *)
Definition in_range (startDate endDate : Z) (r : row) : bool :=
  (IsZero startDate || Z.leb startDate (row_created_at r)) &&
  (IsZero endDate || Z.leb (row_created_at r) endDate).

Definition sum_col (f : row -> Z) (rs : list row) : Z :=
  fold_right (fun r acc => f r + acc) 0 rs.

(** SQL [SUM]: NULL over no rows. *)
Definition sql_sum (f : row -> Z) (rs : list row) : option Z :=
  match rs with [] => None | _ => Some (sum_col f rs) end.

(** SQL [AVG]: NULL over no rows. *)
Definition sql_avg (f : row -> Z) (rs : list row) : option QArith_base.Q :=
  match rs with
  | [] => None
  | _ => Some (QArith_base.Qmake (sum_col f rs) (Pos.of_nat (length rs)))
  end.

Definition coalesce {A} (v : option A) (d : A) : A :=
  match v with Some x => x | None => d end.

(** The error [Scan] reports when it meets a NULL for an [int64]
    destination (the text after the column name). *)
Definition ErrNullInt64 : string := "converting NULL to int64 is unsupported".

Definition scan_int64 (v : option Z) : result Z :=
  match v with Some z => Ok z | None => Err ErrNullInt64 end.

Definition status_is (s : string) (r : row) : Z :=
  if String.eqb (row_status r) s then 1 else 0.

(** [GROUP BY col] with [COUNT( * )]: one row per distinct value. SQL leaves
    the order of the groups open; here it is the order [nodup] keeps. *)
Definition group_by {K} (dec : forall a b : K, {a = b} + {a <> b}) (col : row -> K)
  (rs : list row) : list (K * Z) :=
  map (fun k => (k, Z.of_nat (length (filter (fun r => if dec (col r) k then true else false) rs))))
    (nodup dec (map col rs)).

Definition option_string_dec (a b : option string) : {a = b} + {a <> b}.
Proof. decide equality; apply string_dec. Defined.

(** [target[key] = count] on a Go map. *)
Definition map_set (k : string) (v : Z) (m : list (string * Z)) : list (string * Z) :=
  (k, v) :: filter (fun kv => negb (String.eqb (fst kv) k)) m.


(** [collectCounts] over the rows its query returns. *)
Definition collectCounts (groups : list (string * Z)) (target : list (string * Z))
  : list (string * Z) :=
  fold_left (fun m kv => map_set (fst kv) (snd kv) m) groups target.

(** [Repository.GetStats]. The [Scan] of the aggregate row stops at the
    first column it cannot convert; [SUM] over the rows' small counters does
    not overflow. *)
Definition GetStats (t : table) (startDate endDate : Z) : result QueryLogStats :=
  match fault t with
  | Some e => Err ("aggregate stats: " ++ e)
  | None =>
  let rs := filter (in_range startDate endDate) (rows t) in
  match scan_int64 (Some (Z.of_nat (length rs))) with
  | Err e => Err ("aggregate stats: " ++ e)
  | Ok total =>
  match scan_int64 (sql_sum (status_is "success") rs) with
  | Err e => Err ("aggregate stats: " ++ e)
  | Ok success =>
  match scan_int64 (sql_sum (status_is "error") rs) with
  | Err e => Err ("aggregate stats: " ++ e)
  | Ok errors =>
  let avg := coalesce (sql_avg row_latency_ms rs) (QArith_base.inject_Z 0) in
  match scan_int64 (Some (coalesce (sql_sum row_input_tokens rs) 0)) with
  | Err e => Err ("aggregate stats: " ++ e)
  | Ok intok =>
  match scan_int64 (Some (coalesce (sql_sum row_output_tokens rs) 0)) with
  | Err e => Err ("aggregate stats: " ++ e)
  | Ok outtok =>
  let byEndpoint := collectCounts (group_by string_dec row_endpoint rs) [] in
  let byProvider :=
    collectCounts (map (fun kc => (coalesce (fst kc) "", snd kc))
                       (group_by option_string_dec row_model_provider rs)) [] in
  Ok (mkStats total success errors avg intok outtok byEndpoint byProvider)
  end end end end end
  end.


(** The invariant of [id INTEGER PRIMARY KEY AUTOINCREMENT]: no id above
    the last value handed out. *)
Definition table_ok (t : table) : Prop :=
  Forall (fun r => row_id r <= seq t) (rows t).

(** Ordering rows by [created_at], newest first. *)
Definition newer_row (a b : row) : Prop := row_created_at b <= row_created_at a.

(** Every stored status is one of the two values the query-log
    middleware's [getStatus] returns. *)
Definition statuses_ok (t : table) : Prop :=
  Forall (fun r => row_status r = "success" \/ row_status r = "error") (rows t).

End QueryLogRepo.


(** ** The query-log handlers, [internal/api/handlers] (query logs) *)
Module QueryLogHandlers.
Import QueryLogRepo.
Local Open Scope string_scope.

(** What [strconv.ParseUint(s, 10, 64)] finds: a syntax error, a value out
    of range, or the value. *)
Inductive parsed := Syntax | Range | Value (n : Z).

Definition maxUint64 : Z := 2 ^ 64 - 1.

(** The digit loop of [ParseUint]: it stops at the first non-digit or at
    the first overflow. *)
Fixpoint parse_uint (acc : Z) (s : string) : parsed :=
  match s with
  | EmptyString => Value acc
  | String c rest =>
      let d := Z.of_nat (nat_of_ascii c) - 48 in
      if Z.ltb d 0 || Z.ltb 9 d then Syntax
      else
        let n := acc * 10 + d in
        if Z.ltb maxUint64 n then Range else parse_uint n rest
  end.

Definition ParseUint (s : string) : parsed :=
  match s with EmptyString => Syntax | _ => parse_uint 0 s end.

(** [strconv.ParseInt(s, 10, 64)]: the value and whether the error is nil;
    out of range it returns the nearest bound, on a syntax error 0. *)
Definition ParseInt (s : string) : Z * bool :=
  let '(neg, body) :=
    match s with
    | String c r =>
        if Ascii.eqb c "-"%char then (true, r)
        else if Ascii.eqb c "+"%char then (false, r) else (false, s)
    | EmptyString => (false, s)
    end in
  match ParseUint body with
  | Syntax => (0, false)
  | Range => if neg then (int64_min, false) else (int64_max, false)
  | Value un =>
      if neg then (if Z.ltb (2 ^ 63) un then (int64_min, false) else (- un, true))
      else (if Z.leb (2 ^ 63) un then (int64_max, false) else (un, true))
  end.

(** The value [v, _ := strconv.Atoi(s)] binds, [int] being 64 bits. *)
Definition Atoi (s : string) : Z := fst (ParseInt s).

(** The query string of the request: the first value of each key. *)
Definition GetQuery (q : list (string * string)) (k : string) : option string :=
  option_map snd (find (fun kv => String.eqb (fst kv) k) q).

Definition Query (q : list (string * string)) (k : string) : string :=
  coalesce (GetQuery q k) "".

Definition DefaultQuery (q : list (string * string)) (k d : string) : string :=
  coalesce (GetQuery q k) d.

Definition parseInt64Ptr (val : string) : option Z :=
  if String.eqb val "" then None
  else let '(v, ok) := ParseInt val in if ok then Some v else None.

(** The JSON replies of the handlers. *)
Inductive reply :=
| ErrorReply (status : Z) (error : string)
| ListReply (logs : list QueryLog.QueryLog) (total page limit : Z)
| LogReply (log : QueryLog.QueryLog)
| StatsReply (stats : QueryLogStats).

Section Handlers.
(** [time.Parse] with the layouts [2006-01-02], then RFC 3339. *)
Variable parse_layouts : string -> option Z.

Definition parseDate (val : string) : option Z :=
  if String.eqb val "" then None else parse_layouts val.

(** [ListQueryLogs]. *)
Definition ListQueryLogs (t : table) (q : list (string * string)) : reply :=
  let page := Atoi (DefaultQuery q "page" "1") in
  let limit := Atoi (DefaultQuery q "limit" "20") in
  let params := mkListParams page limit
                  (parseInt64Ptr (Query q "user_id")) (parseInt64Ptr (Query q "api_key_id"))
                  (Query q "status") (Query q "endpoint") (Query q "model_provider")
                  (parseDate (Query q "start_date")) (parseDate (Query q "end_date")) in
  match List t params with
  | Err _ => ErrorReply 500 "failed to list query logs"
  | Ok (logs, total) => ListReply logs total (Page params) (Limit params)
  end.

(** [GetQueryLog], with the path parameter [id]. *)
Definition GetQueryLog (t : table) (idParam : string) : reply :=
  let '(id, ok) := ParseInt idParam in
  if negb ok then ErrorReply 400 "invalid id" else
  match GetByID t id with
  | Err e => if String.eqb e ErrNotFound then ErrorReply 404 "query log not found"
             else ErrorReply 500 "failed to fetch query log"
  | Ok l => LogReply l
  end.

(** [GetQueryLogStats]. *)
Definition GetQueryLogStats (t : table) (q : list (string * string)) : reply :=
  let startDate := coalesce (parseDate (Query q "start_date")) zero_time in
  let endDate := coalesce (parseDate (Query q "end_date")) zero_time in
  match GetStats t startDate endDate with
  | Err _ => ErrorReply 500 "failed to fetch query log stats"
  | Ok stats => StatsReply stats
  end.

End Handlers.

End QueryLogHandlers.


(** ** Sample query-log tables *)
Module QueryLogScenarios.
Import QueryLogRepo.
Local Open Scope string_scope.

Definition sample_row (id user : Z) (endpoint status : string) (provider : option string)
  (created : Z) : row :=
  mkRow id user None endpoint "q" None provider 0 3 4 10 status None None created.

Definition sample_table : table :=
  mkTable [sample_row 1 7 "/api/v1/chat" "success" (Some "openai") 100;
           sample_row 2 7 "/api/v1/rag" "error" None 300;
           sample_row 3 8 "/api/v1/chat" "success" (Some "gemini") 200] 3 None.

Definition sample_params : ListParams :=
  mkListParams 1 2 (Some 7) None "" "" "" None None.

(** A tracked chat request of user 7 that the handler answered with 200. *)
Definition sample_tracked : list string := ["/api/v1/chat"].

Definition sample_request : QueryLogMiddleware.Request :=
  QueryLogMiddleware.mkRequest "/api/v1/chat" "/api/v1/chat" "hello".

Definition sample_outcome : QueryLogMiddleware.Outcome :=
  QueryLogMiddleware.mkOutcome [("user_id", Gin.AInt64 7)] "ok" 200 12 500.

Definition empty_log : QueryLog.QueryLog :=
  QueryLog.mkQueryLog 0 0 None "" "" "" "" 0 0 0 0 "" "" None 0.

(** The entry the middleware hands to [LogAsync] for that request. *)
Definition sample_entry : QueryLog.QueryLog :=
  match QueryLogMiddleware.QueryLogMiddleware sample_tracked sample_request sample_outcome with
  | [QueryLogMiddleware.CallLogAsync e] => e
  | _ => empty_log
  end.

Definition empty_stats : QueryLogStats :=
  mkStats 0 0 0 (QArith_base.inject_Z 0) 0 0 [] [].

End QueryLogScenarios.


(** * Properties *)

(** ** Provider selection *)
Module ProviderProofs.
Import Codegen Scenarios.
Local Open Scope string_scope.

Lemma known_eqb (p : string) :
  (String.eqb p ProviderOpenAI || String.eqb p ProviderClaude || String.eqb p ProviderGemini)
  = true <-> In p known.
Proof.
  unfold known; simpl.
  rewrite !Bool.orb_true_iff, !String.eqb_eq.
  split; intros H; [ | intuition ].
  destruct H as [[H | H] | H]; auto.
Qed.

(** C8: [ProviderFromEnv] depends on the configuration value alone (and on
    the fixed Unicode case table); after [TrimSpace] of [ToLower] it returns
    the value when it is one of "openai", "claude", "gemini" and "gemini"
    otherwise, in particular for the empty value; its result is always one
    of the known identifiers. *)
Theorem ProviderFromEnv_selects (lower_table : Z -> Z) :
  (forall env_value,
     let p := GoStrings.TrimSpace (GoStrings.ToLower lower_table env_value) in
     (In p known -> ProviderFromEnv lower_table env_value = p)
     /\ (~ In p known -> ProviderFromEnv lower_table env_value = ProviderGemini)
     /\ In (ProviderFromEnv lower_table env_value) known)
  /\ ProviderFromEnv lower_table "" = ProviderGemini
  /\ ProviderFromEnv lower_table " OpenAI" = ProviderOpenAI.
Proof.
  split; [ | split; reflexivity ].
  intros env_value p.
  unfold ProviderFromEnv; fold p.
  destruct (String.eqb p ProviderOpenAI || String.eqb p ProviderClaude
            || String.eqb p ProviderGemini) eqn:E.
  - apply known_eqb in E. repeat split; auto.
    intros Hn; contradiction.
  - repeat split.
    + intros Hin. apply known_eqb in Hin. congruence.
    + simpl; auto.
Qed.

End ProviderProofs.

(** ** Telemetry queue *)
Module QueryLogProofs.
Import QueryLog Scenarios.

Lemma LogAsync_chan {Repo} (s : Service Repo) (e : QueryLog) :
  LogAsync Repo s e = mkService (repo s) (fst (try_send (logChan s) e)).
Proof. unfold LogAsync; destruct (try_send (logChan s) e); reflexivity. Qed.

Lemma reachable_bounded {Repo} (s : Service Repo) :
  reachable Repo s -> cap (logChan s) = 1000%nat /\ (length (buf (logChan s)) <= 1000)%nat.
Proof.
  induction 1 as [r | s e _ [Hc Hl] | s e s' _ [Hc Hl] Hw].
  - simpl; lia.
  - rewrite LogAsync_chan; simpl; unfold try_send.
    destruct (Nat.ltb_spec (length (buf (logChan s))) (cap (logChan s))); simpl.
    + rewrite length_app; simpl; lia.
    + lia.
  - unfold worker_step, recv in Hw.
    destruct (buf (logChan s)) as [ | x rest] eqn:Eb; [discriminate | ].
    injection Hw as <- <-; simpl.
    simpl in Hl; lia.
Qed.

(** C6: on every service state reachable from [NewService] (channel
    capacity 1000), [LogAsync] always returns (it is a total function of the
    state: the [select] falls to [default] instead of waiting); when the queue
    holds 1000 entries the state is left unchanged and the entry is dropped,
    and below capacity the entry is appended to the queue. *)
Theorem LogAsync_never_blocks {Repo} (s : Service Repo) (e : QueryLog)
  (Hr : reachable Repo s) :
  cap (logChan s) = 1000%nat
  /\ (length (buf (logChan s)) = 1000%nat -> LogAsync Repo s e = s)
  /\ ((length (buf (logChan s)) < 1000)%nat ->
      LogAsync Repo s e = mkService (repo s) (mkChan 1000 (buf (logChan s) ++ [e]))).
Proof.
  destruct (reachable_bounded s Hr) as [Hc Hl].
  rewrite LogAsync_chan; unfold try_send; rewrite Hc.
  repeat split; auto; intros Hlen.
  - replace (length (buf (logChan s)) <? 1000)%nat with false
      by (symmetry; apply Nat.ltb_ge; lia).
    destruct s as [r [c b]]; simpl in *; subst; reflexivity.
  - replace (length (buf (logChan s)) <? 1000)%nat with true
      by (symmetry; apply Nat.ltb_lt; lia).
    reflexivity.
Qed.

Lemma LogAsync_never_blocks_witness :
  reachable unit (NewService unit tt)
  /\ LogAsync unit (NewService unit tt) sample_entry
     = mkService tt (mkChan 1000 [sample_entry]).
Proof.
  split; [apply reach_new | ].
  apply (LogAsync_never_blocks (NewService unit tt) sample_entry (reach_new unit tt)).
  simpl; apply Nat.ltb_lt; reflexivity.
Defined.

(** The queue filled to capacity by 1000 calls drops the next entry. *)
Lemma filled_length : length (buf (logChan (filled sample_entry))) = 1000%nat.
Proof. vm_compute; reflexivity. Qed.

Lemma filled_drops : LogAsync unit (filled sample_entry) sample_entry = filled sample_entry.
Proof. vm_compute; reflexivity. Qed.

Lemma filled_reachable (e : QueryLog) : reachable unit (filled e).
Proof.
  unfold filled.
  generalize (NewService unit tt) (reach_new unit tt).
  induction (repeat tt 1000) as [ | x l IH]; intros s Hs; simpl; auto.
  apply IH, reach_log, Hs.
Qed.

End QueryLogProofs.

(** ** Telemetry middleware *)
Module QueryLogMiddlewareProofs.
Import QueryLog Gin QueryLogMiddleware.
Local Open Scope string_scope.
Local Open Scope Z_scope.

Lemma substring_0_prefix (n : nat) (s : string) :
  String.prefix (substring 0 n s) s = true.
Proof.
  revert s; induction n as [ | n IH]; intros s; destruct s as [ | a s]; simpl; auto.
  destruct (Ascii.ascii_dec a a) as [_ | Hne]; [apply IH | congruence].
Qed.

Lemma substring_0_length (n : nat) (s : string) :
  (String.length (substring 0 n s) <= n)%nat.
Proof.
  revert s; induction n as [ | n IH]; intros s; destruct s as [ | a s]; simpl; try lia.
  specialize (IH s); lia.
Qed.

Lemma prefix_refl (s : string) : String.prefix s s = true.
Proof.
  induction s as [ | a s IH]; simpl; auto.
  destruct (Ascii.ascii_dec a a) as [_ | Hne]; [apply IH | congruence].
Qed.

Lemma truncateResponse_bound (val : string) :
  Z.of_nat (String.length (truncateResponse val 10000)) <= 10000
  /\ String.prefix (truncateResponse val 10000) val = true.
Proof.
  unfold truncateResponse.
  assert (E : (10000 <=? 0) = false) by reflexivity; rewrite E.
  destruct (Z.leb_spec (Z.of_nat (String.length val)) 10000) as [Hle | Hgt].
  - split; [lia | apply prefix_refl].
  - split; [ | apply substring_0_prefix].
    pose proof (substring_0_length (Z.to_nat 10000) val) as H.
    apply Nat2Z.inj_le in H; rewrite Z2Nat.id in H by lia; exact H.
Qed.

(** C7: every entry the middleware hands to [LogAsync] carries a non-zero
    user id and a [Response] that is the written body cut to at most 10000
    bytes (Go's [len] and slicing count bytes: a prefix of the body); when
    the context resolves no user id (it reads as 0) nothing is enqueued and
    the only effect, on a tracked endpoint, is the diagnostic log line. *)
Theorem QueryLogMiddleware_enqueued_entries (tracked : list string) (req : Request)
  (out : Outcome) :
  (forall e, In (CallLogAsync e) (QueryLogMiddleware tracked req out) ->
     UserID e <> 0
     /\ Response e = truncateResponse (written out) 10000
     /\ Z.of_nat (String.length (Response e)) <= 10000
     /\ String.prefix (Response e) (written out) = true)
  /\ (get_conv (ctx_keys out) "user_id" toInt64 0 (fun x => x) = 0 ->
      QueryLogMiddleware tracked req out = []
      \/ exists msg, QueryLogMiddleware tracked req out = [LogPrintf msg]).
Proof.
  unfold QueryLogMiddleware.
  set (path := if String.eqb (FullPath req) "" then URLPath req else FullPath req).
  destruct (isTrackedEndpoint path tracked); simpl.
  2: { split; [intros e [] | left; reflexivity]. }
  set (uid := get_conv (ctx_keys out) "user_id" toInt64 0 (fun x => x)).
  destruct (Z.eqb_spec uid 0) as [H0 | Hn0].
  - split; [intros e [He | []]; discriminate | intros _; right; eexists; reflexivity].
  - split; [ | intros H; contradiction].
    intros e [He | []]; injection He as <-; simpl.
    destruct (truncateResponse_bound (written out)) as [Hl Hp].
    repeat split; auto.
Qed.

End QueryLogMiddlewareProofs.

(** ** Credentials and API keys *)
Module AuthProofs.
Import Auth Scenarios.
Local Open Scope string_scope.
Local Open Scope Z_scope.

Lemma NoDup_map_inj {A B} (f : A -> B) (l : list A) (x y : A) :
  NoDup (map f l) -> In x l -> In y l -> f x = f y -> x = y.
Proof.
  induction l as [ | a l IH]; simpl; [tauto | ].
  intros Hnd Hx Hy Hf; inversion Hnd as [ | ? ? Hnin Hnd']; subst.
  destruct Hx as [<- | Hx], Hy as [<- | Hy]; auto.
  - exfalso; apply Hnin; rewrite Hf; apply in_map; auto.
  - exfalso; apply Hnin; rewrite <- Hf; apply in_map; auto.
Qed.

(** C5: with the database reachable, every failure of [AuthenticateUser]
    carries the one message "invalid username or password"; in particular
    an unknown user, an inactive user and a wrong password (usernames being
    [UNIQUE] in [users]) each fail with it. *)
Theorem AuthenticateUser_uniform_error (CompareHashAndPassword : string -> string -> bool)
  (db : DB) (username password : string)
  (Hdb : fault db = None) (Huniq : NoDup (map User.Username (users db))) :
  let auth := AuthenticateUser CompareHashAndPassword db username password in
  (forall e, auth = Err e -> e = "invalid username or password")
  /\ ((forall u, In u (users db) -> User.Username u <> username) ->
      auth = Err "invalid username or password")
  /\ (forall u, In u (users db) -> User.Username u = username ->
      User.IsActive u = false -> auth = Err "invalid username or password")
  /\ (forall u, In u (users db) -> User.Username u = username -> User.IsActive u = true ->
      CompareHashAndPassword (User.PasswordHash u) password = false ->
      auth = Err "invalid username or password").
Proof.
  intros auth; unfold auth, AuthenticateUser; rewrite Hdb.
  set (p := fun u => String.eqb (User.Username u) username && User.IsActive u).
  destruct (find p (users db)) as [x | ] eqn:Ef.
  2: { repeat split; auto; intros e He; injection He as <-; reflexivity. }
  apply find_some in Ef as [Hin Hp]; unfold p in Hp.
  apply andb_prop in Hp as [Hn Ha]; apply String.eqb_eq in Hn.
  repeat split.
  - intros e; destruct (negb _); [intros H; injection H as <-; reflexivity | discriminate].
  - intros Hnone; exfalso; exact (Hnone x Hin Hn).
  - intros u Hu Hun Hui.
    assert (x = u) as <- by (apply (NoDup_map_inj User.Username (users db)); congruence).
    congruence.
  - intros u Hu Hun _ Hc.
    assert (x = u) as <- by (apply (NoDup_map_inj User.Username (users db)); congruence).
    rewrite Hc; reflexivity.
Qed.

Lemma AuthenticateUser_uniform_error_witness :
  fault accounts_db = None /\ NoDup (map User.Username (users accounts_db))
  /\ AuthenticateUser sample_compare accounts_db "bob" "secret"
     = Err "invalid username or password".
Proof.
  assert (Hdb : fault accounts_db = None) by reflexivity.
  assert (Hu : NoDup (map User.Username (users accounts_db))).
  { simpl; repeat constructor; simpl; intros H; repeat destruct H as [H | H];
      try discriminate; contradiction. }
  split; [exact Hdb | split; [exact Hu | ]].
  destruct (AuthenticateUser_uniform_error sample_compare accounts_db "bob" "secret" Hdb Hu)
    as [_ [_ [Hinactive _]]].
  apply (Hinactive (User.mk 2 "bob" "hash-b" None 0 false RoleUser)); simpl; auto.
Defined.

(** [UPDATE ... WHERE p] run twice matches the same rows and leaves the
    table of the first run when [f] keeps [p] and is idempotent. *)
Lemma update_where_twice (p : APIKey.t -> bool) (f : APIKey.t -> APIKey.t) (ks : list APIKey.t) :
  (forall k, p (f k) = p k) -> (forall k, p k = true -> f (f k) = f k) ->
  update_where p f (fst (update_where p f ks)) = update_where p f ks.
Proof.
  intros Hp Hf; unfold update_where; simpl; f_equal.
  - rewrite map_map; apply map_ext_in; intros k _.
    destruct (p k) eqn:E; [rewrite Hp, E; apply Hf, E | rewrite E; reflexivity].
  - induction ks as [ | k ks IH]; simpl; auto.
    destruct (p k) eqn:E; simpl; [rewrite Hp, E | rewrite E]; simpl; auto.
Qed.

Lemma with_api_keys_twice (db : DB) (ks ks' : list APIKey.t) :
  with_api_keys (with_api_keys db ks) ks' = with_api_keys db ks'.
Proof. reflexivity. Qed.

(** C9: a second [RevokeAPIKey] on the same (user, key) returns what the
    first returned and leaves the database the first left; after a
    successful revocation every row with that id and owner is inactive. *)
Theorem RevokeAPIKey_idempotent (db : DB) (userID keyID : Z) :
  let '(r1, db1) := RevokeAPIKey db userID keyID in
  RevokeAPIKey db1 userID keyID = (r1, db1)
  /\ (r1 = Ok tt -> forall k, In k (api_keys db1) -> APIKey.ID k = keyID ->
        APIKey.UserID k = userID -> APIKey.IsActive k = false).
Proof.
  unfold RevokeAPIKey.
  destruct (fault db) as [e | ] eqn:Hf.
  { rewrite Hf; split; [reflexivity | discriminate]. }
  set (p := fun k => (APIKey.ID k =? keyID) && (APIKey.UserID k =? userID)).
  assert (Hp : forall k, p (set_inactive k) = p k) by reflexivity.
  assert (Hi : forall k, p k = true -> set_inactive (set_inactive k) = set_inactive k)
    by reflexivity.
  pose proof (update_where_twice p set_inactive (api_keys db) Hp Hi) as Htw.
  destruct (update_where p set_inactive (api_keys db)) as [ks n] eqn:Eu.
  simpl in Htw; unfold with_api_keys; cbn [fault api_keys]; rewrite Hf.
  assert (Hinact : forall k, In k ks -> APIKey.ID k = keyID ->
            APIKey.UserID k = userID -> APIKey.IsActive k = false).
  { intros k Hk Hid Huid.
    unfold update_where in Eu; injection Eu as <- _.
    apply in_map_iff in Hk as [k0 [<- Hk0]].
    destruct (p k0) eqn:E; [reflexivity | ].
    unfold p in E; rewrite Hid, Huid, !Z.eqb_refl in E; discriminate. }
  destruct (n =? 0)%nat eqn:En; cbv beta iota zeta delta [fault api_keys users];
    rewrite Htw, En; split; auto.
Qed.

(** C2 (the two validation paths disagree on revoked keys): on a store whose
    only key, the one presented, has been revoked, [ValidateAPIKey] fails
    with "API key has been revoked" while the [x-api-key] middleware
    [APIKeyAuth] lets the request through as that key's owner. *)
Theorem revoked_key_passes_APIKeyAuth (HashAPIKey : string -> string) (now : Z) :
  let key := "mk_abcdefghijklmnopqrstuvwxyz012345" in
  let db := revoked_db (HashAPIKey key) in
  fst (ValidateAPIKey HashAPIKey db now key) = Err "API key has been revoked"
  /\ fst (APIKeyAuth HashAPIKey db now key)
     = Next [("api_key_id", Gin.AInt 1); ("user_id", Gin.AInt 7)].
Proof.
  intros key db; unfold db, revoked_db, ValidateAPIKey, APIKeyAuth; simpl.
  rewrite String.eqb_refl; split; reflexivity.
Qed.

End AuthProofs.

(** ** Listing of API keys *)
Module ListingProofs.
Import Auth KeyLifecycle Scenarios.
Local Open Scope Z_scope.

Lemma insert_desc_perm (k : APIKey.t) (l : list APIKey.t) :
  Permutation (insert_desc k l) (k :: l).
Proof.
  induction l as [ | k' l IH]; simpl; auto.
  destruct (APIKey.CreatedAt k' <=? APIKey.CreatedAt k); auto.
  eapply perm_trans; [apply perm_skip, IH | apply perm_swap].
Qed.

Lemma order_by_created_desc_perm (l : list APIKey.t) :
  Permutation (order_by_created_desc l) l.
Proof.
  induction l as [ | k l IH]; simpl; auto.
  eapply perm_trans; [apply insert_desc_perm | apply perm_skip, IH].
Qed.

Lemma insert_desc_sorted (k : APIKey.t) (l : list APIKey.t) :
  Sorted (fun a b => APIKey.CreatedAt b <= APIKey.CreatedAt a) l ->
  Sorted (fun a b => APIKey.CreatedAt b <= APIKey.CreatedAt a) (insert_desc k l).
Proof.
  induction 1 as [ | k' rest Hs IH Hhd]; simpl; [repeat constructor | ].
  destruct (Z.leb_spec (APIKey.CreatedAt k') (APIKey.CreatedAt k)) as [Hle | Hgt].
  - constructor; [constructor; auto | constructor; exact Hle].
  - constructor; [exact IH | ].
    destruct rest as [ | k'' r]; simpl; [constructor; lia | ].
    inversion Hhd; subst.
    destruct (APIKey.CreatedAt k'' <=? APIKey.CreatedAt k); constructor; lia.
Qed.

Lemma order_by_created_desc_sorted (l : list APIKey.t) :
  Sorted (fun a b => APIKey.CreatedAt b <= APIKey.CreatedAt a) (order_by_created_desc l).
Proof.
  induction l as [ | k l IH]; simpl; [constructor | apply insert_desc_sorted, IH].
Qed.

Lemma to_item_sorted (l : list APIKey.t) :
  Sorted (fun a b => APIKey.CreatedAt b <= APIKey.CreatedAt a) l ->
  Sorted (fun a b => item_CreatedAt b <= item_CreatedAt a) (map to_item l).
Proof.
  induction 1 as [ | k rest Hs IH Hhd]; simpl; constructor; auto.
  destruct Hhd; simpl; constructor; auto.
Qed.

Lemma max_id_bound (ks : list APIKey.t) (r : APIKey.t) :
  In r ks -> APIKey.ID r <= fold_right Z.max 0 (map APIKey.ID ks).
Proof.
  induction ks as [ | k ks IH]; simpl; [tauto | ].
  intros [<- | Hin]; [lia | specialize (IH Hin); lia].
Qed.

(** Rewriting rows with a map that keeps ids and owners and never
    re-activates a row keeps [revoked_inv]. *)
Lemma revoked_inv_map (userID keyID : Z) (db : DB) (g : APIKey.t -> APIKey.t) :
  (forall r, APIKey.ID (g r) = APIKey.ID r /\ APIKey.UserID (g r) = APIKey.UserID r
             /\ (APIKey.IsActive r = false -> APIKey.IsActive (g r) = false)) ->
  revoked_inv userID keyID db ->
  revoked_inv userID keyID (with_api_keys db (map g (api_keys db))).
Proof.
  intros Hg [[r0 [Hr0 Hk0]] Hall]; split; simpl.
  - exists (g r0); split; [apply in_map, Hr0 | ].
    destruct (Hg r0) as [-> _]; exact Hk0.
  - intros r Hr Hid Huid.
    apply in_map_iff in Hr as [r' [<- Hr']].
    destruct (Hg r') as [Hi [Hu Ha]].
    apply Ha, Hall; congruence.
Qed.

Ltac keeps_rows :=
  intros r; match goal with |- context [if ?c then _ else _] => destruct c end;
  simpl; repeat split; auto.

Lemma step_revoked_inv (HashAPIKey : string -> string) (userID keyID : Z) (db : DB) (o : op) :
  revoked_inv userID keyID db -> revoked_inv userID keyID (step HashAPIKey db o).
Proof.
  intros Hinv; destruct o as [now fmt gen u name | u k | now key | now key]; simpl.
  - unfold CreateAPIKey; destruct (fault db); [exact Hinv | ].
    match goal with |- context [match ?x with Ok _ => _ | Err _ => _ end] =>
      destruct x as [apiKey | e] end; [ | exact Hinv].
    destruct Hinv as [[r0 [Hr0 Hk0]] Hall]; split; cbn [with_api_keys api_keys].
    + exists r0; split; [apply in_or_app; left; exact Hr0 | exact Hk0].
    + intros r Hr Hid Huid; apply in_app_or in Hr as [Hr | [<- | []]].
      * apply Hall; auto.
      * cbn [APIKey.ID] in Hid; pose proof (max_id_bound (api_keys db) r0 Hr0); lia.
  - unfold RevokeAPIKey; destruct (fault db); [exact Hinv | ].
    destruct (update_where _ _ _) as [ks n] eqn:Eu.
    unfold update_where in Eu; injection Eu as Eks _; subst ks.
    destruct (n =? 0)%nat; simpl; apply revoked_inv_map; auto; keeps_rows.
  - unfold ValidateAPIKey; destruct (fault db); [exact Hinv | ].
    destruct (find _ _) as [k | ]; [ | exact Hinv].
    destruct (negb (APIKey.IsActive k)); [exact Hinv | ].
    destruct (match APIKey.ExpiresAt k with Some t => t <? now | None => false end);
      [exact Hinv | ].
    destruct (update_where _ _ _) as [ks n] eqn:Eu.
    unfold update_where in Eu; injection Eu as Eks _; subst ks.
    simpl; apply revoked_inv_map; auto; keeps_rows.
  - unfold APIKeyAuth; destruct (String.eqb key EmptyString); [exact Hinv | ].
    destruct (fault db); [exact Hinv | ].
    destruct (find _ _) as [k | ]; [ | exact Hinv].
    destruct (match APIKey.ExpiresAt k with Some t => t <? now | None => false end);
      [exact Hinv | ].
    destruct (update_where _ _ _) as [ks n] eqn:Eu.
    unfold update_where in Eu; injection Eu as Eks _; subst ks.
    simpl; apply revoked_inv_map; auto; keeps_rows.
Qed.

Lemma run_ops_revoked_inv (HashAPIKey : string -> string) (userID keyID : Z)
  (ops : list op) (db : DB) :
  revoked_inv userID keyID db -> revoked_inv userID keyID (run_ops HashAPIKey db ops).
Proof.
  unfold run_ops; revert db; induction ops as [ | o ops IH]; simpl; auto.
  intros db H; apply IH, step_revoked_inv, H.
Qed.

Lemma RevokeAPIKey_revoked_inv (db db1 : DB) (userID keyID : Z) :
  RevokeAPIKey db userID keyID = (Ok tt, db1) -> revoked_inv userID keyID db1.
Proof.
  unfold RevokeAPIKey; destruct (fault db); [discriminate | ].
  set (p := fun k => (APIKey.ID k =? keyID) && (APIKey.UserID k =? userID)).
  unfold update_where.
  destruct (length (filter p (api_keys db)) =? 0)%nat eqn:En; [discriminate | ].
  intros H; injection H as <-; split; simpl.
  - destruct (filter p (api_keys db)) as [ | r rest] eqn:Ef; [discriminate | ].
    assert (Hr : In r (filter p (api_keys db))) by (rewrite Ef; left; reflexivity).
    apply filter_In in Hr as [Hr Hp].
    exists (set_inactive r); split.
    + apply in_map_iff; exists r; rewrite Hp; auto.
    + unfold p in Hp; apply andb_prop in Hp as [Hp _]; apply Z.eqb_eq in Hp.
      simpl; lia.
  - intros k Hk Hid Huid.
    apply in_map_iff in Hk as [k0 [<- Hk0]].
    destruct (p k0) eqn:E; [reflexivity | ].
    unfold p in E; rewrite Hid, Huid, !Z.eqb_refl in E; discriminate.
Qed.

(** C10: every listing [GetUserAPIKeys] returns holds exactly the user's
    active keys, each with [IsActive = true], ordered by [created_at]
    descending; and a key the user revoked with [RevokeAPIKey] is absent
    from every later listing of that user, whatever creations, revocations
    and validations (by [ValidateAPIKey] or the [x-api-key] middleware) run
    in between. *)
Theorem GetUserAPIKeys_active_desc :
  (forall (db : DB) (userID : Z) (items : list APIKeyListItem),
     GetUserAPIKeys db userID = Ok items ->
     Forall (fun it => item_IsActive it = true) items
     /\ Sorted (fun a b => item_CreatedAt b <= item_CreatedAt a) items
     /\ Permutation items
          (map to_item (filter (fun k => (APIKey.UserID k =? userID) && APIKey.IsActive k)
                          (api_keys db))))
  /\ (forall (HashAPIKey : string -> string) (db db1 : DB) (userID keyID : Z)
        (ops : list op) (items : list APIKeyListItem),
        RevokeAPIKey db userID keyID = (Ok tt, db1) ->
        GetUserAPIKeys (run_ops HashAPIKey db1 ops) userID = Ok items ->
        forall it, In it items -> item_ID it <> keyID).
Proof.
  split.
  - intros db userID items; unfold GetUserAPIKeys.
    destruct (fault db); [discriminate | ].
    intros H; injection H as <-.
    split; [ | split].
    + apply Forall_forall; intros it Hit.
      apply in_map_iff in Hit as [r [<- Hr]].
      apply (Permutation_in _ (order_by_created_desc_perm _)) in Hr.
      apply filter_In in Hr as [_ Hq]; apply andb_prop in Hq as [_ Ha]; exact Ha.
    + apply to_item_sorted, order_by_created_desc_sorted.
    + apply Permutation_map, order_by_created_desc_perm.
  - intros HashAPIKey db db1 userID keyID ops items Hrev Hget it Hit.
    pose proof (run_ops_revoked_inv HashAPIKey userID keyID ops db1
                  (RevokeAPIKey_revoked_inv db db1 userID keyID Hrev)) as [_ Hall].
    revert Hget; unfold GetUserAPIKeys.
    destruct (fault (run_ops HashAPIKey db1 ops)); [discriminate | ].
    intros H; injection H as <-.
    apply in_map_iff in Hit as [r [<- Hr]].
    apply (Permutation_in _ (order_by_created_desc_perm _)) in Hr.
    apply filter_In in Hr as [Hr Hq]; apply andb_prop in Hq as [Hu Ha].
    apply Z.eqb_eq in Hu; simpl; intros Hid.
    rewrite (Hall r Hr Hid Hu) in Ha; discriminate.
Qed.

End ListingProofs.

(** ** Retrieval entrypoint *)
Module RagProofs.
Import Rag.
Local Open Scope string_scope.
Local Open Scope Z_scope.

(** C1 (as the code has it): at [Service.RetrieveContext], [n_results = 0]
    becomes 5; a value outside 1–20 fails with "n_results must be between 1
    and 20" whatever the retriever would do, so the bridge is not called; a
    value in 1–20 goes unchanged to the bridge [PythonClient.Retrieve], which
    fails on an empty query and otherwise caps the count at 10 (11–20 reach
    the subprocess as 10) and sends it as both [n_results] and
    [docs_results]; the entrypoint's result is then the subprocess's. *)
Theorem RetrieveContext_n_results (run_script : RAGRequest -> result RAGResponse)
  (query : string) (n : Z) :
  (n = 0 -> RetrieveContext run_script query n = Retrieve run_script query 5)
  /\ (n <> 0 -> n < 1 \/ 20 < n ->
      forall run_script', RetrieveContext run_script' query n
                          = Err "n_results must be between 1 and 20")
  /\ (1 <= n <= 20 ->
      RetrieveContext run_script query n = Retrieve run_script query n
      /\ subprocess_request query n
         = if String.eqb query "" then None
           else Some (mkRAGRequest query (Z.min n 10) (Z.min n 10)))
  /\ (forall r, subprocess_request query n = Some r ->
      RetrieveContext run_script query n = finish (run_script r))
  /\ (subprocess_request query n = None ->
      exists e, RetrieveContext run_script query n = Err e).
Proof.
  unfold RetrieveContext, subprocess_request.
  split; [ | split; [ | split; [ | split]]]; [unfold check_n_results .. | | ].
  - intros ->; reflexivity.
  - intros Hn Hr run_script'.
    rewrite (proj2 (Z.eqb_neq n 0) Hn).
    replace ((n <? 1) || (20 <? n)) with true; [reflexivity | ].
    destruct Hr as [Hr | Hr]; symmetry; apply Bool.orb_true_iff;
      [left; apply Z.ltb_lt | right; apply Z.ltb_lt]; lia.
  - intros Hr; split.
    { rewrite (proj2 (Z.eqb_neq n 0)) by lia.
      replace ((n <? 1) || (20 <? n)) with false; [reflexivity | ].
      symmetry; apply Bool.orb_false_iff; split; apply Z.ltb_ge; lia. }
    rewrite (proj2 (Z.eqb_neq n 0)) by lia.
    replace ((n <? 1) || (20 <? n)) with false.
    2: { symmetry; apply Bool.orb_false_iff; split; apply Z.ltb_ge; lia. }
    unfold retrieve_request.
    destruct (String.eqb query ""); [reflexivity | ].
    replace (if (n <? 1) || (10 <? n) then 10 else n) with (Z.min n 10); [reflexivity | ].
    destruct (Z.ltb_spec n 1); [lia | ]; destruct (Z.ltb_spec 10 n); simpl; lia.
  - intros r.
    destruct (check_n_results n) as [m | e]; [ | discriminate].
    unfold Retrieve; destruct (retrieve_request query m); [ | discriminate].
    intros H; injection H as ->; reflexivity.
  - destruct (check_n_results n) as [m | e]; [ | intros; eexists; reflexivity].
    unfold Retrieve; destruct (retrieve_request query m); [discriminate | ].
    intros; eexists; reflexivity.
Qed.

(** Against C1 as stated: 20 is accepted at the entrypoint but the
    subprocess is asked for 10 results, and an accepted count with an empty
    query fails at the bridge whatever the subprocess would answer. *)
Lemma n_results_20_reaches_subprocess_as_10 :
  subprocess_request "clarity map" 20 = Some (mkRAGRequest "clarity map" 10 10)
  /\ check_n_results 20 = Ok 20
  /\ (forall run_script, RetrieveContext run_script "" 20 = Err "query cannot be empty").
Proof. repeat split. Qed.

End RagProofs.

(** ** Chat completions *)
Module ChatProofs.
Import Conversation Chat Scenarios.
Local Open Scope string_scope.
Local Open Scope Z_scope.

Section Handler.
Variable Float : Type.
Variable upper_table : Z -> Z.
Variable Get : Z -> Z -> result Conversation.
Variable Save : Conversation -> result Conversation.
Variable getRAGService : result unit.
Variable RetrieveContext : string -> Z -> result Rag.RAGResponse.
Variable provider : string.
Variable getCodegenService : string -> result unit.
Variable GenerateCode : string -> string -> list string -> list string -> Float -> Z
                        -> result CodeGenerationResponse.
Variable uuid : string.
Variable now_unix : Z.

(** C4: when [ChatCompletions] answers 200, with [r] the generation result,
    the assistant text is [r]'s explanation when its code is empty and
    otherwise the explanation, a blank line, and a [```clarity] fence around
    the code; it is the single choice of the reply; and the conversation
    handed to [repo.Save] has the loaded history followed by exactly two new
    turns: the user turn with the query (the last user message) and then the
    assistant turn with that text. *)
Theorem ChatCompletions_assistant_turns (c : Gin.keys) (req : ChatCompletionRequest Float)
  (resp : ChatCompletionResponse) (saved : Conversation)
  (H : ChatCompletions Float upper_table Get Save getRAGService RetrieveContext provider
         getCodegenService GenerateCode uuid now_unix c req = (ReplyOK resp, Some saved)) :
  exists userID prior r,
    extractUserID c = Some userID
    /\ loadConversation Get (req_ConversationID req) userID = Ok prior
    /\ (exists q ctx docs, GenerateCode provider q ctx docs (Temperature req) (MaxTokens req) = Ok r)
    /\ last_user_query (Messages req) <> ""
    /\ assistant_message r
       = (if String.eqb (Code r) "" then Explanation r
          else Explanation r ++ String "010"%char (String "010"%char ("```clarity"
               ++ String "010"%char (Code r ++ String "010"%char "```"))))
    /\ Choices resp = [mkChoice 0 (mkChatMessage "assistant" (assistant_message r)) "stop"]
    /\ elems (History saved)
       = (elems (History prior)
          ++ [mkTurn "user" (last_user_query (Messages req));
              mkTurn "assistant" (assistant_message r)])%list.
Proof.
  unfold ChatCompletions in H.
  destruct (Messages req) as [ | m ms] eqn:Em; [discriminate | ].
  destruct (String.eqb (last_user_query (m :: ms)) "") eqn:Eq; [discriminate | ].
  destruct (extractUserID c) as [userID | ] eqn:Eu; [ | discriminate].
  destruct (loadConversation Get (req_ConversationID req) userID) as [prior | e] eqn:El.
  2: { destruct (String.eqb e _); discriminate. }
  destruct getRAGService; [ | discriminate].
  destruct (RetrieveContext _ _) as [rag | e]; [ | discriminate].
  destruct (getCodegenService provider); [ | discriminate].
  destruct (GenerateCode _ _ _ _ _ _) as [r | e] eqn:Eg; [ | discriminate].
  destruct (Save _) as [saved' | e]; [ | discriminate].
  injection H as <- <-.
  exists userID, prior, r.
  repeat split; auto.
  - do 3 eexists; exact Eg.
  - intros Hq; rewrite Hq in Eq; discriminate.
  - unfold assistant_message; destruct (String.eqb (Code r) ""); reflexivity.
  - simpl; rewrite <- app_assoc; reflexivity.
Qed.

End Handler.

Lemma ChatCompletions_assistant_turns_witness :
  exists resp saved,
    chat_run = (ReplyOK resp, Some saved)
    /\ exists userID prior r,
      extractUserID chat_keys = Some userID
      /\ loadConversation chat_get (req_ConversationID chat_req) userID = Ok prior
      /\ (exists q ctx docs, chat_generate Codegen.ProviderGemini q ctx docs
                               (Temperature chat_req) (MaxTokens chat_req) = Ok r)
      /\ last_user_query (Messages chat_req) <> ""
      /\ assistant_message r
         = (if String.eqb (Code r) "" then Explanation r
            else Explanation r ++ String "010"%char (String "010"%char ("```clarity"
                 ++ String "010"%char (Code r ++ String "010"%char "```"))))
      /\ Choices resp = [mkChoice 0 (mkChatMessage "assistant" (assistant_message r)) "stop"]
      /\ elems (History saved)
         = (elems (History prior)
            ++ [mkTurn "user" (last_user_query (Messages chat_req));
                mkTurn "assistant" (assistant_message r)])%list.
Proof.
  unfold chat_run.
  destruct (ChatCompletions _ _ _ _ _ _ _ _ _ _ _ _ _) as [[st er | resp] [saved | ]] eqn:E;
    try (vm_compute in E; discriminate).
  exists resp, saved; split; [reflexivity | ].
  exact (ChatCompletions_assistant_turns unit (fun r => r) chat_get chat_save (Ok tt)
           chat_retrieve Codegen.ProviderGemini (fun _ => Ok tt) chat_generate
           "0000" 1700000000 chat_keys chat_req resp saved E).
Defined.

End ChatProofs.

(** ** UTF-8 decoding and encoding *)
Module Utf8Proofs.
Import Utf8.

Lemma land_ones_mod (x n : Z) : 0 <= n -> Z.land x (Z.ones n) = x mod 2 ^ n.
Proof. apply Z.land_ones. Qed.

Lemma land_mask (x : Z) :
  Z.land x 7 = x mod 8 /\ Z.land x 15 = x mod 16 /\ Z.land x 31 = x mod 32
  /\ Z.land x 63 = x mod 64 /\ Z.land x 255 = x mod 256.
Proof.
  repeat split;
    [change 7 with (Z.ones 3) | change 15 with (Z.ones 4) | change 31 with (Z.ones 5)
    | change 63 with (Z.ones 6) | change 255 with (Z.ones 8)];
    apply land_ones_mod; lia.
Qed.

Lemma lor_add (a b k : Z) : 0 <= k -> 0 <= b < 2 ^ k -> Z.lor (a * 2 ^ k) b = a * 2 ^ k + b.
Proof.
  intros Hk Hb.
  assert (H0 : Z.land (a * 2 ^ k) b = 0).
  { apply Z.bits_inj'; intros i Hi; rewrite Z.land_spec, Z.bits_0.
    rewrite <- Z.shiftl_mul_pow2 by exact Hk.
    destruct (Z.lt_ge_cases i k) as [Hik | Hik].
    - rewrite Z.shiftl_spec_low by lia; reflexivity.
    - destruct (Z.eq_dec b 0) as [-> | Hb0]; [rewrite Z.bits_0; apply andb_false_r | ].
      rewrite (Z.bits_above_log2 b i); [apply andb_false_r | lia | ].
      assert (Z.log2 b < k) by (apply Z.log2_lt_pow2; lia); lia. }
  rewrite <- Z.lxor_lor by exact H0.
  rewrite <- Z.add_nocarry_lxor by exact H0; reflexivity.
Qed.

Ltac by_cases :=
  repeat match goal with
  | |- context [?a <? ?b] => destruct (Z.ltb_spec a b)
  | |- context [?a =? ?b] => destruct (Z.eqb_spec a b)
  | |- context [?a <=? ?b] => destruct (Z.leb_spec a b)
  end; try (exfalso; lia).

Lemma DecodeRune_2 (b0 b1 : Z) (rest : list Z) :
  194 <= b0 < 224 -> 128 <= b1 < 192 ->
  DecodeRune (b0 :: b1 :: rest) = ((b0 - 192) * 64 + (b1 - 128), 2%nat).
Proof.
  intros H0 H1; unfold DecodeRune, mask2, maskx.
  replace (first b0) with (LSeq 2 128 191) by (unfold first; by_cases; reflexivity).
  cbn [length nth Nat.ltb Nat.leb].
  replace (out_of 128 191 b1) with false by (unfold out_of; by_cases; reflexivity).
  cbn [Nat.leb]. destruct (land_mask b0) as [_ [_ [-> _]]]; destruct (land_mask b1) as [_ [_ [_ [-> _]]]].
  rewrite Z.shiftl_mul_pow2 by lia.
  rewrite lor_add by (change (2 ^ 6) with 64; Z.div_mod_to_equations; lia).
  f_equal; change (2 ^ 6) with 64; Z.div_mod_to_equations; lia.
Qed.

Lemma DecodeRune_3 (b0 b1 b2 : Z) (rest : list Z) :
  224 <= b0 < 240 -> 128 <= b1 < 192 -> (b0 = 224 -> 160 <= b1) -> (b0 = 237 -> b1 < 160) ->
  128 <= b2 < 192 ->
  DecodeRune (b0 :: b1 :: b2 :: rest)
  = ((b0 - 224) * 4096 + (b1 - 128) * 64 + (b2 - 128), 3%nat).
Proof.
  intros H0 H1 Hlo Hhi H2; unfold DecodeRune, mask3, maskx, locb, hicb.
  assert (Hf : exists lo hi, first b0 = LSeq 3 lo hi /\ out_of lo hi b1 = false).
  { unfold first, out_of; by_cases; do 2 eexists; split; try reflexivity; by_cases;
      reflexivity. }
  destruct Hf as [lo [hi [-> Ho]]].
  cbn [length nth Nat.ltb Nat.leb]; rewrite Ho.
  replace (out_of 128 191 b2) with false by (unfold out_of; by_cases; reflexivity).
  cbn [Nat.leb].
  destruct (land_mask b0) as [_ [-> _]].
  destruct (land_mask b1) as [_ [_ [_ [-> _]]]]; destruct (land_mask b2) as [_ [_ [_ [-> _]]]].
  rewrite !Z.shiftl_mul_pow2 by lia.
  rewrite (lor_add (b0 mod 16) (b1 mod 64 * 2 ^ 6) 12)
    by (change (2 ^ 12) with 4096; change (2 ^ 6) with 64; Z.div_mod_to_equations; lia).
  replace (b0 mod 16 * 2 ^ 12 + b1 mod 64 * 2 ^ 6) with ((b0 mod 16 * 64 + b1 mod 64) * 2 ^ 6)
    by (change (2 ^ 12) with 4096; change (2 ^ 6) with 64; ring).
  rewrite lor_add by (change (2 ^ 6) with 64; Z.div_mod_to_equations; lia).
  f_equal; change (2 ^ 6) with 64; Z.div_mod_to_equations; lia.
Qed.

Lemma DecodeRune_4 (b0 b1 b2 b3 : Z) (rest : list Z) :
  240 <= b0 < 245 -> 128 <= b1 < 192 -> (b0 = 240 -> 144 <= b1) -> (b0 = 244 -> b1 < 144) ->
  128 <= b2 < 192 -> 128 <= b3 < 192 ->
  DecodeRune (b0 :: b1 :: b2 :: b3 :: rest)
  = ((b0 - 240) * 262144 + (b1 - 128) * 4096 + (b2 - 128) * 64 + (b3 - 128), 4%nat).
Proof.
  intros H0 H1 Hlo Hhi H2 H3; unfold DecodeRune, mask4, maskx, locb, hicb.
  assert (Hf : exists lo hi, first b0 = LSeq 4 lo hi /\ out_of lo hi b1 = false).
  { unfold first, out_of; by_cases; do 2 eexists; split; try reflexivity; by_cases;
      reflexivity. }
  destruct Hf as [lo [hi [-> Ho]]].
  cbn [length nth Nat.ltb Nat.leb]; rewrite Ho.
  replace (out_of 128 191 b2) with false by (unfold out_of; by_cases; reflexivity).
  replace (out_of 128 191 b3) with false by (unfold out_of; by_cases; reflexivity).
  cbn [Nat.leb].
  destruct (land_mask b0) as [-> _].
  destruct (land_mask b1) as [_ [_ [_ [-> _]]]]; destruct (land_mask b2) as [_ [_ [_ [-> _]]]].
  destruct (land_mask b3) as [_ [_ [_ [-> _]]]].
  rewrite !Z.shiftl_mul_pow2 by lia.
  rewrite (lor_add (b0 mod 8) (b1 mod 64 * 2 ^ 12) 18)
    by (change (2 ^ 18) with 262144; change (2 ^ 12) with 4096; Z.div_mod_to_equations; lia).
  replace (b0 mod 8 * 2 ^ 18 + b1 mod 64 * 2 ^ 12) with ((b0 mod 8 * 64 + b1 mod 64) * 2 ^ 12)
    by (change (2 ^ 18) with 262144; change (2 ^ 12) with 4096; ring).
  rewrite (lor_add (b0 mod 8 * 64 + b1 mod 64) (b2 mod 64 * 2 ^ 6) 12)
    by (change (2 ^ 12) with 4096; change (2 ^ 6) with 64; Z.div_mod_to_equations; lia).
  replace ((b0 mod 8 * 64 + b1 mod 64) * 2 ^ 12 + b2 mod 64 * 2 ^ 6)
    with ((b0 mod 8 * 4096 + b1 mod 64 * 64 + b2 mod 64) * 2 ^ 6)
    by (change (2 ^ 12) with 4096; change (2 ^ 6) with 64; ring).
  rewrite lor_add by (change (2 ^ 6) with 64; Z.div_mod_to_equations; lia).
  f_equal; change (2 ^ 6) with 64; Z.div_mod_to_equations; lia.
Qed.

Lemma AppendRune_2 (r : Z) : 128 <= r <= 2047 -> AppendRune r = [192 + r / 64; 128 + r mod 64].
Proof.
  intros Hr; unfold AppendRune, byte_of, rune1Max, rune2Max, rune3Max, surrogateMin,
    surrogateMax, MaxRune, t2, tx, maskx.
  rewrite (Z.mod_small r (2 ^ 32)) by (change (2 ^ 32) with 4294967296; lia).
  by_cases; cbn [orb andb]; try (exfalso; lia).
  all: destruct (land_mask (Z.shiftr r 6)) as [_ [_ [_ [_ ->]]]];
    destruct (land_mask r) as [_ [_ [_ [_ ->]]]];
    destruct (land_mask (r mod 256)) as [_ [_ [_ [-> _]]]];
    rewrite Z.shiftr_div_pow2 by lia; change (2 ^ 6) with 64;
    change 192 with (3 * 2 ^ 6); change 128 with (2 * 2 ^ 6);
    rewrite !lor_add by (change (2 ^ 6) with 64; Z.div_mod_to_equations; lia);
    change (2 ^ 6) with 64; f_equal; [ | f_equal]; Z.div_mod_to_equations; lia.
Qed.

Lemma AppendRune_3 (r : Z) : 2048 <= r <= 65535 -> ~ (55296 <= r <= 57343) ->
  AppendRune r = [224 + r / 4096; 128 + (r / 64) mod 64; 128 + r mod 64].
Proof.
  intros Hr Hs; unfold AppendRune, byte_of, rune1Max, rune2Max, rune3Max, surrogateMin,
    surrogateMax, t3, tx, maskx.
  rewrite (Z.mod_small r (2 ^ 32)) by (change (2 ^ 32) with 4294967296; lia).
  by_cases; cbn [orb andb]; try (exfalso; lia).
  all: destruct (land_mask (Z.shiftr r 12)) as [_ [_ [_ [_ ->]]]];
    destruct (land_mask (Z.shiftr r 6)) as [_ [_ [_ [_ ->]]]];
    destruct (land_mask r) as [_ [_ [_ [_ ->]]]];
    destruct (land_mask (Z.shiftr r 6 mod 256)) as [_ [_ [_ [-> _]]]];
    destruct (land_mask (r mod 256)) as [_ [_ [_ [-> _]]]];
    rewrite !Z.shiftr_div_pow2 by lia; change (2 ^ 6) with 64; change (2 ^ 12) with 4096;
    change 224 with (14 * 2 ^ 4); change 128 with (2 * 2 ^ 6);
    rewrite !lor_add by (change (2 ^ 6) with 64; change (2 ^ 4) with 16; Z.div_mod_to_equations; lia);
    change (2 ^ 6) with 64; change (2 ^ 4) with 16;
    f_equal; [ | f_equal; [ | f_equal]]; Z.div_mod_to_equations; lia.
Qed.

Lemma AppendRune_4 (r : Z) : 65536 <= r <= 1114111 ->
  AppendRune r
  = [240 + r / 262144; 128 + (r / 4096) mod 64; 128 + (r / 64) mod 64; 128 + r mod 64].
Proof.
  intros Hr; unfold AppendRune, byte_of, rune1Max, rune2Max, rune3Max, surrogateMin,
    surrogateMax, MaxRune, t4, tx, maskx.
  rewrite (Z.mod_small r (2 ^ 32)) by (change (2 ^ 32) with 4294967296; lia).
  by_cases; cbn [orb andb]; try (exfalso; lia).
  destruct (land_mask (Z.shiftr r 18)) as [_ [_ [_ [_ ->]]]].
  destruct (land_mask (Z.shiftr r 12)) as [_ [_ [_ [_ ->]]]].
  destruct (land_mask (Z.shiftr r 6)) as [_ [_ [_ [_ ->]]]].
  destruct (land_mask r) as [_ [_ [_ [_ ->]]]].
  destruct (land_mask (Z.shiftr r 12 mod 256)) as [_ [_ [_ [-> _]]]].
  destruct (land_mask (Z.shiftr r 6 mod 256)) as [_ [_ [_ [-> _]]]].
  destruct (land_mask (r mod 256)) as [_ [_ [_ [-> _]]]].
  rewrite !Z.shiftr_div_pow2 by lia; change (2 ^ 6) with 64; change (2 ^ 12) with 4096;
    change (2 ^ 18) with 262144.
  change 240 with (30 * 2 ^ 3); change 128 with (2 * 2 ^ 6).
  rewrite !lor_add by (change (2 ^ 6) with 64; change (2 ^ 3) with 8; Z.div_mod_to_equations; lia).
  change (2 ^ 6) with 64; change (2 ^ 3) with 8.
  f_equal; [ | f_equal; [ | f_equal; [ | f_equal]]]; Z.div_mod_to_equations; lia.
Qed.

Lemma first_ascii (b : Z) : first b = LAscii -> b < 128.
Proof. unfold first; by_cases; intros E; try discriminate; lia. Qed.

Lemma first_seq (b : Z) (sz : nat) (lo hi : Z) : first b = LSeq sz lo hi ->
  (sz = 2%nat /\ 194 <= b < 224 /\ lo = 128 /\ hi = 191)
  \/ (sz = 3%nat /\ 224 <= b < 240 /\ lo = (if b =? 224 then 160 else 128)
      /\ hi = (if b =? 237 then 159 else 191))
  \/ (sz = 4%nat /\ 240 <= b < 245 /\ lo = (if b =? 240 then 144 else 128)
      /\ hi = (if b =? 244 then 143 else 191)).
Proof.
  unfold first; by_cases; intros E; try discriminate; injection E as <- <- <-;
    first [ left; repeat split; lia
          | right; left; repeat split; try lia; by_cases; cbn; lia
          | right; right; repeat split; try lia; by_cases; cbn; lia ].
Qed.

Lemma out_of_false (lo hi b : Z) : out_of lo hi b = false -> lo <= b <= hi.
Proof. unfold out_of; by_cases; simpl; intros E; try discriminate; lia. Qed.

(** A multi-byte rune that decodes without error: its bytes, re-encoded,
    are the ones read, and the decoder reads only them. *)
Lemma DecodeRune_multi (b0 : Z) (rest : list Z) (c : Z) (size : nat) :
  128 <= b0 -> DecodeRune (b0 :: rest) = (c, size) -> ~ (c = RuneError /\ size = 1%nat) ->
  (1 <= size <= length (b0 :: rest))%nat
  /\ AppendRune c = firstn size (b0 :: rest)
  /\ (forall X, DecodeRune (firstn size (b0 :: rest) ++ X) = (c, size))
  /\ Forall (fun b => 128 <= b < 256) (firstn size (b0 :: rest)).
Proof.
  intros H0 Hd Hne; pose proof Hd as Hd2.
  unfold DecodeRune in Hd2; destruct (first b0) as [ | | sz lo hi] eqn:Ef.
  - apply first_ascii in Ef; lia.
  - injection Hd2 as <- <-; tauto.
  - destruct (length (b0 :: rest) <? sz)%nat eqn:El;
      [injection Hd2 as <- <-; tauto | apply Nat.ltb_ge in El].
    destruct (out_of lo hi (nth 1 (b0 :: rest) 0)) eqn:Eo1; [injection Hd2 as <- <-; tauto | ].
    apply out_of_false in Eo1.
    destruct (first_seq _ _ _ _ Ef) as [(-> & Hb & -> & ->) | [(-> & Hb & Hlo & Hhi) | (-> & Hb & Hlo & Hhi)]].
    + destruct rest as [ | b1 rest]; [simpl in El; lia | ]; cbn [nth] in Eo1.
      rewrite DecodeRune_2 in Hd by lia; injection Hd as <- <-.
      cbn [firstn app]; rewrite AppendRune_2 by lia.
      repeat split; try (simpl; lia).
      * f_equal; [ | f_equal]; Z.div_mod_to_equations; lia.
      * intros X; apply DecodeRune_2; lia.
      * repeat constructor; lia.
    + destruct rest as [ | b1 [ | b2 rest]]; try (simpl in El; lia); cbn [nth] in Eo1, Hd2.
      destruct (out_of locb hicb b2) eqn:Eo2; [injection Hd2 as <- <-; tauto | ].
      apply out_of_false in Eo2; unfold locb, hicb in Eo2.
      assert (Hc1 : b0 = 224 -> 160 <= b1) by (intros ->; simpl in Hlo; lia).
      assert (Hc2 : b0 = 237 -> b1 < 160) by (intros ->; simpl in Hhi; lia).
      assert (Hr1 : 128 <= b1 < 192) by (destruct (b0 =? 224), (b0 =? 237); lia).
      rewrite DecodeRune_3 in Hd by lia; injection Hd as <- <-.
      cbn [firstn app]; rewrite AppendRune_3.
      2: lia.
      2: destruct (Z.eq_dec b0 237); [subst; lia | lia].
      repeat split; try (simpl; lia).
      * f_equal; [ | f_equal; [ | f_equal]]; Z.div_mod_to_equations; lia.
      * intros X; apply DecodeRune_3; lia.
      * repeat constructor; lia.
    + destruct rest as [ | b1 [ | b2 [ | b3 rest]]]; try (simpl in El; lia); cbn [nth] in Eo1, Hd2.
      destruct (out_of locb hicb b2) eqn:Eo2; [injection Hd2 as <- <-; tauto | ].
      destruct (out_of locb hicb b3) eqn:Eo3; [injection Hd2 as <- <-; tauto | ].
      apply out_of_false in Eo2; apply out_of_false in Eo3; unfold locb, hicb in Eo2, Eo3.
      assert (Hc1 : b0 = 240 -> 144 <= b1) by (intros ->; simpl in Hlo; lia).
      assert (Hc2 : b0 = 244 -> b1 < 144) by (intros ->; simpl in Hhi; lia).
      assert (Hr1 : 128 <= b1 < 192) by (destruct (b0 =? 240), (b0 =? 244); lia).
      rewrite DecodeRune_4 in Hd by lia; injection Hd as <- <-.
      cbn [firstn app]; rewrite AppendRune_4.
      2: destruct (Z.eq_dec b0 244); [subst; lia | lia].
      repeat split; try (simpl; lia).
      * f_equal; [ | f_equal; [ | f_equal; [ | f_equal]]]; Z.div_mod_to_equations; lia.
      * intros X; apply DecodeRune_4; lia.
      * repeat constructor; lia.
Qed.

End Utf8Proofs.

(** ** String literals of [encoding/json] *)
Module JsonProofs.
Import Utf8 GoJSON Utf8Proofs.
Local Open Scope Z_scope.

Lemma enum_ascii (P : Z -> Prop) :
  (forall n : nat, (n < 128)%nat -> P (Z.of_nat n)) -> forall b, 0 <= b < 128 -> P b.
Proof.
  intros H b Hb; rewrite <- (Z2Nat.id b) by lia; apply H; lia.
Qed.

Ltac enum128 := let n := fresh "n" in let Hn := fresh "Hn" in
  intros n Hn; do 128 (destruct n as [ | n]; [simpl; reflexivity | ]); lia.

Lemma escape_ascii_scan (b : Z) (X : list Z) : 0 <= b < 128 ->
  scan_string (escape_ascii b ++ X)
  = match scan_string X with Some (raw, r) => Some (escape_ascii b ++ raw, r) | None => None end.
Proof. revert b; apply enum_ascii; enum128. Qed.

Lemma escape_ascii_unquote (b : Z) (f : nat) (X : list Z) : 0 <= b < 128 ->
  unquote_loop (S f) (escape_ascii b ++ X) = b :: unquote_loop f X.
Proof. revert b; apply enum_ascii; enum128. Qed.

Lemma escape_ascii_bytes (b : Z) : 0 <= b < 128 ->
  forallb Bytes.is_byte (escape_ascii b) = true /\ (1 <= length (escape_ascii b))%nat.
Proof. revert b; apply enum_ascii; intros n Hn; do 128 (destruct n as [ | n]; [vm_compute; split; [reflexivity | lia] | ]); lia. Qed.

Lemma plain_scan (chunk X : list Z) : Forall (fun b => 128 <= b < 256) chunk ->
  scan_string (chunk ++ X)
  = match scan_string X with Some (raw, r) => Some (chunk ++ raw, r) | None => None end.
Proof.
  induction 1 as [ | b chunk Hb _ IH].
  - simpl; destruct (scan_string X) as [[? ?] | ]; reflexivity.
  - cbn [app scan_string]; by_cases; rewrite IH.
    destruct (scan_string X) as [[? ?] | ]; reflexivity.
Qed.

Lemma multi_unquote (c : Z) (size f : nat) (chunk X : list Z) :
  Forall (fun b => 128 <= b < 256) chunk -> chunk <> [] -> length chunk = size ->
  DecodeRune (chunk ++ X) = (c, size) -> AppendRune c = chunk ->
  unquote_loop (S f) (chunk ++ X) = chunk ++ unquote_loop f X.
Proof.
  intros Hall Hne Hl Hd Ha; destruct chunk as [ | b0 chunk']; [congruence | ].
  pose proof (Forall_inv Hall) as Hb0; cbn beta in Hb0.
  cbn [app unquote_loop]; rewrite <- (app_comm_cons chunk' X b0) in Hd.
  rewrite Hd; unfold RuneSelf.
  replace (b0 =? 92) with false by (by_cases; reflexivity).
  replace (b0 <? 128) with false by (by_cases; reflexivity).
  rewrite Ha; cbn [app]; f_equal; f_equal.
  rewrite app_comm_cons, skipn_app, <- Hl, skipn_all, Nat.sub_diag; reflexivity.
Qed.

Lemma hex_2028 (c : Z) : c = 8232 \/ c = 8233 ->
  forall f X,
  scan_string ([92; 117; 50; 48; 50; hex (Z.land c 15)] ++ X)
  = match scan_string X with
    | Some (raw, r) => Some ([92; 117; 50; 48; 50; hex (Z.land c 15)] ++ raw, r)
    | None => None end
  /\ unquote_loop (S f) ([92; 117; 50; 48; 50; hex (Z.land c 15)] ++ X)
     = AppendRune c ++ unquote_loop f X.
Proof. intros [-> | ->] f X; split; simpl; reflexivity. Qed.

Lemma forallb_skipn {A} (P : A -> bool) (n : nat) (l : list A) :
  forallb P l = true -> forallb P (skipn n l) = true.
Proof.
  rewrite !forallb_forall; intros H x Hx; apply H.
  rewrite <- (firstn_skipn n l); apply in_or_app; right; exact Hx.
Qed.

Lemma forall_range_bytes (l : list Z) : Forall (fun b => 128 <= b < 256) l ->
  forallb Bytes.is_byte l = true.
Proof.
  induction 1 as [ | b l Hb _ IH]; [reflexivity | ].
  simpl; rewrite IH; unfold Bytes.is_byte; by_cases; reflexivity.
Qed.

(** [appendString] followed by the scanner and [unquoteBytes] gives back
    the source bytes, on valid UTF-8. *)
Lemma append_string_loop_ok (n : nat) (p : list Z) :
  forallb Bytes.is_byte p = true -> valid_loop n p = true ->
  (forall X, scan_string (append_string_loop n p ++ 34 :: X) = Some (append_string_loop n p, X))
  /\ (forall f, (length (append_string_loop n p) <= f)%nat ->
        unquote_loop f (append_string_loop n p) = p)
  /\ forallb Bytes.is_byte (append_string_loop n p) = true.
Proof.
  revert p; induction n as [ | n IH]; intros p Hby Hv.
  - destruct p as [ | b p]; [ | discriminate].
    split; [reflexivity | split; [intros [ | f] _; reflexivity | reflexivity]].
  - destruct p as [ | b rest].
    { split; [reflexivity | split; [intros [ | f] _; reflexivity | reflexivity]]. }
    simpl in Hby; apply andb_prop in Hby as [Hb Hrest]; unfold Bytes.is_byte in Hb.
    apply andb_prop in Hb as [Hb1 Hb2]; apply Z.leb_le in Hb1; apply Z.ltb_lt in Hb2.
    cbn [valid_loop append_string_loop] in Hv |- *.
    destruct (b <? RuneSelf) eqn:Ea.
    + apply Z.ltb_lt in Ea; unfold RuneSelf in Ea.
      assert (Ed : DecodeRune (b :: rest) = (b, 1%nat)).
      { unfold DecodeRune; replace (first b) with LAscii by (unfold first; by_cases; reflexivity);
          reflexivity. }
      rewrite Ed in Hv; unfold RuneError in Hv.
      replace (b =? 65533) with false in Hv by (by_cases; reflexivity); simpl in Hv.
      destruct (IH rest Hrest Hv) as (Hs & Hu & Hy).
      destruct (escape_ascii_bytes b ltac:(lia)) as [Heb Hel].
      split; [ | split].
      * intros X; rewrite <- app_assoc, escape_ascii_scan by lia; rewrite Hs; reflexivity.
      * intros [ | f] Hf; [rewrite length_app in Hf; lia | ].
        rewrite escape_ascii_unquote by lia; rewrite Hu; [reflexivity | ].
        rewrite length_app in Hf; lia.
      * rewrite forallb_app, Heb, Hy; reflexivity.
    + apply Z.ltb_ge in Ea; unfold RuneSelf in Ea.
      destruct (DecodeRune (b :: rest)) as [c size] eqn:Ed.
      destruct ((c =? RuneError) && (size =? 1)%nat) eqn:Ee; [discriminate | ].
      assert (Hne : ~ (c = RuneError /\ size = 1%nat)).
      { intros [-> ->]; rewrite Z.eqb_refl in Ee; discriminate. }
      destruct (DecodeRune_multi b rest c size ltac:(lia) Ed Hne) as (Hsz & Ha & Hd & Hr).
      assert (Hby : forallb Bytes.is_byte (skipn size (b :: rest)) = true)
        by (apply forallb_skipn; simpl; rewrite Hrest; unfold Bytes.is_byte; by_cases; reflexivity).
      destruct (IH _ Hby Hv) as (Hs & Hu & Hy).
      assert (Hsplit : b :: rest = firstn size (b :: rest) ++ skipn size (b :: rest))
        by (symmetry; apply firstn_skipn).
      assert (Hlen : length (firstn size (b :: rest)) = size) by (rewrite length_firstn; lia).
      destruct ((c =? 8232) || (c =? 8233)) eqn:Els.
      * assert (Hc : c = 8232 \/ c = 8233) by (by_cases; simpl in Els; try discriminate; lia).
        split; [ | split].
        -- intros X; rewrite <- app_assoc; destruct (hex_2028 c Hc O (append_string_loop n
             (skipn size (b :: rest)) ++ 34 :: X)) as [-> _]; rewrite Hs; reflexivity.
        -- intros [ | f] Hf; [simpl in Hf; lia | ].
           destruct (hex_2028 c Hc f (append_string_loop n (skipn size (b :: rest)))) as [_ ->].
           rewrite Ha, Hu by (simpl in Hf; lia); symmetry; exact Hsplit.
        -- rewrite forallb_app, Hy, andb_true_r; destruct Hc as [-> | ->]; reflexivity.
      * assert (Hne' : firstn size (b :: rest) <> []) by (intros E; rewrite E in Hlen; simpl in Hlen; lia).
        split; [ | split].
        -- intros X; rewrite <- app_assoc, plain_scan by exact Hr; rewrite Hs; reflexivity.
        -- intros [ | f] Hf; [rewrite length_app, Hlen in Hf; lia | ].
           rewrite (multi_unquote c size f) by auto.
           rewrite Hu by (rewrite length_app, Hlen in Hf; lia); symmetry; exact Hsplit.
        -- rewrite forallb_app, Hy, forall_range_bytes by exact Hr; reflexivity.
Qed.

Lemma encode_string_ok (src : list Z) : ValidString src = true ->
  let e := append_string_loop (length src) src in
  encode_string src = [34] ++ e ++ [34]
  /\ (forall X, scan_string (e ++ 34 :: X) = Some (e, X))
  /\ unquote e = src /\ forallb Bytes.is_byte e = true.
Proof.
  unfold ValidString; intros H; apply andb_prop in H as [Hb Hv].
  destruct (append_string_loop_ok _ _ Hb Hv) as (Hs & Hu & Hy).
  repeat split; auto; unfold unquote; apply Hu; lia.
Qed.

End JsonProofs.

(** ** Serialising and deserialising a conversation history *)
Module ConversationProofs.
Import Utf8 GoJSON Conversation Scenarios Utf8Proofs JsonProofs.
Local Open Scope Z_scope.

Lemma parse_turn (t : Turn) (f : nat) (X : list Z) :
  ValidString (Bytes.of_string (Role t)) = true ->
  ValidString (Bytes.of_string (Content t)) = true ->
  parse_value (4 + f) (encode_turn t ++ X) = Some (turn_json t, X).
Proof.
  intros Hr Hc.
  destruct (encode_string_ok _ Hr) as (Er & Sr & Ur & _).
  destruct (encode_string_ok _ Hc) as (Ec & Sc & Uc & _).
  unfold encode_turn, turn_json; rewrite Er, Ec.
  set (er := append_string_loop _ (Bytes.of_string (Role t))) in *.
  set (ec := append_string_loop _ (Bytes.of_string (Content t))) in *.
  clearbody er ec.
  rewrite <- !app_assoc; cbn.
  rewrite Sr; cbn; rewrite Sc; cbn; rewrite Ur, Uc; reflexivity.
Qed.

Lemma parse_elems_ok (ts : list Turn) : forall t acc f X,
  forallb turn_valid (t :: ts) = true -> (length ts + 5 <= f)%nat ->
  parse_elems f (join_elems (map encode_turn (t :: ts)) ++ 93 :: X) acc
  = Some (JArray (acc ++ map turn_json (t :: ts)), X).
Proof.
  induction ts as [ | t' ts IH]; intros t acc f X Hv Hf;
    simpl in Hv; apply andb_prop in Hv as [Ht Hv]; apply andb_prop in Ht as [Hr Hc];
    (destruct f as [ | f]; [simpl in Hf; lia | ]).
  - cbn [map join_elems parse_elems].
    replace f with (4 + (f - 4))%nat by (simpl in Hf; lia).
    rewrite parse_turn by assumption; reflexivity.
  - change (join_elems (map encode_turn (t :: t' :: ts)))
      with (encode_turn t ++ [44] ++ join_elems (map encode_turn (t' :: ts))).
    change (parse_elems (S f) ?s acc) with
      (match parse_value f s with
       | None => None
       | Some (v, rest) =>
           match skip_ws rest with
           | c :: rest' =>
               if c =? 44 then parse_elems f rest' (acc ++ [v])
               else if c =? 93 then Some (JArray (acc ++ [v]), rest')
               else None
           | [] => None
           end
       end).
    replace f with (4 + (f - 4))%nat at 1 by (simpl in Hf; lia).
    rewrite <- !app_assoc, parse_turn by assumption.
    cbn -[parse_elems join_elems map encode_turn].
    rewrite IH by (simpl; auto; simpl in Hf; lia).
    rewrite <- app_assoc; reflexivity.
Qed.

Lemma join_elems_length (ts : list Turn) :
  (length ts <= length (join_elems (map encode_turn ts)))%nat.
Proof.
  induction ts as [ | t [ | t' ts] IH]; [simpl; lia | simpl; lia | ].
  change (join_elems (map encode_turn (t :: t' :: ts)))
    with (encode_turn t ++ [44] ++ join_elems (map encode_turn (t' :: ts))).
  rewrite !length_app; change (length [44]) with 1%nat.
  change (length (t :: t' :: ts)) with (S (length (t' :: ts))); lia.
Qed.

Lemma parse_document_marshal (ts : list Turn) : forallb turn_valid ts = true ->
  parse_document (marshal_turns (Some ts)) = Some (JArray (map turn_json ts)).
Proof.
  intros Hv; destruct ts as [ | t ts]; [reflexivity | ].
  unfold parse_document, marshal_turns.
  pose proof (join_elems_length (t :: ts)) as Hl.
  remember (Nat.add (Nat.mul 2 (length ([91] ++ join_elems (map encode_turn (t :: ts)) ++ [93]))) 2)
    as fuel.
  assert (Hf : (length ts + 6 <= fuel)%nat) by (subst fuel; rewrite !length_app; simpl in *; lia).
  destruct fuel as [ | fuel]; [lia | ].
  assert (Hj : exists J, join_elems (map encode_turn (t :: ts)) = 123 :: J)
    by (destruct ts; eexists; reflexivity).
  destruct Hj as [J HJ].
  change (parse_value (S fuel) ([91] ++ join_elems (map encode_turn (t :: ts)) ++ [93]))
    with (match skip_ws ([91] ++ join_elems (map encode_turn (t :: ts)) ++ [93]) with
          | [] => None
          | b :: rest =>
              if b =? 123 then
                match skip_ws rest with
                | c :: rest' => if c =? 125 then Some (JObject [], rest')
                                else parse_members fuel (skip_ws rest) []
                | [] => None
                end
              else if b =? 91 then
                match skip_ws rest with
                | c :: rest' => if c =? 93 then Some (JArray [], rest')
                                else parse_elems fuel (skip_ws rest) []
                | [] => None
                end
              else if b =? 34 then
                match scan_string rest with
                | Some (raw, rest') => Some (JString (unquote raw), rest')
                | None => None
                end
              else if b =? 116 then
                if is_prefix [114; 117; 101] rest then Some (JBool true, skipn 3 rest) else None
              else if b =? 102 then
                if is_prefix [97; 108; 115; 101] rest then Some (JBool false, skipn 4 rest) else None
              else if b =? 110 then
                if is_prefix [117; 108; 108] rest then Some (JNull, skipn 3 rest) else None
              else
                match scan_number (b :: rest) with
                | Some (lit, rest') => Some (JNumber lit, rest')
                | None => None
                end
          end).
  rewrite HJ; cbn -[parse_elems].
  change (123 :: J ++ [93]) with ((123 :: J) ++ [93]); rewrite <- HJ.
  rewrite parse_elems_ok by (auto; lia); reflexivity.
Qed.

Lemma to_string_of_string (s : string) : Bytes.to_string (Bytes.of_string s) = s.
Proof.
  unfold Bytes.to_string, Bytes.of_string; rewrite map_map.
  erewrite map_ext; [rewrite map_id; apply string_of_list_ascii_of_string | ].
  intros a; rewrite N2Z.id; apply ascii_N_embedding.
Qed.

Lemma of_string_to_string (bs : list Z) : forallb Bytes.is_byte bs = true ->
  Bytes.of_string (Bytes.to_string bs) = bs.
Proof.
  unfold Bytes.to_string, Bytes.of_string; rewrite list_ascii_of_string_of_list_ascii, map_map.
  induction bs as [ | b bs IH]; [reflexivity | ].
  simpl; intros H; apply andb_prop in H as [Hb H]; unfold Bytes.is_byte in Hb.
  apply andb_prop in Hb as [H1 H2]; apply Z.leb_le in H1; apply Z.ltb_lt in H2.
  rewrite IH by exact H; f_equal.
  rewrite N_ascii_embedding; [apply Z2N.id; lia | ].
  apply N2Z.inj_lt; rewrite Z2N.id by lia; simpl; lia.
Qed.

Lemma DecodeRune_ascii (b : Z) (rest : list Z) : 0 <= b < 128 -> DecodeRune (b :: rest) = (b, 1%nat).
Proof.
  intros Hb; unfold DecodeRune; replace (first b) with LAscii by (unfold first; by_cases; reflexivity);
    reflexivity.
Qed.

Lemma TrimLeftFunc_stop (f : Z -> bool) (b : Z) (rest : list Z) : 0 <= b < 128 -> f b = false ->
  GoStrings.TrimLeftFunc (b :: rest) f = b :: rest.
Proof.
  intros Hb Hf; unfold GoStrings.TrimLeftFunc; cbn [length GoStrings.index_not].
  rewrite DecodeRune_ascii, Hf by exact Hb; reflexivity.
Qed.

Lemma TrimRightFunc_stop (f : Z -> bool) (l : list Z) (b : Z) : 0 <= b < 128 -> f b = false ->
  GoStrings.TrimRightFunc (l ++ [b]) f = l ++ [b].
Proof.
  intros Hb Hf; unfold GoStrings.TrimRightFunc.
  rewrite length_app; cbn [length]; rewrite Nat.add_1_r; cbn [GoStrings.last_index_not].
  rewrite firstn_all2 by (rewrite length_app; simpl; lia).
  assert (Hn : nth (length l) (l ++ [b]) 0 = b) by (apply nth_middle).
  assert (Hd : DecodeLastRune (l ++ [b]) = (b, 1%nat)).
  { unfold DecodeLastRune; rewrite length_app; cbn [length].
    replace (Z.of_nat (length l + 1) =? 0) with false by (symmetry; apply Z.eqb_neq; lia).
    replace (Z.to_nat (Z.of_nat (length l + 1) - 1)) with (length l) by lia.
    rewrite Hn; unfold RuneSelf; replace (b <? 128) with true by (symmetry; apply Z.ltb_lt; lia); reflexivity. }
  rewrite Hd, Hf; cbn [negb].
  replace (S (length l) - 1)%nat with (length l) by lia.
  rewrite Hn; unfold RuneSelf; replace (128 <=? b) with false by (symmetry; apply Z.leb_gt; lia).
  apply firstn_all2; rewrite length_app; simpl; lia.
Qed.

Lemma decode_turn_list_json (ts : list Turn) : decode_turn_list (map turn_json ts) = Ok ts.
Proof.
  induction ts as [ | [r c] ts IH]; [reflexivity | ].
  cbn [map decode_turn_list]; rewrite IH.
  unfold turn_json, decode_turn; cbn [Role Content].
  change (decode_members (mkTurn "" "") _)
    with (Ok (mkTurn (Bytes.to_string (Bytes.of_string r)) (Bytes.to_string (Bytes.of_string c))) : result Turn).
  rewrite !to_string_of_string; reflexivity.
Qed.

Lemma forallb_join (P : Z -> bool) (es : list (list Z)) :
  forallb (forallb P) es = true -> P 44 = true -> forallb P (join_elems es) = true.
Proof.
  intros H H44; induction es as [ | e [ | e' es] IH]; [reflexivity | simpl in *; now rewrite andb_true_r in H | ].
  change (join_elems (e :: e' :: es)) with (e ++ [44] ++ join_elems (e' :: es)).
  cbn [forallb] in H; apply andb_prop in H as [He H].
  rewrite !forallb_app, He, IH by exact H; simpl; rewrite H44; reflexivity.
Qed.

Lemma encode_turn_bytes (t : Turn) : turn_valid t = true ->
  forallb Bytes.is_byte (encode_turn t) = true.
Proof.
  unfold turn_valid; intros Ht; apply andb_prop in Ht as [Hr Hc].
  destruct (encode_string_ok _ Hr) as (Er & _ & _ & Br).
  destruct (encode_string_ok _ Hc) as (Ec & _ & _ & Bc).
  unfold encode_turn; rewrite Er, Ec, !forallb_app, Br, Bc; reflexivity.
Qed.

Lemma marshal_bytes (ts : list Turn) : forallb turn_valid ts = true ->
  forallb Bytes.is_byte (marshal_turns (Some ts)) = true.
Proof.
  intros Hv; unfold marshal_turns; rewrite !forallb_app.
  rewrite forallb_join; [reflexivity | | reflexivity].
  induction ts as [ | t ts IH]; [reflexivity | ].
  cbn [forallb map] in Hv |- *; apply andb_prop in Hv as [Ht Hv].
  rewrite encode_turn_bytes, IH by assumption; reflexivity.
Qed.

Lemma index_not_blank (p : list Z) (i : nat) :
  Forall (fun b => In b [9; 10; 11; 12; 13; 32]) p ->
  GoStrings.index_not IsSpace (length p) p i = None.
Proof.
  revert i; induction p as [ | b p IH]; intros i Hp; [reflexivity | ].
  inversion Hp as [ | ? ? Hb Hp']; subst.
  cbn [length GoStrings.index_not]; rewrite DecodeRune_ascii
    by (simpl in Hb; lia).
  replace (IsSpace b) with true by (simpl in Hb; intuition subst; reflexivity).
  cbn [negb skipn]; apply IH; exact Hp'.
Qed.

Lemma trim_space_blank (p : list Z) :
  Forall (fun b => In b [9; 10; 11; 12; 13; 32]) p -> GoStrings.trim_space_bytes p = [].
Proof.
  intros Hp; unfold GoStrings.trim_space_bytes, GoStrings.TrimLeftFunc.
  rewrite index_not_blank by exact Hp; reflexivity.
Qed.

Lemma trim_marshal (t : Turn) (ts : list Turn) :
  GoStrings.trim_space_bytes (marshal_turns (Some (t :: ts))) = marshal_turns (Some (t :: ts)).
Proof.
  unfold GoStrings.trim_space_bytes.
  replace (GoStrings.TrimLeftFunc (marshal_turns (Some (t :: ts))) IsSpace)
    with (marshal_turns (Some (t :: ts))).
  2: { symmetry; change (marshal_turns (Some (t :: ts)))
         with (91 :: (join_elems (map encode_turn (t :: ts)) ++ [93]));
       apply TrimLeftFunc_stop; [lia | reflexivity]. }
  change (marshal_turns (Some (t :: ts)))
    with ((91 :: join_elems (map encode_turn (t :: ts))) ++ [93]).
  apply TrimRightFunc_stop; [lia | reflexivity].
Qed.

Lemma Deserialize_marshal (h : slice Turn) : forallb turn_valid (elems h) = true ->
  DeserializeHistory (Bytes.to_string (marshal_turns h)) = Ok h.
Proof.
  intros Hv; destruct h as [[ | t ts] | ]; [reflexivity | | reflexivity].
  unfold DeserializeHistory.
  rewrite of_string_to_string by (apply marshal_bytes; exact Hv).
  rewrite trim_marshal; unfold unmarshal_turns.
  rewrite parse_document_marshal by exact Hv; rewrite decode_turn_list_json; reflexivity.
Qed.

(** Claim C3 (amended). For a conversation whose turns hold valid UTF-8,
    [DeserializeHistory] of the output of [SerializeHistory] is the original
    history: a nil history comes back nil, an empty one empty, and every turn
    in order. A string that trims to nothing (for instance one made only of
    ASCII white space) deserialises to an empty history without error; input
    the JSON scanner rejects is an error; and when deserialisation succeeds
    on a non-blank string, the document is [null] or an array with exactly
    one turn per element, so no element is dropped. *)
Theorem History_round_trip (c : Conversation) (s : string)
  (Hv : forallb turn_valid (elems (History c)) = true) :
  (exists out, SerializeHistory c = Ok out /\ DeserializeHistory out = Ok (History c))
  /\ (GoStrings.trim_space_bytes (Bytes.of_string s) = [] -> DeserializeHistory s = Ok (Some []))
  /\ (Forall (fun b => In b [9; 10; 11; 12; 13; 32]) (Bytes.of_string s) ->
      DeserializeHistory s = Ok (Some []))
  /\ (GoStrings.trim_space_bytes (Bytes.of_string s) <> [] ->
      parse_document (Bytes.of_string s) = None -> exists e, DeserializeHistory s = Err e)
  /\ (forall h, DeserializeHistory s = Ok h ->
      GoStrings.trim_space_bytes (Bytes.of_string s) <> [] ->
      (parse_document (Bytes.of_string s) = Some JNull /\ h = None)
      \/ exists vs ts, parse_document (Bytes.of_string s) = Some (JArray vs)
                       /\ h = Some ts /\ length ts = length vs).
Proof.
  assert (Hblank : GoStrings.trim_space_bytes (Bytes.of_string s) = [] ->
                   DeserializeHistory s = Ok (Some [])).
  { intros E; unfold DeserializeHistory; rewrite E; reflexivity. }
  split; [ | split; [exact Hblank | split; [ | split]]].
  - exists (Bytes.to_string (marshal_turns (History c))); split; [reflexivity | ].
    apply Deserialize_marshal; exact Hv.
  - intros Hw; apply Hblank, trim_space_blank, Hw.
  - intros Hne Hp; unfold DeserializeHistory, unmarshal_turns; rewrite Hp.
    destruct (GoStrings.trim_space_bytes (Bytes.of_string s)); [congruence | eexists; reflexivity].
  - intros h Hd Hne; unfold DeserializeHistory, unmarshal_turns in Hd.
    destruct (GoStrings.trim_space_bytes (Bytes.of_string s)) as [ | ? ?]; [congruence | ].
    destruct (parse_document (Bytes.of_string s)) as [v | ]; [ | discriminate].
    destruct v; try discriminate.
    + left; injection Hd as <-; auto.
    + right; destruct (decode_turn_list vs) as [ts | e] eqn:Ed; [ | discriminate].
      injection Hd as <-; exists vs, ts; repeat split.
      clear -Ed; revert ts Ed; induction vs as [ | v vs IH]; intros ts Ed.
      * injection Ed as <-; reflexivity.
      * cbn [decode_turn_list] in Ed.
        destruct (decode_turn v), (decode_turn_list vs) as [ts' | ]; try discriminate.
        injection Ed as <-; cbn [length]; f_equal; apply IH; reflexivity.
Qed.

(** The round trip on a two-turn conversation, with a blank string. *)
Lemma History_round_trip_witness :
  forallb turn_valid (elems (History sample_conv)) = true
  /\ ((exists out, SerializeHistory sample_conv = Ok out
         /\ DeserializeHistory out = Ok (History sample_conv))
      /\ (GoStrings.trim_space_bytes (Bytes.of_string " ") = [] ->
          DeserializeHistory " " = Ok (Some []))
      /\ (Forall (fun b => In b [9; 10; 11; 12; 13; 32]) (Bytes.of_string " ") ->
          DeserializeHistory " " = Ok (Some []))
      /\ (GoStrings.trim_space_bytes (Bytes.of_string " ") <> [] ->
          parse_document (Bytes.of_string " ") = None -> exists e, DeserializeHistory " " = Err e)
      /\ (forall h, DeserializeHistory " " = Ok h ->
          GoStrings.trim_space_bytes (Bytes.of_string " ") <> [] ->
          (parse_document (Bytes.of_string " ") = Some JNull /\ h = None)
          \/ exists vs ts, parse_document (Bytes.of_string " ") = Some (JArray vs)
                           /\ h = Some ts /\ length ts = length vs)).
Proof.
  split; [vm_compute; reflexivity | ].
  apply (History_round_trip sample_conv " "); vm_compute; reflexivity.
Defined.

(** Claim C3 does not hold for every sequence of turns: a content holding
    the byte 0xFF (not valid UTF-8) is marshalled as the escape of U+FFFD
    and comes back as the three bytes of U+FFFD, so the deserialised
    history differs from the serialised one. *)
Lemma SerializeHistory_invalid_utf8 :
  exists out, SerializeHistory bad_conv = Ok out
  /\ DeserializeHistory out = Ok (Some [mkTurn "user" replacement_char])
  /\ DeserializeHistory out <> Ok (History bad_conv).
Proof.
  eexists; split; [reflexivity | ].
  split; [vm_compute; reflexivity | vm_compute; discriminate].
Qed.

End ConversationProofs.

(** ** Code blocks in a provider's answer *)
Module ResponseUtilsProofs.
Import ResponseUtils.
Local Open Scope Z_scope.

Lemma of_string_app (a b : string) :
  Bytes.of_string (a ++ b) = (Bytes.of_string a ++ Bytes.of_string b)%list.
Proof. unfold Bytes.of_string; induction a as [ | c a IH]; [reflexivity | simpl; f_equal; exact IH]. Qed.

Lemma is_prefix_app (p rest : list Z) : GoJSON.is_prefix p (p ++ rest) = true.
Proof. induction p as [ | a p IH]; [reflexivity | simpl; rewrite Z.eqb_refl; exact IH]. Qed.

Lemma is_prefix_length (p s : list Z) : GoJSON.is_prefix p s = true -> (length p <= length s)%nat.
Proof.
  revert s; induction p as [ | a p IH]; intros [ | b s] H; simpl in *; try lia; try discriminate.
  apply andb_prop in H as [_ H]; apply IH in H; lia.
Qed.

Lemma index_from_here (s sep : list Z) : GoJSON.is_prefix sep s = true -> index_from s sep = Some O.
Proof. intros H; destruct s; simpl; rewrite H; reflexivity. Qed.

Lemma index_from_skip (pre rest sep' : list Z) :
  (forall b, In b pre -> b <> 96) ->
  index_from (pre ++ rest) (96 :: sep') = option_map (Nat.add (length pre)) (index_from rest (96 :: sep')).
Proof.
  intros Hp; induction pre as [ | b pre IH].
  - simpl; destruct (index_from rest (96 :: sep')); reflexivity.
  - cbn [app]; unfold index_from at 1; fold index_from.
    replace (GoJSON.is_prefix (96 :: sep') (b :: pre ++ rest)) with false.
    2: { symmetry; cbn [GoJSON.is_prefix]; apply andb_false_intro1, Z.eqb_neq; intros E; apply (Hp b); [left | ]; auto. }
    rewrite IH by (intros x Hx; apply Hp; right; exact Hx).
    destruct (index_from rest (96 :: sep')); reflexivity.
Qed.

Lemma index_from_bound (s sep : list Z) (n : nat) :
  index_from s sep = Some n -> (n + length sep <= length s)%nat.
Proof.
  revert n; induction s as [ | b s IH]; intros n H; unfold index_from in H; fold index_from in H.
  - destruct (GoJSON.is_prefix sep []) eqn:E; [ | discriminate].
    injection H as <-; apply is_prefix_length in E; simpl in *; lia.
  - destruct (GoJSON.is_prefix sep (b :: s)) eqn:E.
    + injection H as <-; apply is_prefix_length in E; simpl in *; lia.
    + destruct (index_from s sep) as [m | ] eqn:Em; [ | discriminate].
      injection H as <-; specialize (IH m eq_refl); simpl; lia.
Qed.

Lemma no_backtick_in (s : string) : no_backtick s = true -> forall b, In b (Bytes.of_string s) -> b <> 96.
Proof.
  unfold no_backtick; rewrite forallb_forall; intros H b Hb E; specialize (H b Hb).
  rewrite E in H; discriminate.
Qed.

Lemma fence_eq : fence = [96; 96; 96].
Proof. reflexivity. Qed.

Lemma skipn_length_app (l r : list Z) (k : nat) : skipn (length l + k) (l ++ r) = skipn k r.
Proof. induction l as [ | a l IH]; [reflexivity | exact IH]. Qed.

Lemma Index_fenced (P B : list Z) (sep' : list Z) :
  (forall b, In b P -> b <> 96) -> Index (P ++ (96 :: sep') ++ B) (96 :: sep') = Z.of_nat (length P).
Proof.
  intros HP; unfold Index; rewrite index_from_skip by exact HP.
  rewrite index_from_here by apply is_prefix_app; simpl; rewrite Nat.add_0_r; reflexivity.
Qed.

Lemma extract_fenced_bytes (P L B Q : list Z) :
  (forall b, In b P -> b <> 96) -> (forall b, In b B -> b <> 96) ->
  extract_code_block (P ++ ([96; 96; 96] ++ L) ++ B ++ [96; 96; 96] ++ Q) L
  = GoStrings.trim_space_bytes (match B with x :: r => if x =? 10 then r else B | [] => [] end).
Proof.
  intros HP HB; unfold extract_code_block.
  replace (match L with [] => fence | _ => (fence ++ L)%list end) with ([96; 96; 96] ++ L)%list
    by (destruct L; reflexivity).
  change ([96; 96; 96] ++ L)%list with (96 :: (96 :: 96 :: L)).
  rewrite (Index_fenced P) by exact HP.
  rewrite (proj2 (Z.eqb_neq _ _)) by lia; cbv beta iota zeta.
  set (M := 96 :: 96 :: 96 :: L).
  assert (Ht : (P ++ M ++ B ++ [96; 96; 96] ++ Q = (P ++ M) ++ B ++ [96; 96; 96] ++ Q)%list)
    by (rewrite app_assoc; reflexivity).
  rewrite Ht.
  replace (Z.of_nat (length P) + Z.of_nat (length M)) with (Z.of_nat (length (P ++ M)))
    by (rewrite length_app; lia).
  rewrite (proj2 (Z.ltb_lt _ _)) by (rewrite !length_app; cbn [length]; lia).
  rewrite Nat2Z.id; change fence with [96; 96; 96].
  assert (Hskip : forall k, (k <= length B)%nat ->
    Index (skipn (length (P ++ M) + k) ((P ++ M) ++ B ++ [96; 96; 96] ++ Q)) [96; 96; 96]
    = Z.of_nat (length B - k)
    /\ firstn (length B - k) (skipn (length (P ++ M) + k) ((P ++ M) ++ B ++ [96; 96; 96] ++ Q))
       = skipn k B).
  { intros k Hk; rewrite skipn_length_app, skipn_app.
    replace (k - length B)%nat with O by lia; cbn [skipn].
    rewrite <- length_skipn; split.
    - apply (Index_fenced (skipn k B) Q [96; 96]).
      intros b Hb; apply HB; rewrite <- (firstn_skipn k B); apply in_or_app; right; exact Hb.
    - rewrite firstn_app, firstn_all, Nat.sub_diag; cbn [firstn]; apply app_nil_r. }
  destruct B as [ | x r].
  - assert (Hn : nth (length (P ++ M)) ((P ++ M) ++ [] ++ [96; 96; 96] ++ Q) 0 = 96)
      by exact (nth_middle _ _ _ _).
    rewrite Hn; cbn [Z.eqb Pos.eqb andb].
    destruct (Hskip O (le_n _)) as [H1 H2]; rewrite Nat.add_0_r in H1, H2.
    replace (Z.to_nat (Z.of_nat (length (P ++ M)))) with (length (P ++ M)) by lia.
    rewrite H1, (proj2 (Z.eqb_neq _ _)) by lia; rewrite Nat2Z.id, H2; reflexivity.
  - assert (Hn : nth (length (P ++ M)) ((P ++ M) ++ (x :: r) ++ [96; 96; 96] ++ Q) 0 = x)
      by exact (nth_middle _ _ _ _).
    rewrite Hn; destruct (x =? 10) eqn:Ex; cbn [andb].
    + replace (Z.to_nat (Z.of_nat (length (P ++ M)) + 1)) with (length (P ++ M) + 1)%nat by lia.
      destruct (Hskip 1%nat) as [H1 H2]; [cbn [length]; lia | ].
      rewrite H1, (proj2 (Z.eqb_neq _ _)) by lia; rewrite Nat2Z.id, H2; reflexivity.
    + destruct (Hskip O (Nat.le_0_l _)) as [H1 H2]; rewrite Nat.add_0_r in H1, H2.
      replace (Z.to_nat (Z.of_nat (length (P ++ M)))) with (length (P ++ M)) by lia.
      rewrite H1, (proj2 (Z.eqb_neq _ _)) by lia; rewrite Nat2Z.id, H2; reflexivity.
Qed.

Lemma index_from_no_tick (s sep' : list Z) :
  (forall b, In b s -> b <> 96) -> index_from s (96 :: sep') = None.
Proof.
  intros Hs; rewrite <- (app_nil_r s), index_from_skip by exact Hs; reflexivity.
Qed.

Lemma is_prefix_stop (p l r : list Z) (x : Z) :
  GoJSON.is_prefix p (l ++ x :: r) = true -> ~ In x p -> GoJSON.is_prefix p l = true.
Proof.
  revert l; induction p as [ | a p IH]; intros l H Hx; [reflexivity | ].
  destruct l as [ | b l]; cbn [app GoJSON.is_prefix] in H |- *.
  - apply andb_prop in H as [H _]; apply Z.eqb_eq in H; subst; exfalso; apply Hx; left; reflexivity.
  - apply andb_prop in H as [Ha H]; rewrite Ha; apply IH; [exact H | ].
    intros Hin; apply Hx; right; exact Hin.
Qed.

Lemma index_from_cons (x : Z) (s sep : list Z) :
  index_from (x :: s) sep
  = if GoJSON.is_prefix sep (x :: s) then Some O else option_map S (index_from s sep).
Proof. reflexivity. Qed.

Lemma index_from_fence_none (R S : list Z) :
  GoJSON.is_prefix S R = false -> (forall x R', R = x :: R' -> x <> 96) ->
  index_from R (96 :: 96 :: 96 :: S) = None ->
  index_from (96 :: 96 :: 96 :: R) (96 :: 96 :: 96 :: S) = None.
Proof.
  intros HS Hh HR.
  assert (H1 : GoJSON.is_prefix (96 :: S) R = false).
  { destruct R as [ | x R']; [reflexivity | ].
    cbn [GoJSON.is_prefix]; rewrite (proj2 (Z.eqb_neq 96 x)); [reflexivity | ].
    intros E; apply (Hh x R'); auto. }
  assert (H2 : GoJSON.is_prefix (96 :: 96 :: S) R = false).
  { destruct R as [ | x R']; [reflexivity | ].
    cbn [GoJSON.is_prefix]; rewrite (proj2 (Z.eqb_neq 96 x)); [reflexivity | ].
    intros E; apply (Hh x R'); auto. }
  assert (A1 : GoJSON.is_prefix (96 :: 96 :: 96 :: S) (96 :: 96 :: 96 :: R) = false)
    by (change (GoJSON.is_prefix S R = false); exact HS).
  assert (A2 : GoJSON.is_prefix (96 :: 96 :: 96 :: S) (96 :: 96 :: R) = false)
    by (change (GoJSON.is_prefix (96 :: S) R = false); exact H1).
  assert (A3 : GoJSON.is_prefix (96 :: 96 :: 96 :: S) (96 :: R) = false)
    by (change (GoJSON.is_prefix (96 :: 96 :: S) R = false); exact H2).
  rewrite !index_from_cons, A1, A2, A3, HR; reflexivity.
Qed.

Lemma In_no_tick (s : string) (b : Z) : no_backtick s = true -> In b (Bytes.of_string s) -> b <> 96.
Proof. intros H; apply no_backtick_in; exact H. Qed.

Lemma lower_word_in (s : string) (b : Z) : lower_word s = true -> In b (Bytes.of_string s) ->
  97 <= b <= 122.
Proof.
  unfold lower_word; rewrite forallb_forall; intros H Hb; specialize (H b Hb).
  apply andb_prop in H as [H1 H2]; apply Z.leb_le in H1; apply Z.leb_le in H2; lia.
Qed.

(** X1: a block fenced with [```] and the language, followed by a
    newline, is returned by [extractCodeBlock] as its trimmed body, when no
    backtick precedes the fence or occurs in the body. *)
Theorem extractCodeBlock_fenced (pre lang body post : string) :
  no_backtick pre = true -> no_backtick body = true ->
  extractCodeBlock (pre ++ "```" ++ lang ++ String "010" "" ++ body ++ "```" ++ post)%string lang
  = GoStrings.TrimSpace body.
Proof.
  intros Hp Hb; unfold extractCodeBlock; rewrite !of_string_app.
  change (Bytes.of_string "```"%string) with [96; 96; 96]; change (Bytes.of_string (String "010" "")%string) with [10].
  assert (E : forall P L B Q : list Z,
    (P ++ [96; 96; 96] ++ L ++ [10] ++ B ++ [96; 96; 96] ++ Q
     = P ++ ([96; 96; 96] ++ L) ++ (10 :: B) ++ [96; 96; 96] ++ Q)%list)
    by (intros; rewrite <- !app_assoc; reflexivity).
  rewrite E, extract_fenced_bytes; [reflexivity | intros b; apply In_no_tick; exact Hp | ].
  intros b [<- | Hin]; [discriminate | exact (In_no_tick _ _ Hb Hin)].
Qed.

(** X2: when the only block of an answer is fenced with another
    language tag (lower-case letters, not starting with [clarity]), the code
    the providers keep is that block with the tag as its first line: the
    fallback [extractCodeBlock text ""] does not skip the tag. *)
Theorem select_code_other_language (pre lang body post : string) :
  no_backtick pre = true -> no_backtick body = true -> no_backtick post = true ->
  lang <> ""%string -> lower_word lang = true ->
  GoJSON.is_prefix (Bytes.of_string "clarity"%string) (Bytes.of_string lang) = false ->
  GoJSON.is_prefix (Bytes.of_string "clarity"%string) (Bytes.of_string post) = false ->
  select_code (pre ++ "```" ++ lang ++ String "010" "" ++ body ++ "```" ++ post)%string
  = GoStrings.TrimSpace (lang ++ String "010" "" ++ body)%string.
Proof.
  intros Hp Hb Hq Hl Hw Hcl Hcq.
  assert (HL : forall b, In b (Bytes.of_string lang) -> b <> 96)
    by (intros b Hin; pose proof (lower_word_in _ _ Hw Hin); lia).
  destruct (Bytes.of_string lang) as [ | x L] eqn:EL.
  { destruct lang; [congruence | discriminate]. }
  assert (Hx : 97 <= x <= 122) by (apply (lower_word_in lang); [exact Hw | rewrite EL; left; reflexivity]).
  unfold select_code, extractCodeBlock, GoStrings.TrimSpace; rewrite !of_string_app, EL.
  change (Bytes.of_string "```"%string) with [96; 96; 96]; change (Bytes.of_string (String "010" "")%string) with [10].
  set (P := Bytes.of_string pre); set (B := Bytes.of_string body); set (Q := Bytes.of_string post).
  assert (HP : forall b, In b P -> b <> 96) by (intros b; apply In_no_tick; exact Hp).
  assert (HB : forall b, In b B -> b <> 96) by (intros b; apply In_no_tick; exact Hb).
  assert (HQ : forall b, In b Q -> b <> 96) by (intros b; apply In_no_tick; exact Hq).
  (* no [```clarity] fence *)
  assert (Hnone : extract_code_block (P ++ [96; 96; 96] ++ (x :: L) ++ [10] ++ B ++ [96; 96; 96] ++ Q)
                    (Bytes.of_string "clarity"%string) = []).
  { unfold extract_code_block; change (Bytes.of_string "clarity"%string) with [99; 108; 97; 114; 105; 116; 121].
    cbv beta iota zeta; change fence with [96; 96; 96]; cbn [app].
    unfold Index.
    set (S := [99; 108; 97; 114; 105; 116; 121]).
    replace (index_from (P ++ 96 :: 96 :: 96 :: x :: L ++ 10 :: B ++ 96 :: 96 :: 96 :: Q)
               (96 :: 96 :: 96 :: S)) with (@None nat); [reflexivity | symmetry].
    rewrite index_from_skip by exact HP; cbn [option_map].
    replace (index_from (96 :: 96 :: 96 :: x :: L ++ 10 :: B ++ 96 :: 96 :: 96 :: Q) (96 :: 96 :: 96 :: S))
      with (@None nat); [reflexivity | symmetry].
    apply index_from_fence_none.
    - destruct (GoJSON.is_prefix S (x :: L ++ 10 :: B ++ 96 :: 96 :: 96 :: Q)) eqn:E; [ | reflexivity].
      change (x :: L ++ 10 :: B ++ 96 :: 96 :: 96 :: Q)%list
        with ((x :: L) ++ 10 :: (B ++ 96 :: 96 :: 96 :: Q))%list in E.
      apply is_prefix_stop in E; [ | simpl; lia].
      change S with (Bytes.of_string "clarity"%string) in E; rewrite Hcl in E; discriminate.
    - intros y R' Ey; injection Ey as <- _; lia.
    - replace (x :: L ++ 10 :: B ++ 96 :: 96 :: 96 :: Q)%list
        with (((x :: L) ++ 10 :: B) ++ (96 :: 96 :: 96 :: Q))%list
        by (rewrite <- app_assoc; reflexivity).
      rewrite index_from_skip.
      2: { intros b Hin; apply in_app_or in Hin as [Hin | [<- | Hin]];
           [apply HL; exact Hin | discriminate | apply HB; exact Hin]. }
      cbn [app]; rewrite index_from_fence_none; [reflexivity | | | ].
      + change S with (Bytes.of_string "clarity"%string); exact Hcq.
      + intros y R' Ey; apply HQ; rewrite Ey; left; reflexivity.
      + apply index_from_no_tick; exact HQ. }
  rewrite Hnone; change (String.eqb (Bytes.to_string []) ""%string) with true; cbv iota.
  change (Bytes.of_string ""%string) with (@nil Z).
  assert (E : (P ++ [96; 96; 96] ++ (x :: L) ++ [10] ++ B ++ [96; 96; 96] ++ Q
               = P ++ ([96; 96; 96] ++ []) ++ ((x :: L) ++ 10 :: B) ++ [96; 96; 96] ++ Q)%list)
    by (rewrite <- !app_assoc; reflexivity).
  rewrite E, extract_fenced_bytes; [ | exact HP | ].
  - cbn [app]; rewrite (proj2 (Z.eqb_neq x 10)) by lia; reflexivity.
  - intros b Hin; apply in_app_or in Hin as [Hin | [<- | Hin]];
      [apply HL; exact Hin | discriminate | apply HB; exact Hin].
Qed.




(** One pass of the loop of [removeCodeBlocks]: [None] when it stops,
    otherwise the shorter text. *)
Lemma remove_loop_S (f : nat) (r : list Z) :
  remove_loop (S f) r =
  match index_from r fence with
  | None => r
  | Some i =>
      match index_from (skipn (i + 3) r) fence with
      | None => r
      | Some j => remove_loop f (firstn i r ++ skipn (i + 3 + j + 3) r)
      end
  end.
Proof.
  cbn [remove_loop]; unfold Index.
  destruct (index_from r fence) as [i | ]; [ | reflexivity].
  rewrite (proj2 (Z.eqb_neq _ _)) by lia.
  replace (Z.to_nat (Z.of_nat i + 3)) with (i + 3)%nat by lia.
  destruct (index_from (skipn (i + 3) r) fence) as [j | ]; [ | reflexivity].
  rewrite (proj2 (Z.eqb_neq _ _)) by lia.
  replace (Z.to_nat (Z.of_nat i + 3 + Z.of_nat j + 3)) with (i + 3 + j + 3)%nat by lia.
  replace (Z.to_nat (Z.of_nat i)) with i by lia; reflexivity.
Qed.

Lemma remove_shrinks (r : list Z) (i j : nat) :
  index_from r fence = Some i -> index_from (skipn (i + 3) r) fence = Some j ->
  (length (firstn i r ++ skipn (i + 3 + j + 3) r) + 6 <= length r)%nat.
Proof.
  intros Hi Hj; apply index_from_bound in Hi; apply index_from_bound in Hj.
  rewrite fence_eq in Hi, Hj; cbn [length] in Hi, Hj; rewrite length_skipn in Hj.
  rewrite length_app, length_firstn, length_skipn; lia.
Qed.

Lemma remove_loop_nil (f : nat) : remove_loop f [] = [].
Proof. destruct f; reflexivity. Qed.

(** The fuel of the loop does not matter once it covers the text. *)
Lemma remove_loop_fuel (f1 f2 : nat) (r : list Z) :
  (length r <= f1)%nat -> (length r <= f2)%nat -> remove_loop f1 r = remove_loop f2 r.
Proof.
  revert f2 r; induction f1 as [ | f1 IH]; intros f2 r H1 H2.
  - destruct r; [ | cbn in H1; lia]; rewrite !remove_loop_nil; reflexivity.
  - destruct f2 as [ | f2].
    + destruct r; [ | cbn in H2; lia]; rewrite !remove_loop_nil; reflexivity.
    + rewrite !remove_loop_S.
      destruct (index_from r fence) as [i | ] eqn:Hi; [ | reflexivity].
      destruct (index_from (skipn (i + 3) r) fence) as [j | ] eqn:Hj; [ | reflexivity].
      pose proof (remove_shrinks r i j Hi Hj); apply IH; lia.
Qed.




(** X4: [removeCodeBlocks] drops a fenced block together with its
    markers, and goes on with the rest of the text, when no backtick
    precedes the block or occurs inside it. *)
Theorem removeCodeBlocks_strips_block (pre body post : string) :
  no_backtick pre = true -> no_backtick body = true ->
  removeCodeBlocks (pre ++ "```" ++ body ++ "```" ++ post)%string
  = removeCodeBlocks (pre ++ post)%string.
Proof.
  intros Hp Hb; unfold removeCodeBlocks; rewrite !of_string_app.
  change (Bytes.of_string "```"%string) with [96; 96; 96].
  set (P := Bytes.of_string pre); set (B := Bytes.of_string body); set (Q := Bytes.of_string post).
  assert (HP : forall b, In b P -> b <> 96) by (intros b; apply In_no_tick; exact Hp).
  assert (HB : forall b, In b B -> b <> 96) by (intros b; apply In_no_tick; exact Hb).
  replace (length (P ++ [96; 96; 96] ++ B ++ [96; 96; 96] ++ Q))
    with (S (length P + length B + 5 + length Q)) by (rewrite !length_app; cbn [length]; lia).
  rewrite remove_loop_S.
  assert (Hi : index_from (P ++ [96; 96; 96] ++ B ++ [96; 96; 96] ++ Q) fence = Some (length P)).
  { rewrite fence_eq, index_from_skip by exact HP.
    rewrite index_from_here by apply is_prefix_app; cbn; f_equal; lia. }
  rewrite Hi.
  assert (Hs : skipn (length P + 3) (P ++ [96; 96; 96] ++ B ++ [96; 96; 96] ++ Q)
               = (B ++ [96; 96; 96] ++ Q)%list) by (rewrite skipn_length_app; reflexivity).
  assert (Hj : index_from (B ++ [96; 96; 96] ++ Q) fence = Some (length B)).
  { rewrite fence_eq, index_from_skip by exact HB.
    rewrite index_from_here by apply is_prefix_app; cbn; f_equal; lia. }
  rewrite Hs, Hj.
  assert (Hr : (firstn (length P) (P ++ [96; 96; 96] ++ B ++ [96; 96; 96] ++ Q)
                ++ skipn (length P + 3 + length B + 3) (P ++ [96; 96; 96] ++ B ++ [96; 96; 96] ++ Q)
                = P ++ Q)%list).
  { rewrite firstn_app, firstn_all, Nat.sub_diag, app_nil_r; f_equal.
    replace (length P + 3 + length B + 3)%nat with (length P + (3 + (length B + 3)))%nat by lia.
    rewrite skipn_length_app.
    change (skipn (length B + 3)%nat (B ++ [96; 96; 96] ++ Q) = Q)%list.
    rewrite skipn_length_app; reflexivity. }
  rewrite Hr; f_equal; f_equal; apply remove_loop_fuel; rewrite length_app; lia.
Qed.


Lemma extractCodeBlock_fenced_witness :
  extractCodeBlock ("Here: " ++ "```" ++ "clarity" ++ String "010" "" ++ "(ok u1)" ++ "```" ++ " done")%string
    "clarity" = GoStrings.TrimSpace "(ok u1)".
Proof. apply extractCodeBlock_fenced; reflexivity. Defined.

Lemma select_code_other_language_witness :
  select_code ("Try: " ++ "```" ++ "python" ++ String "010" "" ++ "print(1)" ++ "```" ++ " end")%string
  = GoStrings.TrimSpace ("python" ++ String "010" "" ++ "print(1)")%string.
Proof. apply select_code_other_language; try reflexivity; discriminate. Defined.

Lemma removeCodeBlocks_strips_block_witness :
  removeCodeBlocks ("See " ++ "```" ++ "(ok u1)" ++ "```" ++ " below")%string
  = removeCodeBlocks ("See " ++ " below")%string.
Proof. apply removeCodeBlocks_strips_block; reflexivity. Defined.

End ResponseUtilsProofs.

(** ** Lists and finite searches *)
Module ListFacts.

Lemma find_app {A} (f : A -> bool) (l1 l2 : list A) :
  find f (l1 ++ l2) = match find f l1 with Some x => Some x | None => find f l2 end.
Proof. induction l1 as [ | a l1 IH]; [reflexivity | cbn; destruct (f a); [reflexivity | exact IH]]. Qed.

Lemma find_none {A} (f : A -> bool) (l : list A) : (forall x, In x l -> f x = false) -> find f l = None.
Proof.
  induction l as [ | a l IH]; intros H; [reflexivity | cbn].
  rewrite (H a (or_introl eq_refl)); apply IH; intros x Hx; apply H; right; exact Hx.
Qed.


Lemma fold_max_bound (l : list Z) (x : Z) : In x l -> x <= fold_right Z.max 0 l.
Proof.
  induction l as [ | a l IH]; intros H; [destruct H | ].
  destruct H as [<- | H]; cbn; [lia | specialize (IH H); lia].
Qed.

End ListFacts.

Module MaintenanceProofs.
Import Maintenance.
Local Open Scope string_scope.

Lemma enabled_run_ops (s : state) (ops : list op) :
  maintenanceEnabled (run_ops s ops)
  = match last_mode ops with Some b => b | None => maintenanceEnabled s end.
Proof.
  unfold run_ops; revert s; induction ops as [ | o ops IH]; intros s; [reflexivity | ].
  cbn [fold_left last_mode]; rewrite IH.
  destruct (last_mode ops); [reflexivity | ].
  destruct o as [ | m]; [reflexivity | cbn; unfold SetMaintenanceMessage; destruct (String.eqb m ""); reflexivity].
Qed.

(** X5: after any sequence of calls, the middleware lets requests through
    exactly when the last [SetMaintenanceMode] call disabled maintenance
    mode ([SetMaintenanceMessage] never changes it), and when it blocks, it
    answers 503 with the error [maintenance_mode] and a non-empty message. *)
Theorem middleware_follows_last_mode (s : state) (ops : list op) :
  (MaintenanceModeMiddleware (run_ops s ops) = Next
   <-> match last_mode ops with Some b => b = false | None => maintenanceEnabled s = false end)
  /\ (forall status error message,
        MaintenanceModeMiddleware (run_ops s ops) = Abort status error message ->
        status = 503 /\ error = "maintenance_mode" /\ message <> "").
Proof.
  unfold MaintenanceModeMiddleware; rewrite enabled_run_ops.
  split.
  - destruct (last_mode ops) as [[ | ] | ]; [ | | destruct (maintenanceEnabled s)];
      split; intros H; try discriminate; reflexivity.
  - intros status error message H.
    destruct (match last_mode ops with Some b => b | None => maintenanceEnabled s end);
      [ | discriminate].
    injection H as <- <- <-; split; [reflexivity | split; [reflexivity | ]].
    destruct (String.eqb (maintenanceMessage (run_ops s ops)) "") eqn:E; [discriminate | ].
    intros E'; rewrite E', String.eqb_refl in E; discriminate.
Qed.

(** X6: a [SetMaintenanceMode(false)] without a message erases any custom
    message: when maintenance mode is enabled again without a message,
    clients get the default message, whatever was set before. *)
Theorem reenable_after_bare_disable (s : state) (m : string) :
  MaintenanceModeMiddleware
    (SetMaintenanceMode true [] (SetMaintenanceMode false [] (SetMaintenanceMessage m s)))
  = Abort 503 "maintenance_mode" defaultMaintenanceMessage.
Proof. reflexivity. Qed.

(** X7: the startup of the server: while the data directories are being
    initialised the middleware answers with the initialisation message, with
    no data to initialise it lets requests through, and once the background
    initialisation ends it lets requests through after a success and
    answers with the failure message after a failure, whatever calls
    happened in between. *)
Theorem startup_maintenance (needsInitialization failed : bool) (s : state) :
  MaintenanceModeMiddleware (startup needsInitialization init_state)
  = (if needsInitialization then Abort 503 "maintenance_mode" initMessage else Next)
  /\ MaintenanceModeMiddleware (initialization_done failed s)
     = (if failed then Abort 503 "maintenance_mode" "Initialization failed. Please check server logs."
        else Next).
Proof. destruct needsInitialization, failed; split; reflexivity. Qed.

End MaintenanceProofs.

Module ConversationRepoProofs.
Import Conversation ConversationRepo ListFacts.
Local Open Scope string_scope.






Lemma SerializeHistory_eq (c : Conversation) :
  SerializeHistory c = Ok (Bytes.to_string (marshal_turns (History c))).
Proof. reflexivity. Qed.



(** X10: [Save] never changes a row of another user: the rows of other
    users are the same before and after the call, whatever its outcome. *)
Theorem Save_other_users_untouched (now : Z) (t : table) (c : Conversation) (x : row) :
  row_user_id x <> UserID c ->
  In x (rows (snd (fst (Save now t c)))) <-> In x (rows t).
Proof.
  intros Hu; unfold Save; rewrite SerializeHistory_eq.
  destruct (Z.eqb (ID c) 0); destruct (fault t); cbn [fst snd rows]; try reflexivity.
  - rewrite in_app_iff; cbn; split; [intros [H | [H | []]]; [exact H | subst x; cbn in Hu; congruence] | ].
    intros H; left; exact H.
  - rewrite in_map_iff; split.
    + intros [y [Ey Hy]]; unfold update_row in Ey.
      destruct (Z.eqb (row_id y) (ID c) && Z.eqb (row_user_id y) (UserID c)) eqn:E.
      * subst x; cbn in Hu; apply andb_prop in E as [_ E]; apply Z.eqb_eq in E; congruence.
      * subst x; exact Hy.
    + intros H; exists x; split; [ | exact H]; unfold update_row.
      rewrite (proj2 (Z.eqb_neq (row_user_id x) (UserID c)) Hu), andb_false_r; reflexivity.
Qed.

(** X11: an update that matches no row, because the id does not exist or
    belongs to another user, still reports success and leaves the table
    unchanged. *)
Theorem Save_update_no_match (now : Z) (t : table) (c : Conversation) :
  fault t = None -> ID c <> 0 -> select_row t (ID c) (UserID c) = None ->
  fst (fst (Save now t c)) = Ok tt /\ rows (snd (fst (Save now t c))) = rows t.
Proof.
  intros Hf Hid Hn; unfold Save; rewrite SerializeHistory_eq, (proj2 (Z.eqb_neq _ _) Hid), Hf.
  split; [reflexivity | cbn [fst snd rows]].
  unfold select_row in Hn; induction (rows t) as [ | y l IH]; [reflexivity | ].
  cbn in Hn |- *; unfold update_row at 1.
  destruct (Z.eqb (row_id y) (ID c) && Z.eqb (row_user_id y) (UserID c)); [discriminate | ].
  f_equal; apply IH; exact Hn.
Qed.




Lemma Save_other_users_untouched_witness :
  In (mkRow 2 8 "[]" (Some "hello") 100 100)
     (rows (snd (fst (Save 200 ExtraScenarios.one_conversation ExtraScenarios.stored_conversation))))
  <-> In (mkRow 2 8 "[]" (Some "hello") 100 100) (rows ExtraScenarios.one_conversation).
Proof. apply Save_other_users_untouched; discriminate. Defined.

Lemma Save_update_no_match_witness :
  fst (fst (Save 200 ExtraScenarios.one_conversation
              (mkConversation 2 7 (Some []) "" 0 0))) = Ok tt
  /\ rows (snd (fst (Save 200 ExtraScenarios.one_conversation
                      (mkConversation 2 7 (Some []) "" 0 0))))
     = rows ExtraScenarios.one_conversation.
Proof. apply Save_update_no_match; [reflexivity | discriminate | reflexivity]. Defined.

End ConversationRepoProofs.

Module AccountsProofs.
Import Auth Accounts ListFacts.
Local Open Scope string_scope.



Lemma CreateUser_Ok (HashPassword : string -> result string)
  (db db' : DB) (now : Z) (username password : string) (email : option string) (role : string)
  (userID : Z) :
  CreateUser HashPassword db now username password email role = (Ok userID, db') ->
  exists passwordHash, HashPassword password = Ok passwordHash /\ fault db = None
  /\ existsb (fun u => String.eqb (User.Username u) username) (users db) = false
  /\ userID = 1 + fold_right Z.max 0 (map User.ID (users db))
  /\ let role' := if String.eqb role "" then RoleUser else role in
     (role' = RoleUser \/ role' = RoleAdmin)
  /\ db' = mkDB (users db ++ [User.mk userID username passwordHash email now true role'])
                (api_keys db) (fault db).
Proof.
  unfold CreateUser.
  destruct (String.length username <? 3)%nat; [discriminate | ].
  destruct (String.length password <? 6)%nat; [discriminate | ].
  set (role' := if String.eqb role "" then RoleUser else role).
  destruct (String.eqb role' RoleUser) eqn:Eu, (String.eqb role' RoleAdmin) eqn:Ea;
    cbn [negb andb]; try discriminate;
  (destruct (fault db) as [e | ] eqn:Ef; [discriminate | ]);
  (destruct (existsb _ (users db)) eqn:Ex; [discriminate | ]);
  (destruct (HashPassword password) as [h | e] eqn:Eh; [ | discriminate]);
  intros H; injection H as <- <-; exists h;
  repeat split; try reflexivity; try exact Ex;
  [left; apply String.eqb_eq; exact Eu | left; apply String.eqb_eq; exact Eu
  | right; apply String.eqb_eq; exact Ea].
Qed.

(** X12: [Register] followed by [Login] with the same username and
    password logs the new account in, with the id [Register] returned,
    whenever the password check accepts the stored hash of the password;
    and the account is created with the role [user] whatever the request. *)
Theorem Register_then_Login (CHP : string -> string -> bool) (HashPassword : string -> result string)
  (db db' : DB) (now : Z) (username password email : string) (userID : Z) (role : string) :
  (forall h, HashPassword password = Ok h -> CHP h password = true) ->
  Register HashPassword db now username password email = (RegisterCreated userID role, db') ->
  role = RoleUser
  /\ Login CHP db' username password = LoginOK userID username
  /\ (exists u, In u (users db') /\ User.ID u = userID /\ User.Role u = RoleUser
                /\ User.Email u = (if String.eqb email "" then None else Some email)).
Proof.
  intros Hchp; unfold Register.
  destruct (CreateUser HashPassword db now username password
            (if String.eqb email "" then None else Some email) RoleUser) as [[uid | e] db1] eqn:E;
    intros H; [ | discriminate].
  injection H as <- <- <-.
  apply CreateUser_Ok in E as [h [Eh [Hf [Hx [Hid [_ ->]]]]]]; cbv zeta in *.
  split; [reflexivity | split].
  - unfold Login, AuthenticateUser; cbn [fault users]; rewrite Hf, find_app.
    replace (find (fun u => String.eqb (User.Username u) username && User.IsActive u) (users db))
      with (@None User.t).
    2: { symmetry; apply find_none; intros x Hin.
         destruct (String.eqb (User.Username x) username) eqn:Eu; [ | reflexivity].
         assert (Ht : existsb (fun u => String.eqb (User.Username u) username) (users db) = true)
           by (apply existsb_exists; exists x; auto).
         congruence. }
    cbn [find User.Username User.IsActive]; rewrite String.eqb_refl; cbn [andb].
    cbn [User.PasswordHash]; rewrite (Hchp h Eh); reflexivity.
  - eexists; split; [apply in_or_app; right; left; reflexivity | ].
    repeat split; reflexivity.
Qed.

Lemma CreateUser_Err (HashPassword : string -> result string) (db db' : DB) (now : Z)
  (username password : string) (email : option string) (role : string) (e : string) :
  CreateUser HashPassword db now username password email role = (Err e, db') -> db' = db.
Proof.
  unfold CreateUser;
  repeat match goal with
         | |- context [if ?b then _ else _] => destruct b
         | |- context [match ?x with Some _ => _ | None => _ end] => destruct x
         | |- context [match ?x with Ok _ => _ | Err _ => _ end] => destruct x
         end;
  intros H; injection H; auto; discriminate.
Qed.

(** X13: [CreateUser] keeps the [users] table consistent: ids and
    usernames stay distinct and every role is [user] or [admin]; and when it
    fails, the table is unchanged. *)
Theorem CreateUser_keeps_users_ok (HashPassword : string -> result string) (db : DB) (now : Z)
  (username password : string) (email : option string) (role : string) :
  users_ok db ->
  users_ok (snd (CreateUser HashPassword db now username password email role))
  /\ (forall e, fst (CreateUser HashPassword db now username password email role) = Err e ->
        snd (CreateUser HashPassword db now username password email role) = db).
Proof.
  intros Hok.
  destruct (CreateUser HashPassword db now username password email role) as [[uid | e] db'] eqn:E;
    cbn [fst snd].
  - split; [ | discriminate].
    apply CreateUser_Ok in E as [h [_ [_ [Hx [Hid [Hr ->]]]]]].
    destruct Hok as [Hi [Hn Hro]]; unfold users_ok; cbn [users]; split; [ | split].
    + rewrite map_app; cbn [map]; apply (Permutation_NoDup (Permutation_cons_append _ _)).
      constructor; [ | exact Hi]; intros Hin.
      pose proof (fold_max_bound _ _ Hin) as Hb; cbn [User.ID] in Hb; lia.
    + rewrite map_app; cbn [map]; apply (Permutation_NoDup (Permutation_cons_append _ _)).
      constructor; [ | exact Hn]; intros Hin; apply in_map_iff in Hin as [u [Eu Hu]].
      assert (Ht : existsb (fun u => String.eqb (User.Username u) username) (users db) = true)
        by (apply existsb_exists; exists u; split; [exact Hu | apply String.eqb_eq; exact Eu]).
      congruence.
    + apply Forall_app; split; [exact Hro | constructor; [exact Hr | constructor]].
  - split; [ | intros e' _; exact (CreateUser_Err _ _ _ _ _ _ _ _ _ E)].
    rewrite (CreateUser_Err _ _ _ _ _ _ _ _ _ E); exact Hok.
Qed.


Lemma Register_then_Login_witness :
  RoleUser = RoleUser
  /\ Login ExtraScenarios.sample_check
       (snd (Register ExtraScenarios.sample_hash ExtraScenarios.empty_db 100 "alice" "secret1" ""))
       "alice" "secret1" = LoginOK 1 "alice"
  /\ (exists u, In u (users (snd (Register ExtraScenarios.sample_hash ExtraScenarios.empty_db 100
                                    "alice" "secret1" "")))
                /\ User.ID u = 1 /\ User.Role u = RoleUser
                /\ User.Email u = (if String.eqb "" "" then None else Some "")).
Proof.
  apply (Register_then_Login ExtraScenarios.sample_check ExtraScenarios.sample_hash
           ExtraScenarios.empty_db _ 100 "alice" "secret1" "" 1 RoleUser).
  - intros h Hh; injection Hh as <-; apply String.eqb_refl.
  - vm_compute; reflexivity.
Defined.

Lemma CreateUser_keeps_users_ok_witness :
  users_ok (snd (CreateUser ExtraScenarios.sample_hash ExtraScenarios.empty_db 100 "alice" "secret1"
                   None ""))
  /\ (forall e, fst (CreateUser ExtraScenarios.sample_hash ExtraScenarios.empty_db 100 "alice"
                       "secret1" None "") = Err e ->
        snd (CreateUser ExtraScenarios.sample_hash ExtraScenarios.empty_db 100 "alice" "secret1"
               None "") = ExtraScenarios.empty_db).
Proof.
  apply CreateUser_keeps_users_ok; split; [constructor | split; constructor].
Defined.

End AccountsProofs.

Module APIKeysProofs.
Import Auth APIKeys.
Local Open Scope string_scope.

Lemma get_in (n : nat) (s : string) (c : ascii) :
  String.get n s = Some c -> In c (list_ascii_of_string s).
Proof.
  revert n; induction s as [ | a s IH]; intros n H; [destruct n; discriminate | ].
  destruct n as [ | n]; cbn in H |- *; [injection H as <-; left; reflexivity | right; exact (IH n H)].
Qed.

Lemma get_some (n : nat) (s : string) : (n < String.length s)%nat -> exists c, String.get n s = Some c.
Proof.
  revert n; induction s as [ | a s IH]; intros n H; [cbn in H; lia | ].
  destruct n as [ | n]; [exists a; reflexivity | apply IH; cbn in H; lia].
Qed.

Lemma charset_at_in (num : Z) : 0 <= num < 62 -> In (charset_at num) (list_ascii_of_string apiKeyCharset).
Proof.
  intros H; unfold charset_at.
  destruct (get_some (Z.to_nat num) apiKeyCharset) as [c Hc]; [cbn; lia | ].
  rewrite Hc; exact (get_in _ _ _ Hc).
Qed.

Lemma fill_ok (randInt : nat -> result Z) (i n : nat) :
  (forall k, (i <= k < i + n)%nat -> exists num, randInt k = Ok num /\ 0 <= num < 62) ->
  exists buf, fill randInt i n = Ok buf /\ length buf = n
  /\ forall c, In c buf -> In c (list_ascii_of_string apiKeyCharset).
Proof.
  revert i; induction n as [ | n IH]; intros i H; [exists []; repeat split; intros c [] | ].
  destruct (H i) as [num [Hn Hr]]; [lia | ].
  destruct (IH (S i)) as [buf [Hb [Hl Hc]]]; [intros k Hk; apply H; lia | ].
  exists (charset_at num :: buf); cbn; rewrite Hn, Hb; split; [reflexivity | split; [cbn; lia | ]].
  intros c [<- | Hin]; [apply charset_at_in; exact Hr | exact (Hc c Hin)].
Qed.

(** X14: when every draw of [rand.Int] succeeds, [GenerateAPIKey] returns
    [mk_] followed by 32 characters of the charset, and the prefix stored
    for the key by [GetAPIKeyPrefix] is [mk_] and the first 5 of them. *)
Theorem GenerateAPIKey_shape (randInt : nat -> result Z) :
  (forall i, (i < 32)%nat -> exists num, randInt i = Ok num /\ 0 <= num < 62) ->
  exists buf, GenerateAPIKey randInt = Ok ("mk_" ++ string_of_list_ascii buf)
  /\ length buf = 32%nat
  /\ (forall c, In c buf -> In c (list_ascii_of_string apiKeyCharset))
  /\ GetAPIKeyPrefix ("mk_" ++ string_of_list_ascii buf) = "mk_" ++ string_of_list_ascii (firstn 5 buf).
Proof.
  intros H; destruct (fill_ok randInt 0 32) as [buf [Hb [Hl Hc]]]; [intros k Hk; apply H; lia | ].
  exists buf; unfold GenerateAPIKey, apiKeyLength; rewrite Hb; split; [reflexivity | split; [exact Hl | split; [exact Hc | ]]].
  destruct buf as [ | a1 [ | a2 [ | a3 [ | a4 [ | a5 rest]]]]]; cbn in Hl; try lia.
  destruct rest as [ | a6 rest]; cbn in Hl; [lia | reflexivity].
Qed.

(** X15: [CompareAPIKey] ignores expiry: for an active key that has
    expired it reports a match for its owner, while [ValidateAPIKey]
    refuses the key as expired and the [APIKeyAuth] middleware aborts with
    401. *)
Theorem CompareAPIKey_ignores_expiry (HashAPIKey : string -> string) (db : DB) (now : Z)
  (apiKey : string) (k : APIKey.t) (t : Z) :
  apiKey <> "" -> fault db = None ->
  find (fun k => String.eqb (APIKey.APIKeyHash k) (HashAPIKey apiKey)) (api_keys db) = Some k ->
  APIKey.IsActive k = true -> APIKey.ExpiresAt k = Some t -> t < now ->
  CompareAPIKey HashAPIKey db (APIKey.UserID k) apiKey = Ok true
  /\ fst (ValidateAPIKey HashAPIKey db now apiKey) = Err "API key has expired"
  /\ fst (APIKeyAuth HashAPIKey db now apiKey) = Abort 401 "API key expired".
Proof.
  intros Hk Hf Hfind Ha He Ht.
  assert (Hne : String.eqb apiKey "" = false) by (apply String.eqb_neq; exact Hk).
  unfold CompareAPIKey, ValidateAPIKey, APIKeyAuth; rewrite Hne, Hf, Hfind, Ha, He.
  rewrite (proj2 (Z.ltb_lt _ _) Ht); split; [ | split; reflexivity].
  f_equal; apply existsb_exists; exists k; split; [exact (proj1 (find_some _ _ Hfind)) | ].
  apply find_some in Hfind as [_ Hh]; rewrite Z.eqb_refl, Hh, Ha; reflexivity.
Qed.


Lemma GenerateAPIKey_shape_witness :
  exists buf, GenerateAPIKey (fun i => Ok (Z.of_nat i)) = Ok ("mk_" ++ string_of_list_ascii buf)
  /\ length buf = 32%nat
  /\ (forall c, In c buf -> In c (list_ascii_of_string apiKeyCharset))
  /\ GetAPIKeyPrefix ("mk_" ++ string_of_list_ascii buf) = "mk_" ++ string_of_list_ascii (firstn 5 buf).
Proof. apply GenerateAPIKey_shape; intros i Hi; exists (Z.of_nat i); split; [reflexivity | lia]. Defined.

Lemma CompareAPIKey_ignores_expiry_witness :
  CompareAPIKey ExtraScenarios.sample_key_hash ExtraScenarios.expired_db 7 "mk_old" = Ok true
  /\ fst (ValidateAPIKey ExtraScenarios.sample_key_hash ExtraScenarios.expired_db 100 "mk_old")
     = Err "API key has expired"
  /\ fst (APIKeyAuth ExtraScenarios.sample_key_hash ExtraScenarios.expired_db 100 "mk_old")
     = Abort 401 "API key expired".
Proof.
  apply (CompareAPIKey_ignores_expiry ExtraScenarios.sample_key_hash ExtraScenarios.expired_db 100
           "mk_old" ExtraScenarios.expired_key 50); try reflexivity; discriminate.
Defined.

End APIKeysProofs.

Module BasicAuthProofs.
Import Auth BasicAuthMW.
Local Open Scope string_scope.

Lemma index_colon (u p : string) :
  no_colon u = true -> String.index 0 ":" (u ++ ":" ++ p) = Some (String.length u).
Proof.
  induction u as [ | a u IH]; intros H; [destruct p; reflexivity | ].
  unfold no_colon in H; cbn [list_ascii_of_string forallb] in H.
  apply andb_prop in H as [Ha H].
  change (String.index 0 ":" (String a (u ++ ":" ++ p)) = Some (S (String.length u))).
  change (String.index 0 ":" (String a (u ++ ":" ++ p)))
    with (if String.prefix ":" (String a (u ++ ":" ++ p)) then Some O
          else match String.index 0 ":" (u ++ ":" ++ p) with Some n => Some (S n) | None => None end).
  replace (String.prefix ":" (String a (u ++ ":" ++ p))) with false.
  2: { change (String.prefix ":" (String a (u ++ ":" ++ p)))
         with (if Ascii.ascii_dec ":" a then String.prefix "" (u ++ ":" ++ p) else false).
       destruct (Ascii.ascii_dec ":" a) as [E | E]; [ | reflexivity].
       rewrite <- E in Ha; discriminate. }
  rewrite IH by exact H; reflexivity.
Qed.

Lemma substring_app_skip (u s : string) (k m : nat) :
  substring (String.length u + k) m (u ++ s) = substring k m s.
Proof. induction u as [ | a u IH]; [reflexivity | exact IH]. Qed.

Lemma substring_app_prefix (u s : string) : substring 0 (String.length u) (u ++ s) = u.
Proof. induction u as [ | a u IH]; [destruct s; reflexivity | cbn; f_equal; exact IH]. Qed.

Lemma substring_all (s : string) : substring 0 (String.length s) s = s.
Proof. induction s as [ | a s IH]; [reflexivity | cbn; f_equal; exact IH]. Qed.


Lemma length_append (u s : string) : String.length (u ++ s) = (String.length u + String.length s)%nat.
Proof. induction u as [ | a u IH]; [reflexivity | cbn; rewrite IH; reflexivity]. Qed.

Lemma SplitN_colon_first (u p : string) :
  no_colon u = true -> SplitN_colon (u ++ ":" ++ p) = [u; p].
Proof.
  intros H; unfold SplitN_colon; rewrite index_colon by exact H.
  rewrite substring_app_prefix; f_equal; f_equal.
  rewrite length_append; cbn [String.length append].
  replace (S (String.length u)) with (String.length u + 1)%nat by lia.
  rewrite substring_app_skip; cbn [substring].
  replace (String.length u + S (String.length p) - (String.length u + 1))%nat
    with (String.length p) by lia.
  apply substring_all.
Qed.

(** X16: [BasicAuth] splits the decoded credentials at their first colon:
    the username is what precedes it and the password is all the rest,
    colons included; the request passes exactly when [AuthenticateUser]
    accepts that pair, with the account's name, id and role stored on the
    context, and is refused with 401 and a [WWW-Authenticate] challenge
    otherwise. *)
Theorem BasicAuth_splits_first_colon (CHP : string -> string -> bool)
  (DecodeString : string -> result string) (db : DB) (payload username password : string) :
  DecodeString payload = Ok (username ++ ":" ++ password) -> no_colon username = true ->
  BasicAuth CHP DecodeString db ("Basic " ++ payload)
  = match AuthenticateUser CHP db username password with
    | Err _ => (Abort 401 "Invalid credentials", [("WWW-Authenticate", "Basic realm=Restricted")])
    | Ok user =>
        (Next [("user_role", Gin.AString (User.Role user)); ("user_id", Gin.AInt (User.ID user));
               ("username", Gin.AString (User.Username user))], [])
    end.
Proof.
  intros Hd Hu; unfold BasicAuth.
  replace (String.eqb ("Basic " ++ payload) "") with false by reflexivity.
  replace (String.prefix "Basic " ("Basic " ++ payload)) with true by (destruct payload; reflexivity).
  cbv iota beta zeta; cbn [negb].
  replace (substring (String.length "Basic ") (String.length ("Basic " ++ payload) - String.length "Basic ")
             ("Basic " ++ payload)) with payload.
  2: { rewrite length_append; rewrite <- (Nat.add_0_r (String.length "Basic ")) at 1.
       rewrite substring_app_skip.
       replace (String.length "Basic " + String.length payload - String.length "Basic ")%nat
         with (String.length payload) by lia.
       symmetry; apply substring_all. }
  rewrite Hd, SplitN_colon_first by exact Hu; reflexivity.
Qed.

Lemma Get_APIKeyAuth_keys (keyID userID : Z) :
  Gin.Get (Gin.Set_ "api_key_id" (Gin.AInt keyID) (Gin.Set_ "user_id" (Gin.AInt userID) []))
    "user_role" = None.
Proof. reflexivity. Qed.

(** X17: [RequireRole] never lets through a request authenticated by
    [APIKeyAuth], whatever the role: that middleware stores no
    [user_role]. *)
Theorem RequireRole_after_APIKeyAuth (HashAPIKey : string -> string) (db db' : DB) (now : Z)
  (apiKey role : string) (c : Gin.keys) :
  APIKeyAuth HashAPIKey db now apiKey = (Next c, db') ->
  RequireRole role c = Abort 403 "insufficient permissions".
Proof.
  unfold APIKeyAuth.
  destruct (String.eqb apiKey ""); [discriminate | ].
  destruct (fault db); [discriminate | ].
  destruct (find _ (api_keys db)) as [k | ]; [ | discriminate].
  destruct (match APIKey.ExpiresAt k with Some t => Z.ltb t now | None => false end); [discriminate | ].
  destruct (update_where _ _ _); intros H; injection H as <- _; reflexivity.
Qed.



Lemma BasicAuth_splits_first_colon_witness :
  BasicAuth ExtraScenarios.sample_check ExtraScenarios.sample_decode ExtraScenarios.admin_db
    ("Basic " ++ "YWxpY2U6c2U6Y3JldDE=")
  = match AuthenticateUser ExtraScenarios.sample_check ExtraScenarios.admin_db "alice" "se:cret1" with
    | Err _ => (Abort 401 "Invalid credentials", [("WWW-Authenticate", "Basic realm=Restricted")])
    | Ok user =>
        (Next [("user_role", Gin.AString (User.Role user)); ("user_id", Gin.AInt (User.ID user));
               ("username", Gin.AString (User.Username user))], [])
    end.
Proof. apply BasicAuth_splits_first_colon; reflexivity. Defined.

Lemma RequireRole_after_APIKeyAuth_witness :
  RequireRole RoleAdmin [("api_key_id", Gin.AInt 1); ("user_id", Gin.AInt 7)]
  = Abort 403 "insufficient permissions".
Proof.
  apply (RequireRole_after_APIKeyAuth ExtraScenarios.sample_key_hash ExtraScenarios.admin_db
           (snd (APIKeyAuth ExtraScenarios.sample_key_hash ExtraScenarios.admin_db 100 "mk_live"))
           100 "mk_live").
  vm_compute; reflexivity.
Defined.


End BasicAuthProofs.


(** ** The query-log repository and its handlers *)
Module QueryLogRepoProofs.
Import QueryLogRepo QueryLogScenarios.
Local Open Scope string_scope.

Lemma string_of_null_if_empty (s : string) : string_of_null (null_if_empty s) = s.
Proof.
  unfold null_if_empty, string_of_null.
  destruct (String.eqb_spec s "") as [-> | _]; reflexivity.
Qed.

Lemma scan_row_of (id : Z) (l : QueryLog.QueryLog) : scan (row_of id l) = set_id id l.
Proof.
  unfold scan, row_of, set_id; cbn.
  rewrite !string_of_null_if_empty; reflexivity.
Qed.

(** X19: on a working table, [Create] inserts the log under the next id and
    stamps it with the time of the call, and [GetByID] of that id returns the
    log exactly as [Create] left it: the empty strings it stored as NULL come
    back as empty strings. *)
Theorem Create_then_GetByID (now : Z) (t : table) (l : QueryLog.QueryLog) :
  table_ok t -> fault t = None ->
  let '(res, t', out) := Create now t (Some l) in
  let l' := set_id (seq t + 1) (set_created_at now l) in
  res = Ok tt /\ out = Some l' /\ QueryLog.CreatedAt l' = now /\
  GetByID t' (seq t + 1) = Ok l' /\ table_ok t'.
Proof.
  intros Hok Hf; unfold Create; rewrite Hf; cbn zeta.
  split; [reflexivity | split; [reflexivity | split; [reflexivity | split]]].
  - unfold GetByID, select_row; cbn [fault rows].
    rewrite ListFacts.find_app, ListFacts.find_none.
    + cbn; rewrite Z.eqb_refl; f_equal; apply scan_row_of.
    + intros r Hr; apply Z.eqb_neq.
      unfold table_ok in Hok; rewrite Forall_forall in Hok; specialize (Hok r Hr); lia.
  - unfold table_ok in *; cbn [rows seq].
    apply Forall_app; split.
    + eapply Forall_impl; [ | exact Hok ]; intros r Hr; cbn beta in *; lia.
    + constructor; [cbn; lia | constructor].
Qed.

Lemma Create_then_GetByID_witness :
  table_ok (mkTable [] 0 None) /\ fault (mkTable [] 0 None) = None /\
  (let '(res, t', out) :=
     Create 100 (mkTable [] 0 None) (Some (QueryLog.mkQueryLog 0 7 None "/api/v1/chat" "q" "" "" 0 0 0 5 "success" "" None 0)) in
   let l' := set_id (seq (mkTable [] 0 None) + 1)
               (set_created_at 100 (QueryLog.mkQueryLog 0 7 None "/api/v1/chat" "q" "" "" 0 0 0 5 "success" "" None 0)) in
   res = Ok tt /\ out = Some l' /\ QueryLog.CreatedAt l' = 100 /\
   GetByID t' (seq (mkTable [] 0 None) + 1) = Ok l' /\ table_ok t').
Proof.
  split; [constructor | split; [reflexivity | ]].
  apply Create_then_GetByID; [constructor | reflexivity].
Defined.



Lemma insert_desc_In (r x : row) (rs : list row) : In x (insert_desc r rs) <-> r = x \/ In x rs.
Proof.
  induction rs as [ | h tl IH]; cbn; [tauto | ].
  destruct (Z.leb (row_created_at h) (row_created_at r)); cbn; [tauto | rewrite IH; tauto].
Qed.

Lemma order_by_In (x : row) (rs : list row) : In x (order_by_created_desc rs) <-> In x rs.
Proof.
  induction rs as [ | r rs IH]; cbn; [tauto | rewrite insert_desc_In, IH; tauto].
Qed.

Lemma insert_desc_HdRel (h r : row) (tl : list row) :
  HdRel newer_row h tl -> newer_row h r -> HdRel newer_row h (insert_desc r tl).
Proof.
  intros Hh Hr; destruct tl as [ | h' tl']; cbn.
  - constructor; exact Hr.
  - destruct (Z.leb (row_created_at h') (row_created_at r)); constructor; [exact Hr | ].
    inversion Hh; assumption.
Qed.

Lemma insert_desc_row_sorted (r : row) (rs : list row) :
  Sorted newer_row rs -> Sorted newer_row (insert_desc r rs).
Proof.
  induction rs as [ | h tl IH]; intros Hs; cbn.
  - constructor; constructor.
  - destruct (Z.leb (row_created_at h) (row_created_at r)) eqn:E.
    + constructor; [exact Hs | constructor; unfold newer_row; apply Z.leb_le; exact E].
    + inversion Hs; subst; constructor; [apply IH; assumption | ].
      apply insert_desc_HdRel; [assumption | ].
      unfold newer_row; apply Z.leb_gt in E; lia.
Qed.

Lemma order_by_sorted (rs : list row) : Sorted newer_row (order_by_created_desc rs).
Proof.
  induction rs as [ | r rs IH]; cbn; [constructor | apply insert_desc_row_sorted; exact IH].
Qed.

Lemma insert_desc_length (r : row) (rs : list row) :
  length (insert_desc r rs) = S (length rs).
Proof.
  induction rs as [ | h tl IH]; cbn; [reflexivity | ].
  destruct (Z.leb (row_created_at h) (row_created_at r)); cbn; [reflexivity | rewrite IH; reflexivity].
Qed.

Lemma order_by_length (rs : list row) : length (order_by_created_desc rs) = length rs.
Proof.
  unfold order_by_created_desc; induction rs as [ | r rs IH]; cbn [fold_right length];
    [reflexivity | rewrite insert_desc_length, IH; reflexivity].
Qed.

Lemma skipn_sorted {A} (R : A -> A -> Prop) (n : nat) (l : list A) :
  Sorted R l -> Sorted R (skipn n l).
Proof.
  revert l; induction n as [ | n IH]; intros l Hs; [exact Hs | ].
  destruct l as [ | a l]; [constructor | cbn; apply IH; inversion Hs; assumption].
Qed.

Lemma firstn_sorted {A} (R : A -> A -> Prop) (n : nat) (l : list A) :
  Sorted R l -> Sorted R (firstn n l).
Proof.
  revert l; induction n as [ | n IH]; intros l Hs; [constructor | ].
  destruct l as [ | a l]; [constructor | cbn].
  inversion Hs as [ | ? ? Hl Hh]; subst; constructor; [apply IH; exact Hl | ].
  destruct n as [ | n]; [constructor | ]; destruct l as [ | b l]; [constructor | ].
  inversion Hh; constructor; assumption.
Qed.

Lemma map_scan_sorted (rs : list row) :
  Sorted newer_row rs ->
  Sorted (fun a b => QueryLog.CreatedAt b <= QueryLog.CreatedAt a) (map scan rs).
Proof.
  induction rs as [ | r rs IH]; intros Hs; cbn; [constructor | ].
  inversion Hs as [ | ? ? Hl Hh]; subst; constructor; [apply IH; exact Hl | ].
  destruct rs as [ | r' rs]; cbn; constructor; inversion Hh; assumption.
Qed.

Lemma effective_limit_range (l : Z) : 1 <= effective_limit l <= 500.
Proof.
  unfold effective_limit.
  destruct (Z.leb_spec l 0); [cbn; lia | ].
  destruct (Z.ltb_spec 500 l); lia.
Qed.

Lemma List_length_le (t : table) (p : ListParams) (logs : list QueryLog.QueryLog) (total : Z) :
  List t p = Ok (logs, total) -> Z.of_nat (length logs) <= effective_limit (Limit p).
Proof.
  unfold List; destruct (fault t); [discriminate | ].
  intros H; inversion H; subst; clear H.
  rewrite length_map.
  pose proof (firstn_le_length (Z.to_nat (effective_limit (Limit p)))
    (skipn (Z.to_nat (offset p)) (order_by_created_desc (filter (matches p) (rows t))))).
  pose proof (effective_limit_range (Limit p)); lia.
Qed.

(** X21: every log of a page [List] returns is a stored row that passes all
    the filters, read back through the NULL mapping; a page holds at most the
    effective limit of logs, which is never above 500, and the logs come
    newest first. *)
Theorem List_page_shape (t : table) (p : ListParams) (logs : list QueryLog.QueryLog) (total : Z) :
  List t p = Ok (logs, total) ->
  (forall l, In l logs -> exists r, In r (rows t) /\ matches p r = true /\ l = scan r) /\
  Z.of_nat (length logs) <= effective_limit (Limit p) <= 500 /\
  Sorted (fun a b => QueryLog.CreatedAt b <= QueryLog.CreatedAt a) logs.
Proof.
  unfold List; destruct (fault t) as [f | ] eqn:Hf; [discriminate | ].
  intros H; inversion H as [[Hlogs Htotal]]; clear H.
  set (L := effective_limit (Limit p)).
  set (sorted := order_by_created_desc (filter (matches p) (rows t))).
  pose proof (effective_limit_range (Limit p)) as HL; fold L in HL.
  split; [ | split; [split | ]].
  - intros l Hl; apply in_map_iff in Hl as [r [<- Hr]].
    exists r.
    assert (Hin : In r sorted).
    { rewrite <- (firstn_skipn (Z.to_nat (offset p)) sorted); apply in_app_iff; right.
      rewrite <- (firstn_skipn (Z.to_nat L) (skipn (Z.to_nat (offset p)) sorted)).
      apply in_app_iff; left; exact Hr. }
    unfold sorted in Hin; rewrite order_by_In, filter_In in Hin.
    destruct Hin as [Hin Hm]; split; [exact Hin | split; [exact Hm | reflexivity]].
  - subst logs total; eapply List_length_le; unfold List; rewrite Hf; reflexivity.
  - lia.
  - apply map_scan_sorted, firstn_sorted, skipn_sorted, order_by_sorted.
Qed.

Lemma List_page_shape_witness :
  List sample_table sample_params =
    Ok (map scan [sample_row 2 7 "/api/v1/rag" "error" None 300;
                  sample_row 1 7 "/api/v1/chat" "success" (Some "openai") 100], 2) /\
  ((forall l, In l (map scan [sample_row 2 7 "/api/v1/rag" "error" None 300;
                              sample_row 1 7 "/api/v1/chat" "success" (Some "openai") 100]) ->
      exists r, In r (rows sample_table) /\ matches sample_params r = true /\ l = scan r) /\
   Z.of_nat (length (map scan [sample_row 2 7 "/api/v1/rag" "error" None 300;
                               sample_row 1 7 "/api/v1/chat" "success" (Some "openai") 100]))
     <= effective_limit (Limit sample_params) <= 500 /\
   Sorted (fun a b => QueryLog.CreatedAt b <= QueryLog.CreatedAt a)
     (map scan [sample_row 2 7 "/api/v1/rag" "error" None 300;
                sample_row 1 7 "/api/v1/chat" "success" (Some "openai") 100])).
Proof.
  split; [vm_compute; reflexivity | ].
  apply List_page_shape with (total := 2); vm_compute; reflexivity.
Defined.

Lemma List_Ok_inv (t : table) (p : ListParams) (logs : list QueryLog.QueryLog) (total : Z) :
  List t p = Ok (logs, total) ->
  fault t = None /\ total = Z.of_nat (length (filter (matches p) (rows t))) /\
  logs = map scan (firstn (Z.to_nat (effective_limit (Limit p)))
           (skipn (Z.to_nat (offset p)) (order_by_created_desc (filter (matches p) (rows t))))).
Proof.
  unfold List; destruct (fault t); [discriminate | ].
  intros H; inversion H; subst; split; [reflexivity | split; reflexivity].
Qed.

Lemma matches_paging (p : ListParams) (page limit : Z) :
  matches (mkListParams page limit (UserID p) (APIKeyID p) (Status p) (Endpoint p)
             (ModelProvider p) (StartDate p) (EndDate p)) = matches p.
Proof. destruct p; reflexivity. Qed.

(** X22: the total [List] reports counts every row that passes the filters,
    whatever the page and the limit: it is at least the number of logs on the
    page, and any other page and limit with the same filters give the same
    total. *)
Theorem List_total_ignores_paging (t : table) (p : ListParams) (logs : list QueryLog.QueryLog)
  (total page limit : Z) :
  List t p = Ok (logs, total) ->
  total = Z.of_nat (length (filter (matches p) (rows t))) /\
  Z.of_nat (length logs) <= total /\
  exists logs', List t (mkListParams page limit (UserID p) (APIKeyID p) (Status p) (Endpoint p)
                          (ModelProvider p) (StartDate p) (EndDate p)) = Ok (logs', total).
Proof.
  intros H; destruct (List_Ok_inv t p logs total H) as [Hf [Ht Hl]].
  split; [exact Ht | split].
  - subst logs total; rewrite length_map, length_firstn, length_skipn, order_by_length; lia.
  - unfold List; rewrite Hf, matches_paging, <- Ht; eexists; reflexivity.
Qed.

Lemma List_total_ignores_paging_witness :
  List sample_table sample_params =
    Ok (map scan [sample_row 2 7 "/api/v1/rag" "error" None 300;
                  sample_row 1 7 "/api/v1/chat" "success" (Some "openai") 100], 2) /\
  (2 = Z.of_nat (length (filter (matches sample_params) (rows sample_table))) /\
   Z.of_nat (length (map scan [sample_row 2 7 "/api/v1/rag" "error" None 300;
                               sample_row 1 7 "/api/v1/chat" "success" (Some "openai") 100])) <= 2 /\
   exists logs', List sample_table
     (mkListParams 2 1 (UserID sample_params) (APIKeyID sample_params) (Status sample_params)
        (Endpoint sample_params) (ModelProvider sample_params) (StartDate sample_params)
        (EndDate sample_params)) = Ok (logs', 2)).
Proof.
  split; [vm_compute; reflexivity | ].
  apply List_total_ignores_paging; vm_compute; reflexivity.
Defined.

Lemma wrap64_mod (x y : Z) : x mod 2 ^ 64 = y mod 2 ^ 64 -> wrap64 x = wrap64 y.
Proof.
  intros H; unfold wrap64; f_equal.
  rewrite (Z.add_mod x), (Z.add_mod y), H by lia; reflexivity.
Qed.

(** X23: [List] computes the offset in Go's 64-bit [int], so it wraps:
    two page numbers whose offsets agree modulo 2^64 return the same page.
    With limit 4, page 2^62 + 1 returns page 1 again. *)
Theorem List_offset_wraps (t : table) (p : ListParams) (page : Z) :
  ((effective_page page - 1) * effective_limit (Limit p)) mod 2 ^ 64 =
  ((effective_page (Page p) - 1) * effective_limit (Limit p)) mod 2 ^ 64 ->
  List t (mkListParams page (Limit p) (UserID p) (APIKeyID p) (Status p) (Endpoint p)
            (ModelProvider p) (StartDate p) (EndDate p)) = List t p.
Proof.
  intros H; unfold List; rewrite matches_paging.
  assert (Ho : offset (mkListParams page (Limit p) (UserID p) (APIKeyID p) (Status p) (Endpoint p)
                        (ModelProvider p) (StartDate p) (EndDate p)) = offset p).
  { unfold offset; cbn [Page Limit]; apply wrap64_mod; exact H. }
  rewrite Ho; reflexivity.
Qed.

Lemma List_offset_wraps_witness :
  ((effective_page (2 ^ 62 + 1) - 1) * effective_limit 4) mod 2 ^ 64 =
  ((effective_page 1 - 1) * effective_limit 4) mod 2 ^ 64 /\
  List sample_table (mkListParams (2 ^ 62 + 1) 4 None None "" "" "" None None) =
  List sample_table (mkListParams 1 4 None None "" "" "" None None) /\
  List sample_table (mkListParams 2 4 None None "" "" "" None None) = Ok ([], 3).
Proof.
  split; [vm_compute; reflexivity | split; [ | vm_compute; reflexivity]].
  exact (List_offset_wraps sample_table (mkListParams 1 4 None None "" "" "" None None)
           (2 ^ 62 + 1) eq_refl).
Defined.

Lemma offset_no_overflow (p : ListParams) :
  (effective_page (Page p) - 1) * effective_limit (Limit p) <= int64_max ->
  offset p = (effective_page (Page p) - 1) * effective_limit (Limit p).
Proof.
  intros H; unfold offset, wrap64, int64_max in *.
  assert (0 <= effective_page (Page p) - 1)
    by (unfold effective_page; destruct (Z.leb_spec (Page p) 0); lia).
  pose proof (effective_limit_range (Limit p)).
  rewrite Z.mod_small by nia; lia.
Qed.

(** X24: a page past the last matching row is empty (as long as its offset
    does not overflow [int]); the total still counts the matching rows. *)
Theorem List_past_last_page (t : table) (p : ListParams) (logs : list QueryLog.QueryLog) (total : Z) :
  List t p = Ok (logs, total) ->
  (effective_page (Page p) - 1) * effective_limit (Limit p) <= int64_max ->
  total <= (effective_page (Page p) - 1) * effective_limit (Limit p) ->
  logs = [].
Proof.
  intros H Hov Hpast; destruct (List_Ok_inv t p logs total H) as [_ [Ht Hl]].
  subst logs; rewrite offset_no_overflow by exact Hov.
  rewrite skipn_all2; [rewrite firstn_nil; reflexivity | ].
  rewrite order_by_length; lia.
Qed.

Lemma List_past_last_page_witness :
  List sample_table (mkListParams 3 1 (Some 7) None "" "" "" None None) = Ok ([], 2) /\
  (effective_page 3 - 1) * effective_limit 1 <= int64_max /\
  2 <= (effective_page 3 - 1) * effective_limit 1 /\ @nil QueryLog.QueryLog = [].
Proof.
  split; [vm_compute; reflexivity | split; [vm_compute; discriminate | split; [vm_compute; discriminate | ]]].
  apply (List_past_last_page sample_table (mkListParams 3 1 (Some 7) None "" "" "" None None) [] 2);
    vm_compute; [reflexivity | discriminate | discriminate].
Defined.

(** [GetStats] on a working table with rows in the range. *)
Lemma GetStats_nonempty (t : table) (s e : Z) (r : row) (rs : list row) :
  fault t = None -> filter (in_range s e) (rows t) = r :: rs ->
  GetStats t s e =
  Ok (mkStats (Z.of_nat (length (r :: rs)))
         (sum_col (status_is "success") (r :: rs)) (sum_col (status_is "error") (r :: rs))
         (QArith_base.Qmake (sum_col row_latency_ms (r :: rs)) (Pos.of_nat (length (r :: rs))))
         (sum_col row_input_tokens (r :: rs)) (sum_col row_output_tokens (r :: rs))
         (collectCounts (group_by string_dec row_endpoint (r :: rs)) [])
         (collectCounts (map (fun kc => (coalesce (fst kc) "", snd kc))
                             (group_by option_string_dec row_model_provider (r :: rs))) [])).
Proof. intros Hf Hrs; unfold GetStats; rewrite Hf, Hrs; reflexivity. Qed.

Lemma sum_status_count (st : string) (rs : list row) :
  sum_col (status_is st) rs = Z.of_nat (length (filter (fun r => String.eqb (row_status r) st) rs)).
Proof.
  induction rs as [ | r rs IH]; [reflexivity | ].
  cbn [sum_col fold_right filter]; unfold sum_col in IH; rewrite IH; unfold status_is.
  destruct (String.eqb (row_status r) st); cbn [length]; lia.
Qed.


Lemma success_error_all (rs : list row) :
  Forall (fun r => row_status r = "success" \/ row_status r = "error") rs ->
  (length (filter (fun r => String.eqb (row_status r) "success") rs) +
   length (filter (fun r => String.eqb (row_status r) "error") rs) = length rs)%nat.
Proof.
  induction rs as [ | r rs IH]; intros Hall; [reflexivity | cbn [filter length]].
  inversion Hall as [ | ? ? Hr Hrs]; subst; specialize (IH Hrs).
  destruct Hr as [Hr | Hr]; rewrite Hr; cbn [String.eqb Ascii.eqb Bool.eqb andb length]; lia.
Qed.









(** X25: with no row in the date range, [GetStats] fails: [SUM] over no
    rows is NULL and the [Scan] of [success_count] into an [int64] rejects
    it. So the stats endpoint answers 500 on an empty table, whatever the
    dates. *)
Theorem GetStats_fails_without_rows (parse : string -> option Z) (t : table) (s e : Z)
  (q : list (string * string)) :
  (fault t = None -> filter (in_range s e) (rows t) = [] ->
     GetStats t s e = Err ("aggregate stats: " ++ ErrNullInt64)) /\
  (rows t = [] ->
     QueryLogHandlers.GetQueryLogStats parse t q =
     QueryLogHandlers.ErrorReply 500 "failed to fetch query log stats").
Proof.
  split.
  - intros Hf Hrs; unfold GetStats; rewrite Hf, Hrs; reflexivity.
  - intros Hr; unfold QueryLogHandlers.GetQueryLogStats, GetStats.
    destruct (fault t); [reflexivity | rewrite Hr; reflexivity].
Qed.

Lemma GetStats_fails_without_rows_witness :
  GetStats sample_table 1000 2000 = Err ("aggregate stats: " ++ ErrNullInt64) /\
  QueryLogHandlers.GetQueryLogStats (fun _ => None) (mkTable [] 0 None) [] =
  QueryLogHandlers.ErrorReply 500 "failed to fetch query log stats".
Proof.
  split.
  - apply (GetStats_fails_without_rows (fun _ => None) sample_table 1000 2000 []);
      vm_compute; reflexivity.
  - apply (GetStats_fails_without_rows (fun _ => None) (mkTable [] 0 None) 0 0 []);
      reflexivity.
Defined.








End QueryLogRepoProofs.

Module QueryLogHandlerProofs.
Import QueryLogRepo QueryLogScenarios QueryLogHandlers QueryLogRepoProofs.
Local Open Scope string_scope.

(** X28: [ListQueryLogs] echoes the page and the limit as the query string
    gives them ([strconv.Atoi], 0 for a value that is not a number), not the
    ones [List] used: a page holds at most the effective limit of logs, and
    whenever the given limit is not positive or above 500 the echoed limit
    is not the page size that was applied. *)
Theorem ListQueryLogs_echoes_raw_paging (parse : string -> option Z) (t : table)
  (q : list (string * string)) :
  fault t = None ->
  let page := Atoi (DefaultQuery q "page" "1") in
  let limit := Atoi (DefaultQuery q "limit" "20") in
  exists logs total,
    ListQueryLogs parse t q = ListReply logs total page limit /\
    Z.of_nat (length logs) <= effective_limit limit /\
    (limit <= 0 \/ 500 < limit -> effective_limit limit <> limit).
Proof.
  intros Hf; cbv zeta; unfold ListQueryLogs.
  set (p := mkListParams _ _ _ _ _ _ _ _ _).
  destruct (List t p) as [[logs total] | err] eqn:HL.
  - exists logs, total; split; [reflexivity | split].
    + exact (List_length_le t p logs total HL).
    + intros Hr; pose proof (effective_limit_range (Atoi (DefaultQuery q "limit" "20"))); lia.
  - unfold List in HL; rewrite Hf in HL; discriminate.
Qed.

Lemma ListQueryLogs_echoes_raw_paging_witness :
  ListQueryLogs (fun _ => None) sample_table [("limit", "1000")] =
    ListReply (map scan [sample_row 2 7 "/api/v1/rag" "error" None 300;
                         sample_row 3 8 "/api/v1/chat" "success" (Some "gemini") 200;
                         sample_row 1 7 "/api/v1/chat" "success" (Some "openai") 100]) 3 1 1000 /\
  ListQueryLogs (fun _ => None) sample_table [("limit", "abc")] =
    ListReply (map scan [sample_row 2 7 "/api/v1/rag" "error" None 300;
                         sample_row 3 8 "/api/v1/chat" "success" (Some "gemini") 200;
                         sample_row 1 7 "/api/v1/chat" "success" (Some "openai") 100]) 3 1 0 /\
  (let page := Atoi (DefaultQuery [("limit", "1000")] "page" "1") in
   let limit := Atoi (DefaultQuery [("limit", "1000")] "limit" "20") in
   exists logs total,
     ListQueryLogs (fun _ => None) sample_table [("limit", "1000")] = ListReply logs total page limit /\
     Z.of_nat (length logs) <= effective_limit limit /\
     (limit <= 0 \/ 500 < limit -> effective_limit limit <> limit)).
Proof.
  split; [vm_compute; reflexivity | split; [vm_compute; reflexivity | ]].
  apply ListQueryLogs_echoes_raw_paging; reflexivity.
Defined.

(** X29: [GetQueryLog] answers 400 when the id is not a 64-bit decimal
    integer, and 404 exactly when the id parses, the database works and no
    row has that id; a database failure is never reported as 404. *)
Theorem GetQueryLog_status (t : table) (idParam : string) :
  (snd (ParseInt idParam) = false -> GetQueryLog t idParam = ErrorReply 400 "invalid id") /\
  (GetQueryLog t idParam = ErrorReply 404 "query log not found" <->
   snd (ParseInt idParam) = true /\ fault t = None /\ select_row t (fst (ParseInt idParam)) = None).
Proof.
  unfold GetQueryLog; destruct (ParseInt idParam) as [id ok]; cbn [fst snd].
  destruct ok; cbn [negb].
  - split; [discriminate | ].
    unfold GetByID; destruct (fault t) as [f | ].
    + cbn; split; [discriminate | intros [_ [C _]]; discriminate].
    + destruct (select_row t id); cbn.
      * split; [discriminate | intros [_ [_ C]]; discriminate].
      * split; [intros _; split; [reflexivity | split; reflexivity] | reflexivity].
  - split; [reflexivity | split; [discriminate | intros [C _]; discriminate]].
Qed.

Lemma middleware_entry_status (tracked : list string) (req : QueryLogMiddleware.Request)
  (out : QueryLogMiddleware.Outcome) (e : QueryLog.QueryLog) :
  In (QueryLogMiddleware.CallLogAsync e) (QueryLogMiddleware.QueryLogMiddleware tracked req out) ->
  QueryLog.Status e = "success" \/ QueryLog.Status e = "error".
Proof.
  unfold QueryLogMiddleware.QueryLogMiddleware.
  destruct (negb _); [intros [] | ].
  match goal with |- context [if ?c then _ else _] => destruct c end;
    intros [H | []]; [discriminate | ].
  inversion H; subst e; cbn [QueryLog.Status].
  unfold QueryLogMiddleware.getStatus.
  destruct (_ && _); [left | right]; reflexivity.
Qed.

Lemma Create_keeps_statuses (now : Z) (t : table) (l : QueryLog.QueryLog) :
  statuses_ok t -> (QueryLog.Status l = "success" \/ QueryLog.Status l = "error") ->
  statuses_ok (snd (fst (Create now t (Some l)))).
Proof.
  intros Ht Hl; unfold Create; destruct (fault t); cbn [fst snd]; [exact Ht | ].
  unfold statuses_ok in *; cbn [rows]; apply Forall_app; split; [exact Ht | ].
  constructor; [exact Hl | constructor].
Qed.

Lemma GetStats_Ok_balance (t : table) (s d : Z) (stats : QueryLogStats) :
  statuses_ok t -> GetStats t s d = Ok stats ->
  SuccessCount stats + ErrorCount stats = TotalQueries stats.
Proof.
  intros Hst H.
  destruct (fault t) as [f | ] eqn:Hf; [unfold GetStats in H; rewrite Hf in H; discriminate | ].
  destruct (filter (in_range s d) (rows t)) as [ | r rs] eqn:Hrs;
    [unfold GetStats in H; rewrite Hf, Hrs in H; discriminate | ].
  rewrite (GetStats_nonempty t s d r rs Hf Hrs) in H.
  remember (r :: rs) as l eqn:Hl; injection H as <-.
  cbn [SuccessCount ErrorCount TotalQueries]; rewrite !sum_status_count.
  rewrite <- (success_error_all l); [lia | ].
  subst l; rewrite <- Hrs; apply Forall_forall; intros x Hx; apply filter_In in Hx as [Hx _].
  unfold statuses_ok in Hst; rewrite Forall_forall in Hst; exact (Hst x Hx).
Qed.

(** X30: the entries the query-log middleware hands to [LogAsync] carry the
    status [getStatus] gives, "success" or "error"; once the worker has
    persisted one with [Create] into a table holding only such statuses,
    every successful [GetStats] has success and error counts adding up to
    the total. *)
Theorem middleware_entries_balance_stats (tracked : list string)
  (req : QueryLogMiddleware.Request) (out : QueryLogMiddleware.Outcome)
  (e : QueryLog.QueryLog) (now : Z) (t : table) (s d : Z) (stats : QueryLogStats) :
  statuses_ok t ->
  In (QueryLogMiddleware.CallLogAsync e) (QueryLogMiddleware.QueryLogMiddleware tracked req out) ->
  GetStats (snd (fst (Create now t (Some e)))) s d = Ok stats ->
  SuccessCount stats + ErrorCount stats = TotalQueries stats.
Proof.
  intros Ht Hin Hs.
  apply (GetStats_Ok_balance (snd (fst (Create now t (Some e)))) s d); [ | exact Hs].
  apply Create_keeps_statuses; [exact Ht | exact (middleware_entry_status tracked req out e Hin)].
Qed.

Lemma middleware_entries_balance_stats_witness :
  let t' := snd (fst (Create 500 (mkTable [] 0 None) (Some sample_entry))) in
  let st := match GetStats t' zero_time zero_time with Ok st => st | Err _ => empty_stats end in
  statuses_ok (mkTable [] 0 None) /\
  In (QueryLogMiddleware.CallLogAsync sample_entry)
     (QueryLogMiddleware.QueryLogMiddleware sample_tracked sample_request sample_outcome) /\
  GetStats t' zero_time zero_time = Ok st /\
  SuccessCount st + ErrorCount st = TotalQueries st.
Proof.
  cbv zeta.
  assert (Hin : In (QueryLogMiddleware.CallLogAsync sample_entry)
     (QueryLogMiddleware.QueryLogMiddleware sample_tracked sample_request sample_outcome))
    by (vm_compute; left; reflexivity).
  assert (Hs : GetStats (snd (fst (Create 500 (mkTable [] 0 None) (Some sample_entry))))
                 zero_time zero_time =
               Ok (match GetStats (snd (fst (Create 500 (mkTable [] 0 None) (Some sample_entry))))
                           zero_time zero_time with Ok st => st | Err _ => empty_stats end))
    by (vm_compute; reflexivity).
  split; [constructor | split; [exact Hin | split; [exact Hs | ]]].
  exact (middleware_entries_balance_stats sample_tracked sample_request sample_outcome
           sample_entry 500 (mkTable [] 0 None) zero_time zero_time _ (Forall_nil _) Hin Hs).
Defined.

End QueryLogHandlerProofs.
